(** * PasswordVault: the AES-GCM credential store (vault_aes.c, crypto.c)

    A shallow embedding of the encrypted vault of the repository and the
    properties of its codec, container format, persistence and commands,
    followed by the log scanner that vault_aes.c holds after the vault
    (module [SecLog]).

    Conventions.
    - A byte is an [ascii]; a buffer is a [list ascii].
    - A C string is the run of bytes before the first NUL of its buffer
      ([c_str]); [strlen], [strchr], [strspn], [strcspn] and [strtok_r]
      work on that run.
    - [size_t] is 64 bits wide (LP64) and [uint32_t], [int] are 32 bits;
      every conversion between them is written out.
    - The host byte order is a parameter ([endianness]): the code copies
      its 32-bit fields with [memcpy].
    - OpenSSL (EVP, PBKDF2, RAND) is outside the repository: it is the
      interface [OpenSSL], whose operations the code calls in the order of
      crypto.c; what the code needs from it is stated as contracts and
      assumed only where a theorem says so.
    - The file system is a finite map from paths to file contents; the
      environment decides which call of a write sequence fails.
    - Memory is unbounded: [malloc] and [realloc] succeed, and [malloc(0)]
      is not NULL; the requests the C library refuses whatever the heap
      are written out where they can occur ([SecLog.xrealloc]). Fresh
      memory holds arbitrary bytes ([uninit]). *)

From Stdlib Require Import ZArith Lia List Ascii String Bool.
From stdpp Require Import gmap strings.
Import ListNotations.

Local Open Scope Z_scope.

Abbreviation bytes := (list ascii).

(** ** Characters and C strings *)

Definition NUL : ascii := "000"%char.
Definition TAB : ascii := "009"%char.
Definition LF  : ascii := "010"%char.
Definition CR  : ascii := "013"%char.
Definition HASH : ascii := "#"%char.

(** The bytes of a string literal, without its terminating NUL. *)
Definition lit (s : string) : bytes := list_ascii_of_string s.

(** [strlen(s)]: the number of bytes before the first NUL. *)
Fixpoint strlen (s : bytes) : nat :=
  match s with
  | [] => 0%nat
  | c :: s' => if Ascii.eqb c NUL then 0%nat else S (strlen s')
  end.

(** The C string held in a buffer. *)
Definition c_str (s : bytes) : bytes := firstn (strlen s) s.

(** [strchr(s, c) != NULL] for [c] other than NUL. *)
Definition strchr (s : bytes) (c : ascii) : bool :=
  existsb (Ascii.eqb c) (c_str s).

(** [strcmp(a, b) == 0]. *)
Definition strcmp_eq (a b : bytes) : bool :=
  bool_decide (c_str a = c_str b).

Definition mem_byte (c : ascii) (set : bytes) : bool :=
  existsb (Ascii.eqb c) set.

(** [strspn(s, accept)] and [strcspn(s, reject)] on the C string [s]. *)
Fixpoint strspn (s accept : bytes) : nat :=
  match s with
  | [] => 0%nat
  | c :: s' => if mem_byte c accept then S (strspn s' accept) else 0%nat
  end.

Fixpoint strcspn (s reject : bytes) : nat :=
  match s with
  | [] => 0%nat
  | c :: s' => if mem_byte c reject then 0%nat else S (strcspn s' reject)
  end.

(** [strtok_r(str, delim, &save)] on the C string at the cursor: the token
    and the new cursor, or [None] for a NULL result. *)
Definition strtok_r (s delim : bytes) : option (bytes * bytes) :=
  let s1 := skipn (strspn s delim) s in
  match s1 with
  | [] => None
  | _ :: _ =>
      let n := strcspn s1 delim in
      match skipn n s1 with
      | [] => Some (firstn n s1, [])
      | _ :: save => Some (firstn n s1, save)
      end
  end.

(** ** Machine integers *)

Definition SIZE_BITS : Z := 64.
Definition wrap_size (z : Z) : Z := z mod 2 ^ SIZE_BITS.
Definition to_uint32 (z : Z) : Z := z mod 2 ^ 32.
(** Conversion to [int] (two's complement, as gcc defines it). *)
Definition to_int (z : Z) : Z := (z + 2 ^ 31) mod 2 ^ 32 - 2 ^ 31.

Inductive endianness := LittleEndian | BigEndian.

Definition byte_of_Z (z : Z) : ascii := ascii_of_N (Z.to_N (z mod 256)).
Definition Z_of_byte (c : ascii) : Z := Z.of_N (N_of_ascii c).

(** The four bytes of a 32-bit value, least significant first. *)
Definition le32 (v : Z) : bytes :=
  [ byte_of_Z v; byte_of_Z (Z.shiftr v 8);
    byte_of_Z (Z.shiftr v 16); byte_of_Z (Z.shiftr v 24) ].

Definition le32_decode (b : bytes) : Z :=
  match b with
  | [b0; b1; b2; b3] =>
      Z_of_byte b0 + Z.shiftl (Z_of_byte b1) 8
      + Z.shiftl (Z_of_byte b2) 16 + Z.shiftl (Z_of_byte b3) 24
  | _ => 0
  end.

(** [memcpy(dst, &v, 4)] of a [uint32_t]: the object representation of [v]
    on the host. *)
Definition store32 (host : endianness) (v : Z) : bytes :=
  match host with
  | LittleEndian => le32 v
  | BigEndian => rev (le32 v)
  end.

(** [memcpy(&v, src, 4)] into a [uint32_t]. *)
Definition load32 (host : endianness) (b : bytes) : Z :=
  match host with
  | LittleEndian => le32_decode b
  | BigEndian => le32_decode (rev b)
  end.

(** ** Vault format constants *)

Definition MAGIC : bytes := lit "VAES1" ++ [LF].
Definition MAGIC_LEN : Z := 6.
Definition VAULT_FILE : string := "vault_aes.dat".
Definition SALT_LEN : Z := 16.
Definition NONCE_LEN : Z := 12.
Definition TAG_LEN : Z := 16.
Definition KEY_LEN : Z := 32.
Definition PBKDF2_ITERS : Z := 200000.
Definition MAX_LINE : Z := 1024.

(** ** TSV lines in memory *)

(** [Lines]: the rows in order ([len] is the length of the list; [cap] is
    allocation bookkeeping). *)
Definition Lines := list bytes.

(** [xstrdup]: a copy of the C string. *)
Definition xstrdup (s : bytes) : bytes := c_str s.

Definition lines_push (L : Lines) (line : bytes) : Lines := L ++ [xstrdup line].

Definition hdr : bytes := lit "# AES_VAULT (authenticated)" ++ [LF].

(** [serialize]: the header, then every row followed by a newline. The
    result is [buf[0..outlen)]; [buf[outlen]] is NUL. *)
Fixpoint serialize_rows (rows : Lines) : bytes :=
  match rows with
  | [] => []
  | r :: rows' => firstn (strlen r) r ++ [LF] ++ serialize_rows rows'
  end.

Definition serialize (L : Lines) : bytes := hdr ++ serialize_rows L.

(** The loop of [parse_lines]: one [strtok_r] call per iteration. [None]
    means the iteration budget ran out. *)
Fixpoint parse_loop (fuel : nat) (cur : bytes) (L : Lines) : option Lines :=
  match fuel with
  | O => None
  | S fuel' =>
      match strtok_r cur [LF] with
      | None => Some L
      | Some (tok, save) =>
          match tok with
          | c :: _ =>
              if Ascii.eqb c HASH then parse_loop fuel' save L
              else parse_loop fuel' save (lines_push L tok)
          | [] => parse_loop fuel' save L
          end
      end
  end.

(** [parse_lines(L, plain)] on the NUL-terminated buffer [plain]. *)
Definition parse_lines (plain : bytes) : option Lines :=
  parse_loop (S (length plain)) (c_str plain) [].

(** ** Buffers *)

(** Writing [data] at offset [off] of a buffer that has room for it. *)
Definition write_at (buf : bytes) (off : nat) (data : bytes) : bytes :=
  firstn off buf ++ data ++ skipn (off + length data) buf.

(** Reading [n] bytes at offset [off]; [None] when the range leaves the
    buffer (an out-of-bounds read). *)
Definition slice (buf : bytes) (off n : Z) : option bytes :=
  if (0 <=? off) && (0 <=? n) && (off + n <=? Z.of_nat (length buf))
  then Some (firstn (Z.to_nat n) (skipn (Z.to_nat off) buf))
  else None.

(** [secure_bzero(p, n)]: the first [n] bytes of [p] set to zero. *)
Definition secure_bzero (p : bytes) (n : nat) : bytes :=
  write_at p 0 (repeat NUL (Nat.min n (length p))).

(** ** OpenSSL, as crypto.c calls it

    Every operation returns [None] where the C function does not return 1.
    An [EVP_*Update] or [EVP_*Final_ex] returns the bytes it stored through
    [out] ([*outl] is their number); a context is threaded through the
    calls as OpenSSL threads [ctx]. *)
Class OpenSSL := {
  EVP_CIPHER_CTX : Type;
  RAND_STATE : Type;
  EVP_CIPHER_CTX_new : option EVP_CIPHER_CTX;
  (* EVP_EncryptInit_ex(ctx, cipher, NULL, key, iv): [true] for
     EVP_aes_256_gcm(), [false] for a NULL cipher *)
  EVP_EncryptInit_ex :
    EVP_CIPHER_CTX -> bool -> option bytes -> option bytes -> option EVP_CIPHER_CTX;
  EVP_DecryptInit_ex :
    EVP_CIPHER_CTX -> bool -> option bytes -> option bytes -> option EVP_CIPHER_CTX;
  (* EVP_CIPHER_CTX_ctrl(ctx, EVP_CTRL_GCM_SET_IVLEN, len, NULL) *)
  EVP_CTRL_GCM_SET_IVLEN : EVP_CIPHER_CTX -> Z -> option EVP_CIPHER_CTX;
  (* EVP_CIPHER_CTX_ctrl(ctx, EVP_CTRL_GCM_GET_TAG, len, tag) *)
  EVP_CTRL_GCM_GET_TAG : EVP_CIPHER_CTX -> Z -> option bytes;
  (* EVP_CIPHER_CTX_ctrl(ctx, EVP_CTRL_GCM_SET_TAG, len, tag) *)
  EVP_CTRL_GCM_SET_TAG : EVP_CIPHER_CTX -> Z -> bytes -> option EVP_CIPHER_CTX;
  (* EVP_EncryptUpdate(ctx, NULL, &outl, aad, aad_len) *)
  EVP_EncryptUpdate_aad : EVP_CIPHER_CTX -> bytes -> Z -> option EVP_CIPHER_CTX;
  EVP_DecryptUpdate_aad : EVP_CIPHER_CTX -> bytes -> Z -> option EVP_CIPHER_CTX;
  (* EVP_EncryptUpdate(ctx, out, &outl, in, inl) *)
  EVP_EncryptUpdate : EVP_CIPHER_CTX -> bytes -> Z -> option (EVP_CIPHER_CTX * bytes);
  EVP_DecryptUpdate : EVP_CIPHER_CTX -> bytes -> Z -> option (EVP_CIPHER_CTX * bytes);
  EVP_EncryptFinal_ex : EVP_CIPHER_CTX -> option (EVP_CIPHER_CTX * bytes);
  EVP_DecryptFinal_ex : EVP_CIPHER_CTX -> option (EVP_CIPHER_CTX * bytes);
  (* PKCS5_PBKDF2_HMAC(pass, passlen, salt, saltlen, iter, EVP_sha256(), keylen, out) *)
  PKCS5_PBKDF2_HMAC : bytes -> Z -> bytes -> Z -> Z -> Z -> option bytes;
  (* RAND_bytes(buf, num) *)
  RAND_bytes : RAND_STATE -> Z -> option bytes * RAND_STATE
}.


(** ** crypto.c *)

Section Crypto.
Context {ssl : OpenSSL}.

(** [kdf_pbkdf2_sha256]: the return code and the key buffer. A NULL
    [password] or [salt] is [None]; [out_key] is the caller's array. *)
Definition kdf_pbkdf2_sha256 (password salt : option bytes) (salt_len iters : Z)
    (out_key : bytes) (out_key_len : Z) : Z * bytes :=
  match password, salt with
  | Some pw, Some s =>
      if out_key_len =? 0 then (-1, out_key)
      else
        match PKCS5_PBKDF2_HMAC pw (to_int (Z.of_nat (strlen pw))) s
                (to_int salt_len) (to_int iters) (to_int out_key_len) with
        | Some k => (0, write_at out_key 0 k)
        | None => (-1, out_key)
        end
  | _, _ => (-1, out_key)
  end.

(** [aes256gcm_encrypt]: the return code and the [ct] and [tag] buffers. *)
Definition aes256gcm_encrypt (key nonce : bytes) (nonce_len : Z)
    (pt : bytes) (pt_len : Z) (aad : option bytes) (aad_len : Z)
    (ct tag : bytes) (tag_len : Z) : Z * (bytes * bytes) :=
  match EVP_CIPHER_CTX_new with
  | None => (-1, (ct, tag))
  | Some ctx =>
  match EVP_EncryptInit_ex ctx true None None with
  | None => (-1, (ct, tag))
  | Some ctx =>
  match EVP_CTRL_GCM_SET_IVLEN ctx (to_int nonce_len) with
  | None => (-1, (ct, tag))
  | Some ctx =>
  match EVP_EncryptInit_ex ctx false (Some key) (Some nonce) with
  | None => (-1, (ct, tag))
  | Some ctx =>
  match
    (match aad with
     | Some a => if aad_len =? 0 then Some ctx
                 else EVP_EncryptUpdate_aad ctx a (to_int aad_len)
     | None => Some ctx
     end)
  with
  | None => (-1, (ct, tag))
  | Some ctx =>
  match EVP_EncryptUpdate ctx pt (to_int pt_len) with
  | None => (-1, (ct, tag))
  | Some (ctx, o1) =>
  let ct := write_at ct 0 o1 in
  let ctlen := length o1 in
  match EVP_EncryptFinal_ex ctx with
  | None => (-1, (ct, tag))
  | Some (ctx, o2) =>
  let ct := write_at ct ctlen o2 in
  match EVP_CTRL_GCM_GET_TAG ctx (to_int tag_len) with
  | None => (-1, (ct, tag))
  | Some t => (0, (ct, write_at tag 0 t))
  end end end end end end end end.

(** [aes256gcm_decrypt]: the return code and the [out_pt] buffer. The
    update step stores its output in [out_pt] before the tag is set and
    checked by the final step. *)
Definition aes256gcm_decrypt (key nonce : bytes) (nonce_len : Z)
    (ct : bytes) (ct_len : Z) (aad : option bytes) (aad_len : Z)
    (tag : bytes) (tag_len : Z) (out_pt : bytes) : Z * bytes :=
  match EVP_CIPHER_CTX_new with
  | None => (-1, out_pt)
  | Some ctx =>
  match EVP_DecryptInit_ex ctx true None None with
  | None => (-1, out_pt)
  | Some ctx =>
  match EVP_CTRL_GCM_SET_IVLEN ctx (to_int nonce_len) with
  | None => (-1, out_pt)
  | Some ctx =>
  match EVP_DecryptInit_ex ctx false (Some key) (Some nonce) with
  | None => (-1, out_pt)
  | Some ctx =>
  match
    (match aad with
     | Some a => if aad_len =? 0 then Some ctx
                 else EVP_DecryptUpdate_aad ctx a (to_int aad_len)
     | None => Some ctx
     end)
  with
  | None => (-1, out_pt)
  | Some ctx =>
  match EVP_DecryptUpdate ctx ct (to_int ct_len) with
  | None => (-1, out_pt)
  | Some (ctx, o1) =>
  let out_pt := write_at out_pt 0 o1 in
  let ptlen := length o1 in
  match EVP_CTRL_GCM_SET_TAG ctx (to_int tag_len) tag with
  | None => (-1, out_pt)
  | Some ctx =>
  match EVP_DecryptFinal_ex ctx with
  | None => (-1, out_pt)
  | Some (ctx, o2) => (0, write_at out_pt ptlen o2)
  end end end end end end end end.

(** [crypto_rand]: the return code, the filled buffer and the generator. *)
Definition crypto_rand (buf : bytes) (len : Z) (g : RAND_STATE)
    : Z * bytes * RAND_STATE :=
  match RAND_bytes g (to_int len) with
  | (Some r, g') => (0, write_at buf 0 r, g')
  | (None, g') => (-1, buf, g')
  end.

End Crypto.

(** ** The process and its environment *)

(** What the program reports on stderr before it stops or returns 1. *)
Inductive message :=
  | Msg_perror (what : string)        (* die(what) *)
  | Msg_kdf_failed
  | Msg_encrypt_failed
  | Msg_no_vault
  | Msg_bad_magic
  | Msg_too_small
  | Msg_ct_overrun
  | Msg_wrong_password_or_tampered
  | Msg_refusing_to_overwrite
  | Msg_password_input_failed
  | Msg_passwords_do_not_match
  | Msg_usage_add
  | Msg_usage_show
  | Msg_tabs_newlines_not_allowed
  | Msg_no_entry_found (svc : bytes).

(** The three reports of a malformed container. *)
Definition FormatError (m : message) : Prop :=
  m = Msg_bad_magic \/ m = Msg_too_small \/ m = Msg_ct_overrun.

(** The failure the environment injects into [write_all_atomic]: which
    library call fails, and for a failed write or close how many bytes of
    the data reached the temporary file. *)
Inductive io_fault :=
  | No_fault
  | Fopen_fails
  | Fwrite_fails (written : nat)
  | Fclose_fails (written : nat)
  | Rename_fails.

(** How a computation ends: with a value, by [exit(code)], by reading
    outside a buffer, or by exhausting an iteration budget. *)
Inductive res (A : Type) :=
  | Ret (a : A)
  | Exit (code : Z)
  | OutOfBounds
  | NoTermination.
Arguments Ret {A}.
Arguments Exit {A}.
Arguments OutOfBounds {A}.
Arguments NoTermination {A}.

Record World {ssl : OpenSSL} := mkWorld {
  fs : gmap string bytes;          (* path -> contents *)
  rng : RAND_STATE;
  prompts : list (option bytes);   (* what fgets reads at each prompt, or
                                      None when the terminal or fgets fails *)
  fault : io_fault;
  stdout : bytes;
  stderr : list message;           (* the diagnostics, not the prompt texts *)
  freed : list bytes               (* buffers as the program left them: freed
                                      blocks and scrubbed arrays *)
}.

Section Vault.
Context {ssl : OpenSSL}.
(** Host byte order, and the indeterminate contents of a fresh buffer. *)
Variable host : endianness.
Variable uninit : nat -> bytes.

Definition set_fs (f : gmap string bytes) (w : World) : World :=
  mkWorld _ f (rng w) (prompts w) (fault w) (stdout w) (stderr w) (freed w).
Definition set_rng (g : RAND_STATE) (w : World) : World :=
  mkWorld _ (fs w) g (prompts w) (fault w) (stdout w) (stderr w) (freed w).
Definition set_prompts (p : list (option bytes)) (w : World) : World :=
  mkWorld _ (fs w) (rng w) p (fault w) (stdout w) (stderr w) (freed w).
Definition print (s : bytes) (w : World) : World :=
  mkWorld _ (fs w) (rng w) (prompts w) (fault w) (stdout w ++ s) (stderr w) (freed w).
Definition eprint (m : message) (w : World) : World :=
  mkWorld _ (fs w) (rng w) (prompts w) (fault w) (stdout w) (stderr w ++ [m]) (freed w).
Definition release (b : bytes) (w : World) : World :=
  mkWorld _ (fs w) (rng w) (prompts w) (fault w) (stdout w) (stderr w) (freed w ++ [b]).

Definition M (A : Type) : Type := World -> res A * World.

Definition ret {A} (a : A) : M A := fun w => (Ret a, w).

Definition bind {A B} (m : M A) (k : A -> M B) : M B :=
  fun w =>
    match m w with
    | (Ret a, w') => k a w'
    | (Exit c, w') => (Exit c, w')
    | (OutOfBounds, w') => (OutOfBounds, w')
    | (NoTermination, w') => (NoTermination, w')
    end.

Notation "'let*' x ':=' m 'in' k" := (bind m (fun x => k))
  (at level 10, x pattern, m at level 200, k at level 200).
Notation "m ';;;' k" := (bind m (fun _ => k))
  (at level 61, k at level 200, right associativity).

(** [fprintf(stderr, ...); exit(1)]. *)
Definition fail_exit {A} (m : message) : M A := fun w => (Exit 1, eprint m w).
(** [die(what)]: [perror(what); exit(1)]. *)
Definition die {A} (what : string) : M A := fail_exit (Msg_perror what).
(** [fprintf(stderr, ...)]. *)
Definition say (m : message) : M unit := fun w => (Ret tt, eprint m w).
(** [printf] and [puts]. *)
Definition put (s : bytes) : M unit := fun w => (Ret tt, print s w).
(** [free(p)]. *)
Definition free (p : bytes) : M unit := fun w => (Ret tt, release p w).
(** A checked read: outside the buffer the run is an out-of-bounds read. *)
Definition read_slice (buf : bytes) (off n : Z) : M bytes :=
  fun w => match slice buf off n with
           | Some b => (Ret b, w)
           | None => (OutOfBounds, w)
           end.

(** A fresh buffer of [n] bytes ([malloc] or an automatic array). *)
Definition alloc (n : Z) : bytes :=
  let k := Z.to_nat n in
  firstn k (uninit k) ++ repeat NUL (k - length (uninit k)).

(** [fgets(buf, sizeof buf, stdin)] with [char buf[256]], then
    [buf[strcspn(buf, "\r\n")] = 0]: the C string left in [buf]. *)
Definition chomp (line : bytes) : bytes :=
  let buf := firstn 255 (c_str line) in
  firstn (strcspn buf [CR; LF]) buf.

(** [prompt_hidden]: a copy of the line typed at the prompt, or NULL. *)
Definition prompt_hidden : M (option bytes) :=
  fun w => match prompts w with
           | [] => (Ret None, w)
           | None :: rest => (Ret None, set_prompts rest w)
           | Some line :: rest =>
               (Ret (Some (xstrdup (chomp line))), set_prompts rest w)
           end.

(** [crypto_rand] on the generator of the process. *)
Definition rand (buf : bytes) (len : Z) : M (Z * bytes) :=
  fun w => match crypto_rand buf len (rng w) with
           | (rc, b, g) => (Ret (rc, b), set_rng g w)
           end.

(** *** File I/O helpers *)

Definition file_exists (p : string) : M bool :=
  fun w => (Ret (bool_decide (is_Some (fs w !! p))), w).

(** [read_all]: NULL when the file cannot be opened. *)
Definition read_all (path : string) : M (option bytes) :=
  fun w => (Ret (fs w !! path), w).

(** [snprintf(tmp, sizeof tmp, "%s.tmp", path)] with [char tmp[256]]. *)
Definition tmp_path (path : string) : string :=
  String.substring 0 255 (path ++ ".tmp")%string.

(** [fopen(tmp, "wb")]: the file is created or emptied. *)
Definition fopen_wb (tmp : string) : M bool :=
  fun w => match fault w with
           | Fopen_fails => (Ret false, w)
           | _ => (Ret true, set_fs (<[tmp := []]> (fs w)) w)
           end.

(** [fwrite(data, 1, n, f) == n]. *)
Definition fwrite (tmp : string) (data : bytes) (n : Z) : M bool :=
  fun w =>
    let payload := firstn (Z.to_nat n) data in
    match fault w with
    | Fwrite_fails k => (Ret false, set_fs (<[tmp := firstn k payload]> (fs w)) w)
    | _ => (Ret true, set_fs (<[tmp := payload]> (fs w)) w)
    end.

(** [fclose(f) == 0]. *)
Definition fclose (tmp : string) : M bool :=
  fun w =>
    match fault w with
    | Fclose_fails k =>
        (Ret false, set_fs (<[tmp := firstn k (default [] (fs w !! tmp))]> (fs w)) w)
    | _ => (Ret true, w)
    end.

(** [rename(tmp, path) == 0]: the new contents replace the old in one step. *)
Definition rename (tmp path : string) : M bool :=
  fun w =>
    match fault w with
    | Rename_fails => (Ret false, w)
    | _ =>
        match fs w !! tmp with
        | Some c => (Ret true, set_fs (<[path := c]> (delete tmp (fs w))) w)
        | None => (Ret false, w)
        end
    end.

Definition write_all_atomic (path : string) (data : bytes) (n : Z) : M unit :=
  let tmp := tmp_path path in
  let* f := fopen_wb tmp in
  if negb f then die "fopen tmp" else
  let* ok := fwrite tmp data n in
  if negb ok then die "fwrite" else
  let* ok := fclose tmp in
  if negb ok then die "fclose" else
  let* ok := rename tmp path in
  if negb ok then die "rename" else
  (* chmod(path, 0600): the mode only *)
  ret tt.

(** *** AES-GCM vault read/write

    Layout: MAGIC(6) | iters(4) | salt(16) | nonce(12) | ct_len(4) |
    ciphertext(ct_len) | tag(16). *)

(** The [n] bytes a [memcpy(out+off, src, n); off += n] appends. *)
Definition memcpy (src : bytes) (n : Z) : bytes := firstn (Z.to_nat n) src.

(** The assembled file of [save_vault]. *)
Definition assemble (salt nonce ct tag : bytes) (iters_le ct_len_le : Z) : bytes :=
  memcpy (MAGIC ++ [NUL]) MAGIC_LEN
  ++ memcpy (store32 host iters_le) 4
  ++ memcpy salt SALT_LEN
  ++ memcpy nonce NONCE_LEN
  ++ memcpy (store32 host ct_len_le) 4
  ++ memcpy ct ct_len_le
  ++ memcpy tag TAG_LEN.

Definition save_vault (L : Lines) (password : bytes) : M unit :=
  (* generate fresh salt + nonce each save *)
  let* (rc, salt) := rand (alloc SALT_LEN) SALT_LEN in
  if negb (rc =? 0) then die "RAND(salt)" else
  let* (rc, nonce) := rand (alloc NONCE_LEN) NONCE_LEN in
  if negb (rc =? 0) then die "RAND(nonce)" else
  (* serialize *)
  let plain := serialize L in
  let plen := wrap_size (Z.of_nat (length plain)) in
  (* derive key *)
  let (rc, key) := kdf_pbkdf2_sha256 (Some password) (Some salt) SALT_LEN
                     PBKDF2_ITERS (alloc KEY_LEN) KEY_LEN in
  if negb (rc =? 0) then fail_exit Msg_kdf_failed else
  (* encrypt *)
  let '(rc, (ct, tag)) := aes256gcm_encrypt key nonce NONCE_LEN plain plen
                            None 0 (alloc plen) (alloc TAG_LEN) TAG_LEN in
  if negb (rc =? 0) then fail_exit Msg_encrypt_failed else
  (* assemble file *)
  let iters_le := to_uint32 PBKDF2_ITERS in
  let ct_len_le := to_uint32 plen in
  let outsz := wrap_size (MAGIC_LEN + 4 + SALT_LEN + NONCE_LEN + 4
                          + ct_len_le + TAG_LEN) in
  let out := assemble salt nonce ct tag iters_le ct_len_le in
  write_all_atomic VAULT_FILE out outsz ;;;
  (* scrub *)
  free (secure_bzero key (Z.to_nat KEY_LEN)) ;;;
  free (secure_bzero (plain ++ [NUL]) (Z.to_nat plen)) ;;;
  free (secure_bzero ct (Z.to_nat plen)) ;;;
  free (secure_bzero out (Z.to_nat outsz)).

Definition load_vault (password : bytes) : M Lines :=
  let* r := read_all VAULT_FILE in
  match r with
  | None => fail_exit Msg_no_vault
  | Some buf =>
  let sz := wrap_size (Z.of_nat (length buf)) in
  if sz <? MAGIC_LEN then fail_exit Msg_bad_magic else
  let* m := read_slice buf 0 MAGIC_LEN in
  if negb (bool_decide (m = MAGIC)) then fail_exit Msg_bad_magic else
  let off := MAGIC_LEN in
  if sz <? wrap_size (off + 4 + SALT_LEN + NONCE_LEN + 4 + TAG_LEN)
  then fail_exit Msg_too_small else
  let* b := read_slice buf off 4 in
  let iters := load32 host b in
  let off := wrap_size (off + 4) in
  let* salt := read_slice buf off SALT_LEN in
  let off := wrap_size (off + SALT_LEN) in
  let* nonce := read_slice buf off NONCE_LEN in
  let off := wrap_size (off + NONCE_LEN) in
  let* b := read_slice buf off 4 in
  let ct_len := load32 host b in
  let off := wrap_size (off + 4) in
  if sz <? wrap_size (off + ct_len + TAG_LEN)
  then fail_exit Msg_ct_overrun else
  let* ct := read_slice buf off ct_len in
  let off := wrap_size (off + ct_len) in
  let* tag := read_slice buf off TAG_LEN in
  let (rc, key) := kdf_pbkdf2_sha256 (Some password) (Some salt) SALT_LEN
                     iters (alloc KEY_LEN) KEY_LEN in
  if negb (rc =? 0) then fail_exit Msg_kdf_failed else
  let plain := alloc (wrap_size (ct_len + 1)) in
  let (rc, plain) := aes256gcm_decrypt key nonce NONCE_LEN ct ct_len
                       None 0 tag TAG_LEN plain in
  if negb (rc =? 0) then
    free (secure_bzero key (Z.to_nat KEY_LEN)) ;;;
    free (secure_bzero plain (Z.to_nat ct_len)) ;;;
    free (secure_bzero buf (Z.to_nat sz)) ;;;
    fail_exit Msg_wrong_password_or_tampered
  else
  let plain := write_at plain (Z.to_nat ct_len) [NUL] in
  match parse_lines plain with
  | None => fun w => (NoTermination, w)
  | Some L =>
      free (secure_bzero key (Z.to_nat KEY_LEN)) ;;;
      free (secure_bzero plain (Z.to_nat ct_len)) ;;;
      free (secure_bzero buf (Z.to_nat sz)) ;;;
      ret L
  end
  end.

(** *** Commands *)

(** [lines_free]: every row is freed as it is. *)
Fixpoint lines_free (L : Lines) : M unit :=
  match L with
  | [] => ret tt
  | r :: L' => free (r ++ [NUL]) ;;; lines_free L'
  end.

(** [secure_bzero(pw, strlen(pw)); free(pw)]. *)
Definition scrub_free (pw : bytes) : M unit :=
  free (secure_bzero (pw ++ [NUL]) (strlen pw)).

Definition cmd_init : M Z :=
  let* e := file_exists VAULT_FILE in
  if e then say Msg_refusing_to_overwrite ;;; ret 1 else
  let* pw1 := prompt_hidden in
  let* pw2 := prompt_hidden in
  match pw1, pw2 with
  | Some pw1, Some pw2 =>
      if negb (strcmp_eq pw1 pw2) then
        say Msg_passwords_do_not_match ;;;
        scrub_free pw1 ;;; scrub_free pw2 ;;;
        ret 1
      else
        save_vault [] pw1 ;;;
        scrub_free pw1 ;;; scrub_free pw2 ;;;
        lines_free [] ;;;
        put (lit "Initialized AES vault: vault_aes.dat" ++ [LF]) ;;;
        ret 0
  | _, _ => say Msg_password_input_failed ;;; ret 1
  end.

(** [snprintf(line, size, "%s\t%s\t%s", svc, usr, pwd)]: the C string
    left in [line]. *)
Definition snprintf_row (size : Z) (svc usr pwd : bytes) : bytes :=
  firstn (Z.to_nat (size - 1)) (c_str svc ++ [TAB] ++ c_str usr ++ [TAB] ++ c_str pwd).

Definition cmd_add (svc usr pwd : option bytes) : M Z :=
  match svc, usr, pwd with
  | Some svc, Some usr, Some pwd =>
      if strchr svc TAB || strchr usr TAB || strchr pwd TAB ||
         strchr svc LF || strchr usr LF || strchr pwd LF
      then say Msg_tabs_newlines_not_allowed ;;; ret 1 else
      let* pw := prompt_hidden in
      match pw with
      | None => say Msg_password_input_failed ;;; ret 1
      | Some pw =>
          let* L := load_vault pw in
          let line := snprintf_row MAX_LINE svc usr pwd in
          let L := lines_push L line in
          save_vault L pw ;;;
          scrub_free pw ;;;
          lines_free L ;;;
          put (lit "Added entry for service: " ++ c_str svc ++ [LF]) ;;;
          ret 0
      end
  | _, _, _ => say Msg_usage_add ;;; ret 1
  end.

(** [strncpy(buf, row, size); buf[size-1] = 0]: the C string in [buf]. *)
Definition strncpy_row (row : bytes) (size : Z) : bytes :=
  firstn (Z.to_nat (size - 1)) (c_str row).

(** [strtok]: [strtok_r] on the cursor the library keeps. *)
Definition strtok (cur delim : bytes) : option bytes * bytes :=
  match strtok_r cur delim with
  | Some (tok, save) => (Some tok, save)
  | None => (None, [])
  end.

Fixpoint list_loop (rows : Lines) : M unit :=
  match rows with
  | [] => ret tt
  | r :: rows' =>
      let buf := strncpy_row r MAX_LINE in
      match fst (strtok buf [TAB]) with
      | Some svc => put (svc ++ [LF]) ;;; list_loop rows'
      | None => list_loop rows'
      end
  end.

Definition cmd_list : M Z :=
  let* pw := prompt_hidden in
  match pw with
  | None => say Msg_password_input_failed ;;; ret 1
  | Some pw =>
      let* L := load_vault pw in
      list_loop L ;;;
      scrub_free pw ;;;
      lines_free L ;;;
      ret 0
  end.

(** The loop of [cmd_show]: the fields of the first matching row. *)
Fixpoint show_loop (rows : Lines) (svc_q : bytes) : option (bytes * bytes * bytes) :=
  match rows with
  | [] => None
  | r :: rows' =>
      let buf := strncpy_row r MAX_LINE in
      let (svc, c1) := strtok buf [TAB] in
      let (usr, c2) := strtok c1 [TAB] in
      let (pwd, _) := strtok c2 [TAB] in
      match svc, usr, pwd with
      | Some s, Some u, Some p =>
          if strcmp_eq s svc_q then Some (s, u, p) else show_loop rows' svc_q
      | _, _, _ => show_loop rows' svc_q
      end
  end.

(** [printf("service : %s\nuser    : %s\npass    : %s\n", svc, usr, pwd)]. *)
Definition show_text (svc usr pwd : bytes) : bytes :=
  lit "service : " ++ svc ++ [LF] ++ lit "user    : " ++ usr ++ [LF]
  ++ lit "pass    : " ++ pwd ++ [LF].

Definition cmd_show (svc_q : option bytes) : M Z :=
  match svc_q with
  | None => say Msg_usage_show ;;; ret 1
  | Some svc_q =>
      let* pw := prompt_hidden in
      match pw with
      | None => say Msg_password_input_failed ;;; ret 1
      | Some pw =>
          let* L := load_vault pw in
          match show_loop L svc_q with
          | Some (s, u, p) =>
              put (show_text s u p) ;;;
              scrub_free pw ;;;
              lines_free L ;;;
              ret 0
          | None =>
              say (Msg_no_entry_found (c_str svc_q)) ;;;
              scrub_free pw ;;;
              lines_free L ;;;
              ret 1
          end
      end
  end.

End Vault.

(** ** What the code relies on from OpenSSL

    The contract of the calls crypto.c makes, for a 32-byte key, a 12-byte
    nonce and a plaintext whose length fits an [int]: sealing succeeds,
    gives as many ciphertext bytes as plaintext bytes and a 16-byte tag,
    and opening that ciphertext with that tag under the same key and nonce
    gives the plaintext back. *)
Definition gcm_contract (ssl : OpenSSL) : Prop :=
  forall (key nonce pt : bytes),
    length key = 32%nat -> length nonce = 12%nat ->
    Z.of_nat (length pt) < 2 ^ 31 ->
    exists c0 c1 c2 c3 c4 c5 o1 o2 t,
      EVP_CIPHER_CTX_new = Some c0 /\
      EVP_EncryptInit_ex c0 true None None = Some c1 /\
      EVP_CTRL_GCM_SET_IVLEN c1 12 = Some c2 /\
      EVP_EncryptInit_ex c2 false (Some key) (Some nonce) = Some c3 /\
      EVP_EncryptUpdate c3 pt (Z.of_nat (length pt)) = Some (c4, o1) /\
      EVP_EncryptFinal_ex c4 = Some (c5, o2) /\
      EVP_CTRL_GCM_GET_TAG c5 16 = Some t /\
      length (o1 ++ o2) = length pt /\
      length t = 16%nat /\
      exists d1 d2 d3 d4 d5 d6 p1 p2,
        EVP_DecryptInit_ex c0 true None None = Some d1 /\
        EVP_CTRL_GCM_SET_IVLEN d1 12 = Some d2 /\
        EVP_DecryptInit_ex d2 false (Some key) (Some nonce) = Some d3 /\
        EVP_DecryptUpdate d3 (o1 ++ o2) (Z.of_nat (length pt)) = Some (d4, p1) /\
        EVP_CTRL_GCM_SET_TAG d4 16 t = Some d5 /\
        EVP_DecryptFinal_ex d5 = Some (d6, p2) /\
        p1 ++ p2 = pt.

(** Key derivation from a 16-byte salt succeeds with a 32-byte key. *)
Definition kdf_contract (ssl : OpenSSL) : Prop :=
  forall (pw salt : bytes) (iters : Z),
    length salt = 16%nat ->
    Z.of_nat (length pw) < 2 ^ 31 -> 0 < iters < 2 ^ 31 ->
    exists k, PKCS5_PBKDF2_HMAC pw (Z.of_nat (strlen pw)) salt 16 iters 32 = Some k
              /\ length k = 32%nat.

(** The generator delivers the requested number of bytes. *)
Definition rand_contract (ssl : OpenSSL) : Prop :=
  forall (g : RAND_STATE) (n : Z),
    0 <= n < 2 ^ 31 ->
    exists r g', RAND_bytes g n = (Some r, g') /\ length r = Z.to_nat n.

(** ** A small executable instance of the interface

    A keyed XOR stream with a checksum tag: enough to run the vault on
    concrete inputs. It stands for no real cipher. *)
Module Toy.

Definition xor_byte (a b : ascii) : ascii :=
  match a, b with
  | Ascii a0 a1 a2 a3 a4 a5 a6 a7, Ascii b0 b1 b2 b3 b4 b5 b6 b7 =>
      Ascii (xorb a0 b0) (xorb a1 b1) (xorb a2 b2) (xorb a3 b3)
            (xorb a4 b4) (xorb a5 b5) (xorb a6 b6) (xorb a7 b7)
  end.

Definition checksum (l : bytes) : ascii := fold_right xor_byte NUL l.

Record ctx := mkCtx {
  c_key : bytes;
  c_iv : bytes;
  c_data : bytes;      (* the ciphertext processed so far *)
  c_tag : bytes        (* the expected tag, when set *)
}.

Definition pad (c : ctx) : ascii := checksum (c_key c ++ c_iv c).

Definition mac (c : ctx) (len : Z) : bytes :=
  repeat (checksum (c_key c ++ c_iv c ++ c_data c)) (Z.to_nat len).

Definition init (c : ctx) (cipher : bool) (key iv : option bytes) : option ctx :=
  Some (mkCtx (default (c_key c) key) (default (c_iv c) iv) (c_data c) (c_tag c)).

Definition enc_update (c : ctx) (inp : bytes) (inl : Z) : option (ctx * bytes) :=
  if (0 <=? inl) && (inl <=? Z.of_nat (length inp)) then
    let o := map (xor_byte (pad c)) (firstn (Z.to_nat inl) inp) in
    Some (mkCtx (c_key c) (c_iv c) (c_data c ++ o) (c_tag c), o)
  else None.

Definition dec_update (c : ctx) (inp : bytes) (inl : Z) : option (ctx * bytes) :=
  if (0 <=? inl) && (inl <=? Z.of_nat (length inp)) then
    let i := firstn (Z.to_nat inl) inp in
    Some (mkCtx (c_key c) (c_iv c) (c_data c ++ i) (c_tag c),
          map (xor_byte (pad c)) i)
  else None.

Definition aad_update (c : ctx) (a : bytes) (len : Z) : option ctx :=
  Some (mkCtx (c_key c) (c_iv c) (c_data c ++ firstn (Z.to_nat len) a) (c_tag c)).

Definition dec_final (c : ctx) : option (ctx * bytes) :=
  if bool_decide (mac c (Z.of_nat (length (c_tag c))) = c_tag c)
  then Some (c, []) else None.

Definition pbkdf2 (pw : bytes) (pwlen : Z) (salt : bytes) (saltlen iters keylen : Z)
    : option bytes :=
  if 0 <? iters then
    Some (firstn (Z.to_nat keylen)
            (firstn (Z.to_nat pwlen) pw ++ firstn (Z.to_nat saltlen) salt
             ++ repeat NUL (Z.to_nat keylen)))
  else None.

Definition rand_bytes (g : nat) (n : Z) : option bytes * nat :=
  if 0 <=? n then (Some (repeat (ascii_of_nat (g + 65)) (Z.to_nat n)), S g)
  else (None, g).

#[export] Instance ssl : OpenSSL := {|
  EVP_CIPHER_CTX := ctx;
  RAND_STATE := nat;
  EVP_CIPHER_CTX_new := Some (mkCtx [] [] [] []);
  EVP_EncryptInit_ex := init;
  EVP_DecryptInit_ex := init;
  EVP_CTRL_GCM_SET_IVLEN := fun c len => if len =? 12 then Some c else None;
  EVP_CTRL_GCM_GET_TAG := fun c len => Some (mac c len);
  EVP_CTRL_GCM_SET_TAG := fun c len t =>
    Some (mkCtx (c_key c) (c_iv c) (c_data c) (firstn (Z.to_nat len) t));
  EVP_EncryptUpdate_aad := aad_update;
  EVP_DecryptUpdate_aad := aad_update;
  EVP_EncryptUpdate := enc_update;
  EVP_DecryptUpdate := dec_update;
  EVP_EncryptFinal_ex := fun c => Some (c, []);
  EVP_DecryptFinal_ex := dec_final;
  PKCS5_PBKDF2_HMAC := pbkdf2;
  RAND_bytes := rand_bytes
|}.

(** Fresh memory holds the byte ['?']. *)
Definition uninit (n : nat) : bytes := repeat "?"%char n.

(** A process start: the given files and prompt answers, generator at 0. *)
Definition start (files : gmap string bytes) (answers : list (option bytes))
    (f : io_fault) : World :=
  mkWorld ssl files 0%nat answers f [] [] [].

End Toy.

(** ** Lines of a blob, as the specification describes them *)

(** The fields of [s] separated by [d], empty ones included. *)
Fixpoint split_on (d : ascii) (s : bytes) : list bytes :=
  match s with
  | [] => [[]]
  | c :: s' =>
      if Ascii.eqb c d then [] :: split_on d s'
      else match split_on d s' with
           | l :: ls => (c :: l) :: ls
           | [] => [[c]]
           end
  end.

Definition nonempty (l : bytes) : bool :=
  match l with [] => false | _ :: _ => true end.

(** The non-empty fields: what successive [strtok] calls return. *)
Definition tokens (d : ascii) (s : bytes) : list bytes :=
  List.filter nonempty (split_on d s).

Definition is_comment (l : bytes) : bool :=
  match l with c :: _ => Ascii.eqb c HASH | [] => false end.

(** A line that is kept: not empty and not a comment. *)
Definition keep_line (l : bytes) : bool := nonempty l && negb (is_comment l).

(** A row that survives a save and a load: a C string without a newline,
    not empty, not a comment. *)
Definition row_ok (r : bytes) : bool :=
  negb (mem_byte NUL r) && negb (mem_byte LF r) && keep_line r.

(** The check of [cmd_add] on the three fields. *)
Definition fields_have_delims (svc usr pwd : bytes) : bool :=
  strchr svc TAB || strchr usr TAB || strchr pwd TAB ||
  strchr svc LF || strchr usr LF || strchr pwd LF.

(** A record as [cmd_add] receives it: service, user and password. *)
Definition record : Type := bytes * bytes * bytes.

(** The row [cmd_add] stores for a record. *)
Definition row_of (r : record) : bytes :=
  let '(svc, usr, pwd) := r in snprintf_row MAX_LINE svc usr pwd.

(** The row of a record as it is: its three C strings joined by tabs. *)
Definition record_row (r : record) : bytes :=
  let '(svc, usr, pwd) := r in
  c_str svc ++ [TAB] ++ c_str usr ++ [TAB] ++ c_str pwd.

(** The three fields of a record, as C strings. *)
Definition record_fields (r : record) : list bytes :=
  let '(svc, usr, pwd) := r in [c_str svc; c_str usr; c_str pwd].

(** A record [cmd_add] accepts and whose service is not read as a comment. *)
Definition record_ok (r : record) : bool :=
  let '(svc, usr, pwd) := r in
  negb (fields_have_delims svc usr pwd) && negb (is_comment (c_str svc)).

(** The container of [w] is a save of the rows [L] under [pw]: the layout,
    the sizes of its fields, and the key and plaintext its fields give. *)
Definition holds_vault {ssl : OpenSSL} (host : endianness) (uninit : nat -> bytes)
    (w : World) (pw : bytes) (L : Lines) : Prop :=
  let plain := serialize L in
  let plen := Z.of_nat (length plain) in
  plen < 2 ^ 31 /\
  exists salt nonce ct tag key x,
    fs w !! VAULT_FILE
      = Some (assemble host salt nonce ct tag (to_uint32 PBKDF2_ITERS) plen) /\
    length salt = 16%nat /\ length nonce = 12%nat /\
    length ct = length plain /\ length tag = 16%nat /\
    kdf_pbkdf2_sha256 (Some pw) (Some salt) SALT_LEN PBKDF2_ITERS
      (alloc uninit KEY_LEN) KEY_LEN = (0, key) /\
    aes256gcm_decrypt key nonce NONCE_LEN ct plen None 0 tag TAG_LEN
      (alloc uninit (plen + 1)) = (0, plain ++ [x]).

(** ** The rows as the commands read them *)

(** The fields [cmd_show] and [cmd_list] see in a row: the tokens of its
    first 1023 bytes. *)
Definition row_fields (r : bytes) : list bytes :=
  tokens TAB (strncpy_row r MAX_LINE).

(** The row has three fields and the first is the service asked for. *)
Definition row_matches (q r : bytes) : bool :=
  match row_fields r with
  | s :: _ :: _ :: _ => strcmp_eq s q
  | _ => false
  end.

(** What [cmd_list] prints for a row. *)
Definition list_line (r : bytes) : bytes :=
  match row_fields r with
  | t :: _ => t ++ [LF]
  | [] => []
  end.

(** ** main

    What [main] itself prints on stderr, kept apart from the diagnostics
    of the commands: it prints only where no command runs. *)
Inductive main_message :=
| Msg_usage
| Msg_unknown_command (cmd : bytes).

(** The option loop of [add], over [argv[i..argc)]: a flag takes the next
    argument as its value when there is one; any other word is skipped. *)
Fixpoint add_args (args : list bytes) (svc usr pwd : option bytes)
    : option bytes * option bytes * option bytes :=
  match args with
  | [] => (svc, usr, pwd)
  | a :: rest =>
      match rest with
      | v :: rest' =>
          if strcmp_eq a (lit "--service") then add_args rest' (Some v) usr pwd
          else if strcmp_eq a (lit "--user") then add_args rest' svc (Some v) pwd
          else if strcmp_eq a (lit "--pass") then add_args rest' svc usr (Some v)
          else add_args rest svc usr pwd
      | [] => (svc, usr, pwd)
      end
  end.

(** The option loop of [show]. *)
Fixpoint show_args (args : list bytes) (svc : option bytes) : option bytes :=
  match args with
  | [] => svc
  | a :: rest =>
      match rest with
      | v :: rest' =>
          if strcmp_eq a (lit "--service") then show_args rest' (Some v)
          else show_args rest svc
      | [] => svc
      end
  end.

Section Main.
Context {ssl : OpenSSL}.
Variable host : endianness.
Variable uninit : nat -> bytes.

(** [main(argc, argv)]: the run of the command, and what [main] printed. *)
Definition main (argv : list bytes) (w : World)
    : res Z * World * list main_message :=
  match argv with
  | _ :: cmd :: args =>
      if strcmp_eq cmd (lit "init") then (cmd_init host uninit w, [])
      else if strcmp_eq cmd (lit "add") then
        let '(svc, usr, pwd) := add_args args None None None in
        (cmd_add host uninit svc usr pwd w, [])
      else if strcmp_eq cmd (lit "list") then (cmd_list host uninit w, [])
      else if strcmp_eq cmd (lit "show") then
        (cmd_show host uninit (show_args args None) w, [])
      else (Ret 1, w, [Msg_unknown_command (c_str cmd)])
  | _ => (Ret 1, w, [Msg_usage])
  end.

End Main.

(** The options of [add], for stating what its loop computes. *)
Inductive add_option := Opt_service | Opt_user | Opt_pass.

Definition flag (o : add_option) : bytes :=
  match o with
  | Opt_service => lit "--service"
  | Opt_user => lit "--user"
  | Opt_pass => lit "--pass"
  end.

Definition same_option (a b : add_option) : bool :=
  match a, b with
  | Opt_service, Opt_service | Opt_user, Opt_user | Opt_pass, Opt_pass => true
  | _, _ => false
  end.

(** A command line made of flag and value pairs. *)
Definition pairs_args (ps : list (add_option * bytes)) : list bytes :=
  concat (map (fun p => [flag (fst p); snd p]) ps).

(** The value of the last pair for option [o], or [init]. *)
Definition last_value (o : add_option) (ps : list (add_option * bytes))
    (init : option bytes) : option bytes :=
  fold_left (fun acc p => if same_option (fst p) o then Some (snd p) else acc)
            ps init.

(** ** SecLog Scan (vault_aes.c, second program)

    The log analyzer that follows the vault in the same file: it reads
    an access log line by line and counts, per client IP, the requests,
    the failed ones and the suspicious ones. The character classes are
    those of the C locale, which the program never changes; [long] is 64
    bits wide and [IPStat] takes 24 bytes (LP64). *)
Module SecLog.

Definition DQUOTE : ascii := "034"%char.
Definition SPACE : ascii := " "%char.

(** [isspace] and [tolower] in the C locale. *)
Definition isspace (c : ascii) : bool :=
  let n := Z_of_byte c in (n =? 32) || ((9 <=? n) && (n <=? 13)).

Definition tolower (c : ascii) : ascii :=
  let n := Z_of_byte c in
  if (65 <=? n) && (n <=? 90) then byte_of_Z (n + 32) else c.

Record IPStat := mkIPStat {
  ip : bytes;           (* dynamically owned *)
  total : Z;            (* unsigned: total requests from this IP *)
  failed : Z;           (* unsigned: 4xx/5xx *)
  suspicious : Z        (* unsigned: matched heuristic signatures *)
}.

(** [Vec]: [data[0..len)] and the capacity; the block of [data] has
    [cap * sizeof(IPStat)] bytes, modulo 2^64. *)
Record Vec := mkVec {
  data : list IPStat;
  cap : Z
}.

Definition len (v : Vec) : Z := Z.of_nat (length (data v)).

Definition SIZE_MAX : Z := 2 ^ SIZE_BITS - 1.
Definition PTRDIFF_MAX : Z := 2 ^ 63 - 1.
Definition LONG_MAX : Z := 2 ^ 63 - 1.
Definition LONG_MIN : Z := - 2 ^ 63.
Definition sizeof_IPStat : Z := 24.
Definition EXIT_FAILURE : Z := 1.

Definition xstrdup (s : bytes) : bytes := c_str s.

(** The loop of [vec_reserve]: [while (new_cap < need)]. *)
Fixpoint grow (fuel : nat) (new_cap need : Z) : res Z :=
  match fuel with
  | O => NoTermination
  | S fuel' =>
      if new_cap <? need then
        if new_cap >? SIZE_MAX / 2 then Exit EXIT_FAILURE
        else grow fuel' (wrap_size (new_cap * 2)) need
      else Ret new_cap
  end.

(** [xrealloc(ptr, n)], where [held] says that [ptr] is a block and not
    NULL. Memory is unbounded, but the C library returns NULL whatever the
    heap for a request above PTRDIFF_MAX, and for a request of 0 bytes on
    a block it holds, which it frees (glibc); [xrealloc] then exits. *)
Definition xrealloc (held : bool) (n : Z) : res unit :=
  if (held && (n =? 0)) || (n >? PTRDIFF_MAX) then Exit EXIT_FAILURE
  else Ret tt.

(** [vec_reserve]: [v->data] is NULL exactly while [v->cap] is 0, as
    [Vec stats = {0}] and this function leave them; the byte count of the
    request is the product modulo 2^64. *)
Definition vec_reserve (v : Vec) (need : Z) : res Vec :=
  if need <=? cap v then Ret v else
  let new_cap := if cap v =? 0 then 8 else cap v in
  match grow 64 new_cap need with
  | Ret new_cap =>
      match xrealloc (negb (cap v =? 0))
              (wrap_size (new_cap * sizeof_IPStat)) with
      | Ret _ => Ret (mkVec (data v) new_cap)
      | Exit c => Exit c
      | OutOfBounds => OutOfBounds
      | NoTermination => NoTermination
      end
  | Exit c => Exit c
  | OutOfBounds => OutOfBounds
  | NoTermination => NoTermination
  end.

Definition vec_free (v : Vec) : Vec := mkVec [] 0.

(** [find_ip]: the index of the first entry for [ip'], or -1. *)
Fixpoint find_from (rows : list IPStat) (ip' : bytes) (i : Z) : Z :=
  match rows with
  | [] => -1
  | s :: rows' =>
      if strcmp_eq (ip s) ip' then i else find_from rows' ip' (i + 1)
  end.

Definition find_ip (v : Vec) (ip' : bytes) : Z := find_from (data v) ip' 0.

Definition add_or_update (v : Vec) (ip' : bytes) (failed' suspicious' : Z)
    : res Vec :=
  let idx := find_ip v ip' in
  if idx <? 0 then
    match vec_reserve v (wrap_size (len v + 1)) with
    | Ret v =>
        (* v->data[v->len] must lie inside the block *)
        if (len v + 1) * sizeof_IPStat <=? wrap_size (cap v * sizeof_IPStat)
        then
          Ret (mkVec (data v ++ [mkIPStat (xstrdup ip') 1
                                   (if failed' =? 0 then 0 else 1)
                                   (if suspicious' =? 0 then 0 else 1)])
                     (cap v))
        else OutOfBounds
    | Exit c => Exit c
    | OutOfBounds => OutOfBounds
    | NoTermination => NoTermination
    end
  else
    Ret (mkVec (alter (fun s =>
                         mkIPStat (ip s) (to_uint32 (total s + 1))
                           (if failed' =? 0 then failed s
                            else to_uint32 (failed s + 1))
                           (if suspicious' =? 0 then suspicious s
                            else to_uint32 (suspicious s + 1)))
                      (Z.to_nat idx) (data v))
               (cap v)).

(** *** Parsing and detection *)

(** The loop that skips leading white space. *)
Fixpoint skip_space (s : bytes) : bytes :=
  match s with
  | c :: s' => if isspace c then skip_space s' else s
  | [] => []
  end.

(** The copy loops of [extract_ip] and [extract_path]: the bytes of [s]
    before the first one that [stop]s, stored at [out[i..]]; [None] when
    they do not fit [outsz] bytes with the terminating NUL. *)
Fixpoint copy_until (stop : ascii -> bool) (s : bytes) (i outsz : Z)
    (out : bytes) : option bytes :=
  match s with
  | [] => Some out
  | c :: s' =>
      if stop c then Some out
      else if wrap_size (i + 1) >=? outsz then None
      else copy_until stop s' (wrap_size (i + 1)) outsz (out ++ [c])
  end.

(** [extract_ip]: the C string left in [out] when the result is 1. *)
Definition extract_ip (line : bytes) (outsz : Z) : option bytes :=
  match copy_until isspace (skip_space (c_str line)) 0 outsz [] with
  | Some (c :: w) => Some (c :: w)
  | _ => None
  end.

(** [strchr(s, c) + 1] and [strrchr(s, c) + 1]. *)
Fixpoint after_first (c : ascii) (s : bytes) : option bytes :=
  match s with
  | [] => None
  | x :: s' => if Ascii.eqb x c then Some s' else after_first c s'
  end.

Fixpoint after_last (c : ascii) (s : bytes) : option bytes :=
  match s with
  | [] => None
  | x :: s' =>
      match after_last c s' with
      | Some r => Some r
      | None => if Ascii.eqb x c then Some s' else None
      end
  end.

Definition extract_path (line : bytes) (outsz : Z) : option bytes :=
  match after_first DQUOTE (c_str line) with
  | None => None
  | Some q1 =>
      match after_first SPACE q1 with
      | None => None
      | Some path =>
          match copy_until (fun c => Ascii.eqb c SPACE || Ascii.eqb c DQUOTE)
                  path 0 outsz [] with
          | Some (c :: w) => Some (c :: w)
          | _ => None
          end
      end
  end.

Definition digit (c : ascii) : option Z :=
  let n := Z_of_byte c in
  if (48 <=? n) && (n <=? 57) then Some (n - 48) else None.

Fixpoint digits (s : bytes) (acc : Z) : Z :=
  match s with
  | c :: s' =>
      match digit c with
      | Some d => digits s' (acc * 10 + d)
      | None => acc
      end
  | [] => acc
  end.

(** [strtol(p, &end, 10)]: [None] when nothing was converted
    ([end == p]); the value is clamped to the range of [long]. *)
Definition strtol10 (p : bytes) : option Z :=
  let s := skip_space p in
  let '(neg, s) :=
    match s with
    | c :: s' =>
        if Ascii.eqb c "-" then (true, s')
        else if Ascii.eqb c "+" then (false, s')
        else (false, s)
    | [] => (false, s)
    end in
  match s with
  | c :: _ =>
      match digit c with
      | Some _ =>
          let v := digits s 0 in
          Some (if neg : bool then Z.max (- v) LONG_MIN else Z.min v LONG_MAX)
      | None => None
      end
  | [] => None
  end.

Definition extract_status (line : bytes) : Z :=
  match after_last DQUOTE (c_str line) with
  | None => -1
  | Some p =>
      let p := skip_space p in
      match strtol10 p with
      | None => -1
      | Some val => if (val <? 0) || (val >? 999) then -1 else to_int val
      end
  end.

(** [strstr(hay, needle) != NULL]. *)
Fixpoint starts_with (needle hay : bytes) : bool :=
  match needle, hay with
  | [], _ => true
  | n :: needle', h :: hay' => Ascii.eqb n h && starts_with needle' hay'
  | _ :: _, [] => false
  end.

Fixpoint strstr (hay needle : bytes) : bool :=
  starts_with needle hay ||
  match hay with
  | [] => false
  | _ :: hay' => strstr hay' needle
  end.

Definition signatures : list bytes :=
  [lit "union%20select"; lit "union+select"; lit "union select";
   lit "' or '1'='1"; lit "%27or%271%27%3d%271"; lit "<script";
   lit "%3cscript"; lit "../"; lit "%2e%2e%2f"].

(** [is_suspicious_path]: a signature in the lower-cased first 511 bytes. *)
Definition is_suspicious_path (path : bytes) : bool :=
  let tmp := map tolower (firstn 511 (c_str path)) in
  existsb (strstr tmp) signatures.

(** *** main: the scan loop *)

(** The flags [failed] and [susp] of one line. *)
Definition failed_flag (line : bytes) : Z :=
  let status := extract_status line in
  if (status >=? 400) && (status <=? 599) then 1 else 0.

Definition susp_flag (line : bytes) : Z :=
  match extract_path line 512 with
  | Some path => if is_suspicious_path path then 1 else 0
  | None => 0
  end.

(** The body of the [fgets] loop on one line as read. *)
Definition scan_line (stats : Vec) (line : bytes) : res Vec :=
  match extract_ip line 64 with
  | None => Ret stats
  | Some ip' => add_or_update stats ip' (failed_flag line) (susp_flag line)
  end.

(** The loop over what the successive [fgets] calls return. *)
Fixpoint scan (lines : list bytes) (stats : Vec) : res Vec :=
  match lines with
  | [] => Ret stats
  | line :: lines' =>
      match scan_line stats line with
      | Ret stats' => scan lines' stats'
      | Exit c => Exit c
      | OutOfBounds => OutOfBounds
      | NoTermination => NoTermination
      end
  end.

(** [(int)a - (int)b]: [None] where the subtraction overflows [int]. *)
Definition int_sub (a b : Z) : option Z :=
  let r := to_int a - to_int b in
  if (- 2 ^ 31 <=? r) && (r <? 2 ^ 31) then Some r else None.

(** The comparator given to [qsort]. *)
Definition cmp (x y : IPStat) : option Z :=
  if negb (suspicious y =? suspicious x)
  then int_sub (suspicious y) (suspicious x)
  else if negb (failed y =? failed x) then int_sub (failed y) (failed x)
  else int_sub (total y) (total x).

(** *** What the scan loop computes, for stating it *)

(** The lines that the loop counts for the address [a]. *)
Definition hits (a : bytes) (lines : list bytes) : list bytes :=
  List.filter (fun l => bool_decide (extract_ip l 64 = Some a)) lines.

(** How many of [lines] raise the flag [f]. *)
Definition count_flag (f : bytes -> Z) (lines : list bytes) : Z :=
  Z.of_nat (length (List.filter (fun l => negb (f l =? 0)) lines)).

(** The entry [s] holds the counts of its address over [lines]. *)
Definition counts_of (lines : list bytes) (s : IPStat) : Prop :=
  total s = Z.of_nat (length (hits (ip s) lines)) /\ 0 < total s /\
  failed s = count_flag failed_flag (hits (ip s) lines) /\
  suspicious s = count_flag susp_flag (hits (ip s) lines).

(** The invariant of the scan loop after the lines [done]. *)
Definition scan_inv (done : list bytes) (v : Vec) : Prop :=
  0 <= cap v <= 2 ^ 33 /\
  (length (data v) <= length done)%nat /\
  NoDup (map ip (data v)) /\
  Forall (fun s => mem_byte NUL (ip s) = false) (data v) /\
  (forall a, hits a done <> [] -> In a (map ip (data v))) /\
  Forall (counts_of done) (data v).

End SecLog.

(** * Properties *)

(** ** C strings *)

Lemma mem_byte_single (c d : ascii) : mem_byte c [d] = Ascii.eqb c d.
Proof. unfold mem_byte. simpl. apply orb_false_r. Qed.

Lemma mem_byte_app (c : ascii) (a b : bytes) :
  mem_byte c (a ++ b) = mem_byte c a || mem_byte c b.
Proof. unfold mem_byte. apply existsb_app. Qed.

Lemma mem_byte_cons (c x : ascii) (l : bytes) :
  mem_byte c (x :: l) = Ascii.eqb c x || mem_byte c l.
Proof. reflexivity. Qed.

Lemma mem_byte_firstn (c : ascii) (n : nat) (l : bytes) :
  mem_byte c l = false -> mem_byte c (firstn n l) = false.
Proof.
  revert n. induction l as [|x l IH]; intros [|n] H; cbn [firstn];
    try reflexivity.
  rewrite mem_byte_cons in H. rewrite mem_byte_cons.
  apply orb_false_iff in H as [H1 H2].
  rewrite H1. simpl. auto.
Qed.

Lemma strlen_nul_free (s : bytes) :
  mem_byte NUL s = false -> strlen s = length s.
Proof.
  induction s as [|c s IH]; intros H; cbn [strlen length]; auto.
  rewrite mem_byte_cons in H. apply orb_false_iff in H as [H1 H2].
  rewrite Ascii.eqb_sym, H1. f_equal. auto.
Qed.

Lemma c_str_nul_free (s : bytes) : mem_byte NUL s = false -> c_str s = s.
Proof.
  intros H. unfold c_str. rewrite strlen_nul_free by assumption.
  apply firstn_all.
Qed.

Lemma c_str_no_nul (s : bytes) : mem_byte NUL (c_str s) = false.
Proof.
  unfold c_str. induction s as [|c s IH]; cbn [strlen]; auto.
  destruct (Ascii.eqb c NUL) eqn:E; cbn [firstn]; auto.
  rewrite mem_byte_cons, Ascii.eqb_sym, E. exact IH.
Qed.

Lemma c_str_app_nul (s t : bytes) :
  mem_byte NUL s = false -> c_str (s ++ NUL :: t) = s.
Proof.
  unfold c_str. induction s as [|c s IH]; intros H; cbn [strlen app].
  - reflexivity.
  - rewrite mem_byte_cons in H. apply orb_false_iff in H as [H1 H2].
    rewrite Ascii.eqb_sym, H1. cbn [firstn]. f_equal. auto.
Qed.

(** ** Tokens *)

Lemma split_on_app_sep (d : ascii) (t s : bytes) :
  mem_byte d t = false -> split_on d (t ++ d :: s) = t :: split_on d s.
Proof.
  induction t as [|c t IH]; intros H; cbn [app split_on].
  - now rewrite Ascii.eqb_refl.
  - rewrite mem_byte_cons in H. apply orb_false_iff in H as [H1 H2].
    rewrite Ascii.eqb_sym, H1. now rewrite IH.
Qed.

Lemma split_on_no_sep (d : ascii) (t : bytes) :
  mem_byte d t = false -> split_on d t = [t].
Proof.
  induction t as [|c t IH]; intros H; cbn [split_on]; auto.
  rewrite mem_byte_cons in H. apply orb_false_iff in H as [H1 H2].
  rewrite Ascii.eqb_sym, H1. now rewrite IH.
Qed.

Lemma strcspn_split (d : ascii) (s : bytes) :
  mem_byte d (firstn (strcspn s [d]) s) = false /\
  (skipn (strcspn s [d]) s = [] \/
   exists save, skipn (strcspn s [d]) s = d :: save).
Proof.
  induction s as [|c s [IH1 IH2]]; cbn [strcspn].
  - auto.
  - rewrite mem_byte_single. destruct (Ascii.eqb c d) eqn:E; cbn [firstn skipn].
    + split; auto. right. apply Ascii.eqb_eq in E. subst. eauto.
    + rewrite mem_byte_cons, Ascii.eqb_sym, E. auto.
Qed.

(** One [strtok_r] call returns the first token and leaves the cursor on
    the rest; NULL means there is no token left. *)
Lemma strtok_r_tokens (d : ascii) (s : bytes) :
  match strtok_r s [d] with
  | None => tokens d s = []
  | Some (t, save) =>
      tokens d s = t :: tokens d save /\ (length save < length s)%nat /\
      nonempty t = true /\ mem_byte d t = false
  end.
Proof.
  induction s as [|c s IH].
  - reflexivity.
  - unfold strtok_r. cbn [strspn]. rewrite mem_byte_single.
    destruct (Ascii.eqb c d) eqn:E.
    + cbn [skipn]. fold (strtok_r s [d]).
      assert (Ht : tokens d (c :: s) = tokens d s).
      { unfold tokens. simpl. now rewrite E. }
      rewrite Ht. destruct (strtok_r s [d]) as [[t save]|]; auto.
      destruct IH as (H1 & H2 & H3 & H4). repeat split; auto. simpl. lia.
    + cbn [skipn]. cbv zeta.
      destruct (strcspn_split d (c :: s)) as [Hf Hs].
      assert (Hn : nonempty (firstn (strcspn (c :: s) [d]) (c :: s)) = true).
      { cbn [strcspn]. rewrite mem_byte_single, E. reflexivity. }
      pose proof (firstn_skipn (strcspn (c :: s) [d]) (c :: s)) as Hcat.
      destruct Hs as [Hs | [save Hs]]; rewrite Hs in *.
      * rewrite app_nil_r in Hcat. rewrite Hcat in *.
        repeat split; auto; [|simpl; lia].
        unfold tokens. rewrite split_on_no_sep by assumption.
        simpl. reflexivity.
      * repeat split; auto.
        -- unfold tokens. rewrite <- Hcat at 1.
           rewrite split_on_app_sep by assumption.
           cbn [List.filter]. now rewrite Hn.
        -- apply (f_equal (@length ascii)) in Hcat.
           rewrite length_app in Hcat. simpl in *. lia.
Qed.

Lemma filter_nonempty_keep (l : list bytes) :
  List.filter (fun t => negb (is_comment t)) (List.filter nonempty l)
  = List.filter keep_line l.
Proof.
  induction l as [|x l IH]; cbn [List.filter]; auto.
  replace (keep_line x) with (nonempty x && negb (is_comment x)) by reflexivity.
  destruct (nonempty x); cbn [List.filter andb];
    [destruct (is_comment x); cbn [negb]|]; rewrite IH; reflexivity.
Qed.

Lemma split_on_mem (x d : ascii) (s : bytes) :
  mem_byte x s = false -> Forall (fun t => mem_byte x t = false) (split_on d s).
Proof.
  induction s as [|c s IH]; intros H; cbn [split_on].
  - repeat constructor.
  - rewrite mem_byte_cons in H. apply orb_false_iff in H as [H1 H2].
    specialize (IH H2). destruct (Ascii.eqb c d).
    + constructor; auto.
    + destruct (split_on d s) as [|l ls]; [repeat constructor|].
      * rewrite mem_byte_cons, H1. reflexivity.
      * inversion IH; subst. constructor; auto.
        rewrite mem_byte_cons, H1. assumption.
Qed.

Lemma map_xstrdup_nul_free (l : list bytes) :
  Forall (fun t => mem_byte NUL t = false) l -> map xstrdup l = l.
Proof.
  induction 1 as [|t l Ht _ IH]; cbn [map]; auto.
  unfold xstrdup at 1. now rewrite c_str_nul_free, IH.
Qed.

Lemma Forall_filter_keep {A} (P : A -> Prop) (f : A -> bool) (l : list A) :
  Forall P l -> Forall P (List.filter f l).
Proof.
  induction 1 as [|x l Hx _ IH]; cbn [List.filter]; auto.
  destruct (f x); auto.
Qed.

(** The loop of [parse_lines] stops within its budget and appends to [L]
    the tokens that are not comments. *)
Lemma parse_loop_tokens (fuel : nat) (cur : bytes) (L : Lines) :
  (length cur < fuel)%nat ->
  parse_loop fuel cur L
  = Some (L ++ map xstrdup
                (List.filter (fun t => negb (is_comment t)) (tokens LF cur))).
Proof.
  revert cur L. induction fuel as [|fuel IH]; intros cur L Hlen; [lia|].
  cbn [parse_loop]. pose proof (strtok_r_tokens LF cur) as Ht.
  destruct (strtok_r cur [LF]) as [[t save]|].
  - destruct Ht as (Ht & Hs & Hn & _). rewrite Ht.
    destruct t as [|c t]; [discriminate|].
    cbn [List.filter is_comment].
    destruct (Ascii.eqb c HASH); cbn [negb].
    + apply IH. lia.
    + rewrite IH by lia. unfold lines_push. cbn [map].
      now rewrite <- app_assoc.
  - rewrite Ht. cbn [List.filter map]. now rewrite app_nil_r.
Qed.

Lemma c_str_length (s : bytes) : (length (c_str s) <= length s)%nat.
Proof. unfold c_str. rewrite length_firstn. lia. Qed.

(** [parse_lines] returns, and returns the kept lines of the C string. *)
Lemma parse_lines_lines (plain : bytes) :
  parse_lines plain = Some (List.filter keep_line (split_on LF (c_str plain))).
Proof.
  unfold parse_lines. rewrite parse_loop_tokens.
  - cbn [app]. unfold tokens. rewrite filter_nonempty_keep.
    rewrite map_xstrdup_nul_free; [reflexivity|].
    apply Forall_filter_keep, split_on_mem, c_str_no_nul.
  - pose proof (c_str_length plain). lia.
Qed.

(** ** Serialize, then parse *)

Lemma serialize_rows_ok (L : Lines) :
  forallb row_ok L = true ->
  mem_byte NUL (serialize_rows L) = false /\
  split_on LF (serialize_rows L) = L ++ [[]].
Proof.
  induction L as [|r L IH]; cbn [forallb serialize_rows]; intros H.
  - split; reflexivity.
  - apply andb_true_iff in H as [Hr HL]. destruct (IH HL) as [IH1 IH2].
    unfold row_ok in Hr. apply andb_true_iff in Hr as [Hr _].
    apply andb_true_iff in Hr as [Hn Hl].
    apply negb_true_iff in Hn, Hl.
    rewrite strlen_nul_free, firstn_all by assumption. split.
    + rewrite !mem_byte_app, Hn, IH1. reflexivity.
    + cbn [app]. rewrite split_on_app_sep by assumption. now rewrite IH2.
Qed.

Lemma filter_keep_rows (L : Lines) :
  forallb row_ok L = true -> List.filter keep_line (L ++ [[]]) = L.
Proof.
  induction L as [|r L IH]; cbn [forallb app List.filter]; intros H.
  - reflexivity.
  - apply andb_true_iff in H as [Hr HL]. unfold row_ok in Hr.
    apply andb_true_iff in Hr as [_ Hk]. rewrite Hk. now rewrite IH.
Qed.

Lemma serialize_no_nul (L : Lines) :
  forallb row_ok L = true -> mem_byte NUL (serialize L) = false.
Proof.
  intros H. unfold serialize. rewrite mem_byte_app.
  destruct (serialize_rows_ok L H) as [-> _]. reflexivity.
Qed.

(** Parsing the NUL-terminated blob of [serialize] gives the rows back. *)
Lemma parse_serialize (L : Lines) (rest : bytes) :
  forallb row_ok L = true ->
  parse_lines (serialize L ++ NUL :: rest) = Some L.
Proof.
  intros H. rewrite parse_lines_lines.
  rewrite c_str_app_nul by (apply serialize_no_nul; assumption).
  unfold serialize, hdr. rewrite <- app_assoc. cbn [app].
  rewrite split_on_app_sep by reflexivity.
  destruct (serialize_rows_ok L H) as [_ ->].
  cbn [List.filter]. change (keep_line (lit "# AES_VAULT (authenticated)")) with false.
  cbv iota. f_equal. apply filter_keep_rows; assumption.
Qed.

(** ** Buffers and conversions *)

Lemma to_int_small (z : Z) : 0 <= z < 2 ^ 31 -> to_int z = z.
Proof.
  intros H. unfold to_int. rewrite Z.mod_small; lia.
Qed.

Lemma wrap_size_small (z : Z) : 0 <= z < 2 ^ 64 -> wrap_size z = z.
Proof. intros H. unfold wrap_size, SIZE_BITS. apply Z.mod_small. lia. Qed.

Lemma to_uint32_small (z : Z) : 0 <= z < 2 ^ 32 -> to_uint32 z = z.
Proof. intros H. unfold to_uint32. apply Z.mod_small. lia. Qed.

Lemma alloc_length (uninit : nat -> bytes) (n : Z) :
  length (alloc uninit n) = Z.to_nat n.
Proof.
  unfold alloc. rewrite length_app, length_firstn, repeat_length. lia.
Qed.

Lemma write_at_0 (buf data : bytes) :
  write_at buf 0 data = data ++ skipn (length data) buf.
Proof. reflexivity. Qed.

Lemma write_at_length (buf data : bytes) (off : nat) :
  (off + length data <= length buf)%nat ->
  length (write_at buf off data) = length buf.
Proof.
  intros H. unfold write_at.
  rewrite !length_app, length_firstn, length_skipn. lia.
Qed.

Lemma write_at_length_ge (buf data : bytes) (off : nat) :
  (length buf <= length (write_at buf off data))%nat.
Proof.
  unfold write_at. rewrite !length_app, length_firstn, length_skipn. lia.
Qed.

(** Two consecutive writes that fill the first [length a + length b] bytes. *)
Lemma write_at_twice (buf a b : bytes) :
  (length a + length b <= length buf)%nat ->
  write_at (write_at buf 0 a) (length a) b
  = a ++ b ++ skipn (length a + length b) buf.
Proof.
  intros H. unfold write_at at 1. rewrite write_at_0.
  rewrite firstn_app, firstn_all, Nat.sub_diag. cbn [firstn].
  rewrite app_nil_r. f_equal. f_equal.
  rewrite skipn_app.
  rewrite skipn_all2 by lia. cbn [app].
  rewrite skipn_skipn. f_equal. lia.
Qed.

Lemma write_at_end (a tl : bytes) (x : ascii) :
  length tl = 1%nat -> write_at (a ++ tl) (length a) [x] = a ++ [x].
Proof.
  intros H. unfold write_at.
  rewrite firstn_app, firstn_all, Nat.sub_diag. cbn [firstn length].
  rewrite app_nil_r, skipn_all2 by (rewrite length_app; lia).
  reflexivity.
Qed.

(** ** Sealing and opening through crypto.c *)

Section CryptoFacts.
Context {ssl : OpenSSL}.
Hypothesis gcm : gcm_contract ssl.

(** With OpenSSL meeting its contract, [aes256gcm_encrypt] fills [ct] and
    [tag] and [aes256gcm_decrypt] of them fills [out_pt] with the
    plaintext. *)
Lemma aes256gcm_roundtrip (key nonce pt ct0 tag0 out0 : bytes) :
  length key = 32%nat -> length nonce = 12%nat ->
  Z.of_nat (length pt) < 2 ^ 31 ->
  length ct0 = length pt ->
  length tag0 = 16%nat ->
  length out0 = S (length pt) ->
  exists ct tag x,
    aes256gcm_encrypt key nonce NONCE_LEN pt (Z.of_nat (length pt))
      None 0 ct0 tag0 TAG_LEN = (0, (ct, tag)) /\
    length ct = length pt /\ length tag = 16%nat /\
    aes256gcm_decrypt key nonce NONCE_LEN ct (Z.of_nat (length pt))
      None 0 tag TAG_LEN out0 = (0, pt ++ [x]).
Proof.
  intros Hkey Hnonce Hlt Hct Htag Hout.
  destruct (gcm key nonce pt Hkey Hnonce Hlt)
    as (c0 & c1 & c2 & c3 & c4 & c5 & o1 & o2 & t & E0 & E1 & E2 & E3 & E4
        & E5 & E6 & Hlen & Ht & d1 & d2 & d3 & d4 & d5 & d6 & p1 & p2
        & D1 & D2 & D3 & D4 & D5 & D6 & Hp).
  rewrite length_app in Hlen.
  assert (Hct' : write_at (write_at ct0 0 o1) (length o1) o2 = o1 ++ o2).
  { rewrite write_at_twice by lia. rewrite skipn_all2 by lia.
    now rewrite app_nil_r. }
  assert (Htag' : write_at tag0 0 t = t).
  { rewrite write_at_0, skipn_all2 by lia. apply app_nil_r. }
  assert (Hplen : (length p1 + length p2 = length pt)%nat).
  { rewrite <- Hp, length_app. reflexivity. }
  destruct (skipn (length pt) out0) as [|x tl] eqn:Etl.
  { apply (f_equal (@length ascii)) in Etl. rewrite length_skipn in Etl.
    simpl in Etl. lia. }
  assert (tl = []).
  { apply (f_equal (@length ascii)) in Etl. rewrite length_skipn in Etl.
    simpl in Etl. destruct tl; [reflexivity | simpl in Etl; lia]. }
  subst tl.
  exists (o1 ++ o2), t, x. repeat split.
  - unfold aes256gcm_encrypt.
    change (to_int NONCE_LEN) with 12. change (to_int TAG_LEN) with 16.
    rewrite to_int_small by lia.
    rewrite E0, E1, E2, E3, E4, E5, E6, Hct', Htag'. reflexivity.
  - rewrite length_app. lia.
  - assumption.
  - unfold aes256gcm_decrypt.
    change (to_int NONCE_LEN) with 12. change (to_int TAG_LEN) with 16.
    rewrite to_int_small by lia.
    rewrite E0, D1, D2, D3, D4, D5, D6.
    rewrite write_at_twice by lia.
    rewrite Hplen, Etl, app_assoc, Hp. reflexivity.
Qed.

End CryptoFacts.

(** ** The executable instance meets the contracts *)

Module ToyFacts.
Import Toy.

Lemma xor_byte_involutive (k a : ascii) : xor_byte k (xor_byte k a) = a.
Proof.
  destruct k, a. cbn [xor_byte].
  rewrite <- !xorb_assoc, !xorb_nilpotent, !xorb_false_l. reflexivity.
Qed.

Lemma map_xor_involutive (k : ascii) (l : bytes) :
  map (xor_byte k) (map (xor_byte k) l) = l.
Proof.
  induction l as [|a l IH]; cbn [map]; [reflexivity|].
  now rewrite xor_byte_involutive, IH.
Qed.

Lemma in_range (n : nat) : (0 <=? Z.of_nat n) && (Z.of_nat n <=? Z.of_nat n) = true.
Proof. apply andb_true_iff. split; apply Z.leb_le; lia. Qed.

Lemma gcm_ok : gcm_contract ssl.
Proof.
  intros key nonce pt _ _ Hlt.
  set (o := map (xor_byte (checksum (key ++ nonce))) pt).
  assert (Ho : length o = length pt) by apply length_map.
  exists (mkCtx [] [] [] []), (mkCtx [] [] [] []), (mkCtx [] [] [] []),
    (mkCtx key nonce [] []), (mkCtx key nonce o []), (mkCtx key nonce o []),
    o, [], (mac (mkCtx key nonce o []) 16).
  repeat split.
  - cbn. unfold enc_update. cbn [c_key c_iv c_data c_tag pad].
    rewrite in_range, Nat2Z.id, firstn_all. reflexivity.
  - rewrite app_nil_r. assumption.
  - exists (mkCtx [] [] [] []), (mkCtx [] [] [] []), (mkCtx key nonce [] []),
      (mkCtx key nonce o []),
      (mkCtx key nonce o (mac (mkCtx key nonce o []) 16)),
      (mkCtx key nonce o (mac (mkCtx key nonce o []) 16)),
      pt, [].
    repeat split.
    + cbn. unfold dec_update. cbn [c_key c_iv c_data c_tag pad].
      rewrite app_nil_r, <- Ho, in_range, Nat2Z.id, firstn_all.
      unfold o. rewrite map_xor_involutive. reflexivity.
    + cbn. unfold dec_final. cbn [c_tag].
      rewrite bool_decide_eq_true_2; reflexivity.
    + apply app_nil_r.
Qed.

Lemma kdf_ok : kdf_contract ssl.
Proof.
  intros pw salt iters _ Hpw Hit. cbn. unfold pbkdf2.
  destruct (0 <? iters) eqn:E; [|apply Z.ltb_ge in E; lia].
  eexists. split; [reflexivity|].
  rewrite length_firstn, !length_app, repeat_length. lia.
Qed.

Lemma rand_ok : rand_contract ssl.
Proof.
  intros g n Hn. cbn. unfold rand_bytes.
  destruct (0 <=? n) eqn:E; [|apply Z.leb_gt in E; lia].
  eexists _, _. split; [reflexivity|]. apply repeat_length.
Qed.

End ToyFacts.

(** ** Records and their rows *)

Lemma fields_ok_split (svc usr pwd : bytes) :
  fields_have_delims svc usr pwd = false ->
  mem_byte LF (c_str svc) = false /\ mem_byte LF (c_str usr) = false /\
  mem_byte LF (c_str pwd) = false.
Proof.
  unfold fields_have_delims, strchr. intros H.
  repeat (apply orb_false_iff in H as [H ?]). auto.
Qed.

Lemma row_of_ok (r : record) : record_ok r = true -> row_ok (row_of r) = true.
Proof.
  destruct r as [[svc usr] pwd]. unfold record_ok, row_of, snprintf_row.
  intros H. apply andb_true_iff in H as [Hd Hc].
  apply negb_true_iff in Hd, Hc.
  destruct (fields_ok_split _ _ _ Hd) as (L1 & L2 & L3).
  unfold row_ok. rewrite !andb_true_iff, !negb_true_iff. repeat split.
  - apply mem_byte_firstn. rewrite !mem_byte_app, !c_str_no_nul. reflexivity.
  - apply mem_byte_firstn. rewrite !mem_byte_app, L1, L2, L3. reflexivity.
  - change (Z.to_nat (MAX_LINE - 1)) with (S 1022).
    destruct (c_str svc) as [|c s']; cbn [app firstn]; [reflexivity|].
    unfold keep_line. cbn [nonempty is_comment andb] in *. now rewrite Hc.
Qed.

Lemma record_row_ok (r : record) :
  record_ok r = true -> row_ok (record_row r) = true.
Proof.
  destruct r as [[svc usr] pwd]. unfold record_ok, record_row.
  intros H. apply andb_true_iff in H as [Hd Hc].
  apply negb_true_iff in Hd, Hc.
  destruct (fields_ok_split _ _ _ Hd) as (L1 & L2 & L3).
  unfold row_ok. rewrite !andb_true_iff, !negb_true_iff. repeat split.
  - rewrite !mem_byte_app, !c_str_no_nul. reflexivity.
  - rewrite !mem_byte_app, L1, L2, L3. reflexivity.
  - destruct (c_str svc) as [|c s']; cbn [app]; [reflexivity|].
    unfold keep_line. cbn [nonempty is_comment andb] in *. now rewrite Hc.
Qed.

Lemma record_rows_ok (R : list record) :
  forallb record_ok R = true -> forallb row_ok (map record_row R) = true.
Proof.
  induction R as [|r R IH]; cbn [forallb map]; intros H; auto.
  apply andb_true_iff in H as [H1 H2]. rewrite record_row_ok by assumption.
  apply IH. assumption.
Qed.

(** A row splits at its tabs into the three fields of its record. *)
Lemma record_row_fields (r : record) :
  record_ok r = true -> split_on TAB (record_row r) = record_fields r.
Proof.
  destruct r as [[svc usr] pwd]. unfold record_ok, record_row, record_fields.
  intros H. apply andb_true_iff in H as [Hd _]. apply negb_true_iff in Hd.
  unfold fields_have_delims, strchr in Hd.
  repeat (apply orb_false_iff in Hd as [Hd ?]).
  cbn [app].
  rewrite split_on_app_sep, split_on_app_sep, split_on_no_sep by assumption.
  reflexivity.
Qed.

Lemma record_rows_fields (R : list record) :
  forallb record_ok R = true ->
  map (split_on TAB) (map record_row R) = map record_fields R.
Proof.
  induction R as [|r R IH]; cbn [forallb map]; intros H; auto.
  apply andb_true_iff in H as [H1 H2].
  rewrite record_row_fields, IH by assumption. reflexivity.
Qed.

(** ** C1: the round trip *)

(** A record whose service begins with the comment marker has fields free
    of tabs and newlines, yet is lost by the round trip. *)
Lemma roundtrip_loses_hash_service :
  let R := [(lit "#work", lit "bob", lit "pw")] in
  let key := repeat "k"%char 32 in
  let nonce := repeat "n"%char 12 in
  let plain := serialize (map record_row R) in
  let plen := Z.of_nat (length plain) in
  let '(rc, (ct, tag)) :=
    @aes256gcm_encrypt Toy.ssl key nonce NONCE_LEN plain plen None 0
      (alloc Toy.uninit plen) (alloc Toy.uninit TAG_LEN) TAG_LEN in
  let '(rc', plain') :=
    @aes256gcm_decrypt Toy.ssl key nonce NONCE_LEN ct plen None 0 tag TAG_LEN
      (alloc Toy.uninit (plen + 1)) in
  forallb (fun '(s, u, p) => negb (fields_have_delims s u p)) R = true /\
  rc = 0 /\ rc' = 0 /\
  parse_lines (write_at plain' (Z.to_nat plen) [NUL]) = Some [] /\
  parse_lines (write_at plain' (Z.to_nat plen) [NUL])
    <> Some (map record_row R).
Proof. vm_compute. repeat split; discriminate. Qed.

(** C1, as the code has it. For every record sequence whose fields contain
    no tab or newline and whose service does not begin with the comment
    marker, and whose blob is shorter than 2^31 bytes: serializing the
    rows of the records, each the three fields joined by tabs with nothing
    cut, encrypting, decrypting under the same key and nonce and parsing
    gives exactly those rows back, in order, and every row splits at its
    tabs into exactly the three fields of its record, provided OpenSSL
    meets its contract. *)
Theorem roundtrip_records {ssl : OpenSSL} (uninit : nat -> bytes)
    (gcm : gcm_contract ssl) (R : list record) (key nonce : bytes) :
  length key = 32%nat -> length nonce = 12%nat ->
  forallb record_ok R = true ->
  Z.of_nat (length (serialize (map record_row R))) < 2 ^ 31 ->
  let rows := map record_row R in
  let plain := serialize rows in
  let plen := Z.of_nat (length plain) in
  exists ct tag plain',
    aes256gcm_encrypt key nonce NONCE_LEN plain plen None 0
      (alloc uninit plen) (alloc uninit TAG_LEN) TAG_LEN = (0, (ct, tag)) /\
    aes256gcm_decrypt key nonce NONCE_LEN ct plen None 0 tag TAG_LEN
      (alloc uninit (plen + 1)) = (0, plain') /\
    parse_lines (write_at plain' (Z.to_nat plen) [NUL]) = Some rows /\
    map (split_on TAB) rows = map record_fields R.
Proof.
  intros Hkey Hnonce Hok Hlt rows plain plen.
  destruct (aes256gcm_roundtrip gcm key nonce plain
              (alloc uninit plen) (alloc uninit TAG_LEN) (alloc uninit (plen + 1)))
    as (ct & tag & x & He & Hc & Ht & Hd).
  - exact Hkey.
  - exact Hnonce.
  - exact Hlt.
  - rewrite alloc_length. unfold plen. apply Nat2Z.id.
  - apply alloc_length.
  - rewrite alloc_length. unfold plen. lia.
  - exists ct, tag, (plain ++ [x]). repeat split; try assumption.
    + unfold plen. rewrite Nat2Z.id, write_at_end by reflexivity.
      apply (parse_serialize rows []), record_rows_ok, Hok.
    + apply record_rows_fields, Hok.
Qed.

Lemma roundtrip_records_witness :
  let R := [(lit "github", lit "alice", lit "hunter2");
            (lit "mail", lit "bob", lit "s3cret")] in
  let key := repeat "k"%char 32 in
  let nonce := repeat "n"%char 12 in
  let rows := map record_row R in
  let plain := serialize rows in
  let plen := Z.of_nat (length plain) in
  exists ct tag plain',
    @aes256gcm_encrypt Toy.ssl key nonce NONCE_LEN plain plen None 0
      (alloc Toy.uninit plen) (alloc Toy.uninit TAG_LEN) TAG_LEN = (0, (ct, tag)) /\
    @aes256gcm_decrypt Toy.ssl key nonce NONCE_LEN ct plen None 0 tag TAG_LEN
      (alloc Toy.uninit (plen + 1)) = (0, plain') /\
    parse_lines (write_at plain' (Z.to_nat plen) [NUL]) = Some rows /\
    map (split_on TAB) rows = map record_fields R.
Proof.
  apply (roundtrip_records Toy.uninit ToyFacts.gcm_ok
           [(lit "github", lit "alice", lit "hunter2");
            (lit "mail", lit "bob", lit "s3cret")]).
  - reflexivity.
  - reflexivity.
  - vm_compute. reflexivity.
  - vm_compute. reflexivity.
Defined.

(** ** Commands that refuse before touching anything *)

Lemma mem_byte_In (c : ascii) (l : bytes) : mem_byte c l = true <-> In c l.
Proof.
  unfold mem_byte. rewrite existsb_exists. split.
  - intros (x & Hx & E). apply Ascii.eqb_eq in E. now subst.
  - intros H. exists c. split; [assumption | apply Ascii.eqb_refl].
Qed.

(** The check of [cmd_add] fires exactly when some field holds a tab or a
    newline. *)
Lemma fields_have_delims_iff (svc usr pwd : bytes) :
  fields_have_delims svc usr pwd = true <->
  Exists (fun f => In TAB (c_str f) \/ In LF (c_str f)) [svc; usr; pwd].
Proof.
  unfold fields_have_delims, strchr. fold (mem_byte TAB (c_str svc)).
  fold (mem_byte TAB (c_str usr)). fold (mem_byte TAB (c_str pwd)).
  fold (mem_byte LF (c_str svc)). fold (mem_byte LF (c_str usr)).
  fold (mem_byte LF (c_str pwd)).
  rewrite !orb_true_iff, !mem_byte_In, !Exists_cons, Exists_nil. tauto.
Qed.

(** C7. Whenever the container file exists, [cmd_init] returns 1 having
    only reported its refusal: no file, prompt or generator is touched. *)
Theorem init_never_overwrites {ssl : OpenSSL} (host : endianness)
    (uninit : nat -> bytes) (w : World) (old : bytes) :
  fs w !! VAULT_FILE = Some old ->
  cmd_init host uninit w = (Ret 1, eprint Msg_refusing_to_overwrite w) /\
  fs (snd (cmd_init host uninit w)) = fs w.
Proof.
  intros H. assert (E : cmd_init host uninit w
                        = (Ret 1, eprint Msg_refusing_to_overwrite w)).
  { unfold cmd_init, bind, file_exists. rewrite H.
    rewrite bool_decide_eq_true_2 by eauto. reflexivity. }
  rewrite E. split; reflexivity.
Qed.

Lemma init_never_overwrites_witness :
  let w := Toy.start {[ VAULT_FILE := lit "old contents" ]}
             [Some (lit "pw"); Some (lit "pw")] No_fault in
  cmd_init LittleEndian Toy.uninit w
    = (Ret 1, eprint Msg_refusing_to_overwrite w) /\
  fs (snd (cmd_init LittleEndian Toy.uninit w)) = fs w.
Proof.
  apply (init_never_overwrites LittleEndian Toy.uninit
           (Toy.start {[ VAULT_FILE := lit "old contents" ]}
              [Some (lit "pw"); Some (lit "pw")] No_fault)
           (lit "old contents")).
  reflexivity.
Defined.

(** C9. Whenever one of the three fields of [add] holds a tab or a newline,
    [cmd_add] returns 1 having only reported it: the file system, and so
    the container, is the one it started with. *)
Theorem add_rejects_delimiters {ssl : OpenSSL} (host : endianness)
    (uninit : nat -> bytes) (svc usr pwd : bytes) (w : World) :
  Exists (fun f => In TAB (c_str f) \/ In LF (c_str f)) [svc; usr; pwd] ->
  cmd_add host uninit (Some svc) (Some usr) (Some pwd) w
    = (Ret 1, eprint Msg_tabs_newlines_not_allowed w) /\
  fs (snd (cmd_add host uninit (Some svc) (Some usr) (Some pwd) w)) = fs w.
Proof.
  intros H. apply fields_have_delims_iff in H.
  assert (E : cmd_add host uninit (Some svc) (Some usr) (Some pwd) w
              = (Ret 1, eprint Msg_tabs_newlines_not_allowed w)).
  { unfold cmd_add. unfold fields_have_delims in H. rewrite H. reflexivity. }
  rewrite E. split; reflexivity.
Qed.

Lemma add_rejects_delimiters_witness :
  let w := Toy.start {[ VAULT_FILE := lit "container" ]}
             [Some (lit "Secret1")] No_fault in
  let usr := lit "al" ++ [TAB] ++ lit "ice" in
  cmd_add LittleEndian Toy.uninit (Some (lit "github")) (Some usr)
      (Some (lit "hunter2")) w
    = (Ret 1, eprint Msg_tabs_newlines_not_allowed w) /\
  fs (snd (cmd_add LittleEndian Toy.uninit (Some (lit "github")) (Some usr)
             (Some (lit "hunter2")) w)) = fs w.
Proof.
  apply (add_rejects_delimiters LittleEndian Toy.uninit (lit "github")
           (lit "al" ++ [TAB] ++ lit "ice") (lit "hunter2")).
  apply Exists_cons_tl, Exists_cons_hd. left. vm_compute. tauto.
Defined.

(** ** The atomic save *)

Section SaveFacts.
Context {ssl : OpenSSL}.
Variable host : endianness.
Variable uninit : nat -> bytes.

(** What [write_all_atomic] leaves behind, fault by fault. *)
Lemma write_all_atomic_vault (data : bytes) (n : Z) (w : World) :
  let payload := firstn (Z.to_nat n) data in
  let tmp := tmp_path VAULT_FILE in
  write_all_atomic VAULT_FILE data n w =
  match fault w with
  | No_fault =>
      (Ret tt, set_fs (<[VAULT_FILE := payload]>
                         (delete tmp (<[tmp := payload]> (<[tmp := []]> (fs w))))) w)
  | Fopen_fails => (Exit 1, eprint (Msg_perror "fopen tmp") w)
  | Fwrite_fails k =>
      (Exit 1, eprint (Msg_perror "fwrite")
                 (set_fs (<[tmp := firstn k payload]> (<[tmp := []]> (fs w))) w))
  | Fclose_fails k =>
      (Exit 1, eprint (Msg_perror "fclose")
                 (set_fs (<[tmp := firstn k payload]>
                            (<[tmp := payload]> (<[tmp := []]> (fs w)))) w))
  | Rename_fails =>
      (Exit 1, eprint (Msg_perror "rename")
                 (set_fs (<[tmp := payload]> (<[tmp := []]> (fs w))) w))
  end.
Proof.
  intros payload tmp.
  unfold write_all_atomic, bind, fopen_wb, fwrite, fclose, rename, die,
    fail_exit, ret.
  fold tmp. destruct (fault w) eqn:E; cbn [negb fault set_fs fs];
    rewrite ?E; cbn [negb fault set_fs fs]; rewrite ?E;
    cbn [negb fault set_fs fs]; rewrite ?E; try reflexivity.
  - rewrite lookup_insert_eq. cbn [negb]. reflexivity.
  - rewrite lookup_insert_eq. cbn [default]. reflexivity.
Qed.

(** Apart from the temporary file, a failed write changes no file; a
    completed one installs exactly the payload. *)
Lemma write_all_atomic_files (data : bytes) (n : Z) (w : World) :
  let '(r, w') := write_all_atomic VAULT_FILE data n w in
  (r = Ret tt /\ fault w = No_fault /\
   fs w' !! VAULT_FILE = Some (firstn (Z.to_nat n) data)) \/
  (r = Exit 1 /\ fault w <> No_fault /\
   forall p, p <> tmp_path VAULT_FILE -> fs w' !! p = fs w !! p).
Proof.
  rewrite write_all_atomic_vault.
  destruct (fault w) eqn:E; cbv beta iota; [left | right ..];
    cbn [fs set_fs eprint].
  - repeat split. apply lookup_insert_eq.
  - repeat split; discriminate.
  - repeat split; try discriminate. intros p Hp.
    now rewrite !lookup_insert_ne by congruence.
  - repeat split; try discriminate. intros p Hp.
    now rewrite !lookup_insert_ne by congruence.
  - repeat split; try discriminate. intros p Hp.
    now rewrite !lookup_insert_ne by congruence.
Qed.

Lemma crypto_rand_length (buf : bytes) (len : Z) (g : RAND_STATE) :
  (length buf <= length (snd (fst (crypto_rand buf len g))))%nat.
Proof.
  unfold crypto_rand. destruct (RAND_bytes g (to_int len)) as [[r|] g'];
    cbn [fst snd]; [apply write_at_length_ge | lia].
Qed.

Lemma aes256gcm_encrypt_buffers (key nonce pt : bytes) (nonce_len pt_len : Z)
    (aad : option bytes) (aad_len : Z) (ct0 tag0 : bytes) (tag_len : Z) :
  let r := aes256gcm_encrypt key nonce nonce_len pt pt_len aad aad_len
             ct0 tag0 tag_len in
  (length ct0 <= length (fst (snd r)))%nat /\
  (length tag0 <= length (snd (snd r)))%nat.
Proof.
  unfold aes256gcm_encrypt.
  repeat match goal with
  | |- context [match ?x with _ => _ end] => destruct x
  end; cbn [fst snd]; split; try lia;
    repeat match goal with
    | |- context [write_at ?b ?o ?d] =>
        lazymatch goal with
        | _ : (length b <= length (write_at b o d))%nat |- _ => fail
        | _ => pose proof (write_at_length_ge b d o)
        end
    end; lia.
Qed.

Lemma memcpy_length (src : bytes) (n : Z) :
  (Z.to_nat n <= length src)%nat -> length (memcpy src n) = Z.to_nat n.
Proof. intros H. unfold memcpy. rewrite length_firstn. lia. Qed.

Lemma store32_length (v : Z) : length (store32 host v) = 4%nat.
Proof. destruct host; reflexivity. Qed.

(** The assembled file is 58 bytes longer than its ciphertext. *)
Lemma assemble_length (salt nonce ct tag : bytes) (iters ct_len : Z) :
  (16 <= length salt)%nat -> (12 <= length nonce)%nat ->
  (Z.to_nat ct_len <= length ct)%nat -> (16 <= length tag)%nat ->
  length (assemble host salt nonce ct tag iters ct_len)
  = (58 + Z.to_nat ct_len)%nat.
Proof.
  intros Hs Hn Hc Ht. unfold assemble.
  rewrite !length_app, !memcpy_length;
    rewrite ?store32_length; try assumption;
    change (Z.to_nat MAGIC_LEN) with 6%nat;
    change (Z.to_nat SALT_LEN) with 16%nat;
    change (Z.to_nat NONCE_LEN) with 12%nat;
    change (Z.to_nat TAG_LEN) with 16%nat;
    change (Z.to_nat 4) with 4%nat;
    change (length (MAGIC ++ [NUL])) with 7%nat; lia.
Qed.

(** A save either completes, and the container is the assembled file,
    or stops with status 1, and no file but the temporary one differs. *)
Lemma save_vault_cases (L : Lines) (password : bytes) (w : World) :
  let '(r, w') := save_vault host uninit L password w in
  (r = Ret tt /\ fault w = No_fault /\
   exists salt nonce ct tag,
     let ct_len := to_uint32 (wrap_size (Z.of_nat (length (serialize L)))) in
     (16 <= length salt)%nat /\ (12 <= length nonce)%nat /\
     (Z.to_nat ct_len <= length ct)%nat /\ (16 <= length tag)%nat /\
     fs w' !! VAULT_FILE
     = Some (assemble host salt nonce ct tag (to_uint32 PBKDF2_ITERS) ct_len)) \/
  (r = Exit 1 /\
   forall p, p <> tmp_path VAULT_FILE -> fs w' !! p = fs w !! p).
Proof.
  unfold save_vault, bind, rand.
  pose proof (crypto_rand_length (alloc uninit SALT_LEN) SALT_LEN (rng w)) as Hs.
  destruct (crypto_rand (alloc uninit SALT_LEN) SALT_LEN (rng w))
    as [[rc1 salt] g1].
  destruct (rc1 =? 0); cbn [negb]; [|right; split; reflexivity].
  cbn [rng set_rng].
  pose proof (crypto_rand_length (alloc uninit NONCE_LEN) NONCE_LEN g1) as Hn.
  destruct (crypto_rand (alloc uninit NONCE_LEN) NONCE_LEN g1)
    as [[rc2 nonce] g2].
  destruct (rc2 =? 0); cbn [negb]; [|right; split; reflexivity].
  destruct (kdf_pbkdf2_sha256 _ _ _ _ _ _) as [rc3 key].
  destruct (rc3 =? 0); cbn [negb]; [|right; split; reflexivity].
  match goal with
  | |- context [aes256gcm_encrypt ?k ?n ?nl ?p ?pl ?a ?al ?c ?t ?tl] =>
      pose proof (aes256gcm_encrypt_buffers k n p nl pl a al c t tl) as Hb;
      destruct (aes256gcm_encrypt k n nl p pl a al c t tl) as [rc4 [ct tag]]
  end.
  destruct (rc4 =? 0); cbn [negb]; [|right; split; reflexivity].
  cbn [fst snd] in Hs, Hn, Hb. rewrite alloc_length in Hs, Hn.
  rewrite !alloc_length in Hb. destruct Hb as [Hc Ht].
  set (plen := wrap_size (Z.of_nat (length (serialize L)))) in *.
  assert (Hplen : 0 <= plen < 2 ^ 64).
  { unfold plen, wrap_size, SIZE_BITS. apply Z.mod_pos_bound. lia. }
  assert (Hu : 0 <= to_uint32 plen < 2 ^ 32).
  { unfold to_uint32. apply Z.mod_pos_bound. lia. }
  assert (Hule : to_uint32 plen <= plen).
  { unfold to_uint32. apply Z.mod_le; lia. }
  match goal with
  | |- context [write_all_atomic ?p ?d ?n ?w0] =>
      pose proof (write_all_atomic_files d n w0) as Hw;
      destruct (write_all_atomic p d n w0) as [r w']
  end.
  destruct Hw as [(-> & Hf & Hnew) | (-> & _ & Hold)].
  - left. cbn. repeat split; [exact Hf|]. exists salt, nonce, ct, tag.
    cbv zeta. change (Z.to_nat SALT_LEN) with 16%nat in Hs.
    change (Z.to_nat NONCE_LEN) with 12%nat in Hn.
    change (Z.to_nat TAG_LEN) with 16%nat in Ht.
    repeat split; try lia.
    rewrite Hnew. f_equal. apply firstn_all2.
    rewrite assemble_length by lia.
    rewrite wrap_size_small; unfold MAGIC_LEN, SALT_LEN, NONCE_LEN, TAG_LEN; lia.
  - right. split; [reflexivity|]. exact Hold.
Qed.

End SaveFacts.

(** ** Bytes of a 32-bit field *)

Lemma Z_of_byte_of_Z (z : Z) : Z_of_byte (byte_of_Z z) = z mod 256.
Proof.
  unfold Z_of_byte, byte_of_Z.
  pose proof (Z.mod_pos_bound z 256 ltac:(lia)).
  rewrite N_ascii_embedding by lia. lia.
Qed.

Lemma Z_of_byte_range (c : ascii) : 0 <= Z_of_byte c < 256.
Proof. unfold Z_of_byte. pose proof (N_ascii_bounded c). lia. Qed.

Lemma le32_decode_le32 (v : Z) : le32_decode (le32 v) = to_uint32 v.
Proof.
  unfold le32_decode, le32, to_uint32. rewrite !Z_of_byte_of_Z.
  rewrite !Z.shiftr_div_pow2, !Z.shiftl_mul_pow2 by lia.
  change (2 ^ 8) with 256. change (2 ^ 16) with (256 * 256).
  change (2 ^ 24) with (256 * (256 * 256)).
  change (2 ^ 32) with (256 * (256 * (256 * 256))).
  rewrite <- !Z.div_div by lia.
  rewrite !(Z.rem_mul_r _ 256) by lia. lia.
Qed.

(** What the host stores, the same host loads. *)
Lemma load32_store32 (host : endianness) (v : Z) :
  load32 host (store32 host v) = to_uint32 v.
Proof.
  destruct host; unfold load32, store32; rewrite ?rev_involutive;
    apply le32_decode_le32.
Qed.

Lemma le32_decode_range (b : bytes) : 0 <= le32_decode b < 2 ^ 32.
Proof.
  unfold le32_decode.
  destruct b as [|b0 [|b1 [|b2 [|b3 [|]]]]]; try (cbn; lia).
  pose proof (Z_of_byte_range b0). pose proof (Z_of_byte_range b1).
  pose proof (Z_of_byte_range b2). pose proof (Z_of_byte_range b3).
  rewrite !Z.shiftl_mul_pow2 by lia.
  change (2 ^ 8) with 256. change (2 ^ 16) with 65536.
  change (2 ^ 24) with 16777216. change (2 ^ 32) with 4294967296. lia.
Qed.

Lemma load32_range (host : endianness) (b : bytes) : 0 <= load32 host b < 2 ^ 32.
Proof. destruct host; apply le32_decode_range. Qed.

(** ** Slices of an assembled file *)

Lemma slice_some (buf : bytes) (off n : Z) :
  0 <= off -> 0 <= n -> off + n <= Z.of_nat (length buf) ->
  slice buf off n = Some (firstn (Z.to_nat n) (skipn (Z.to_nat off) buf)).
Proof.
  intros H1 H2 H3. unfold slice.
  destruct (Z.leb_spec 0 off); [|lia]. destruct (Z.leb_spec 0 n); [|lia].
  destruct (Z.leb_spec (off + n) (Z.of_nat (length buf))); [|lia].
  reflexivity.
Qed.

Lemma slice_none (buf : bytes) (off n : Z) :
  slice buf off n = None ->
  off < 0 \/ n < 0 \/ Z.of_nat (length buf) < off + n.
Proof.
  unfold slice.
  destruct (Z.leb_spec 0 off); [|lia]. destruct (Z.leb_spec 0 n); [|lia].
  destruct (Z.leb_spec (off + n) (Z.of_nat (length buf))); [|lia].
  discriminate.
Qed.

Lemma slice_app_r (a b : bytes) (off off' n : Z) :
  off = Z.of_nat (length a) + off' -> 0 <= off' ->
  slice (a ++ b) off n = slice b off' n.
Proof.
  intros -> H. unfold slice. rewrite length_app, Nat2Z.inj_add.
  replace (0 <=? Z.of_nat (length a) + off') with (0 <=? off')
    by (destruct (Z.leb_spec 0 off'), (Z.leb_spec 0 (Z.of_nat (length a) + off')); lia).
  replace (Z.of_nat (length a) + off' + n <=? Z.of_nat (length a) + Z.of_nat (length b))
    with (off' + n <=? Z.of_nat (length b))
    by (destruct (Z.leb_spec (off' + n) (Z.of_nat (length b))),
          (Z.leb_spec (Z.of_nat (length a) + off' + n)
             (Z.of_nat (length a) + Z.of_nat (length b))); lia).
  rewrite skipn_app, skipn_all2 by lia. cbn [app].
  replace (Z.to_nat (Z.of_nat (length a) + off') - length a)%nat
    with (Z.to_nat off') by lia.
  reflexivity.
Qed.

Lemma slice_app_l (a b : bytes) (n : Z) :
  n = Z.of_nat (length a) -> slice (a ++ b) 0 n = Some a.
Proof.
  intros ->. rewrite slice_some; rewrite ?length_app; try lia.
  change (Z.to_nat 0) with 0%nat. rewrite skipn_O.
  rewrite Nat2Z.id, firstn_app, firstn_all, Nat.sub_diag.
  cbn [firstn]. now rewrite app_nil_r.
Qed.

Section Layout.
Variable host : endianness.
Variables salt nonce ct tag : bytes.
Variables iters ct_len : Z.
Hypothesis Hsalt : (16 <= length salt)%nat.
Hypothesis Hnonce : (12 <= length nonce)%nat.
Hypothesis Hct : (Z.to_nat ct_len <= length ct)%nat.
Hypothesis Htag : (16 <= length tag)%nat.
Hypothesis Hlen : 0 <= ct_len.

Let file := assemble host salt nonce ct tag iters ct_len.

(** Where each field of the layout lies in the assembled file. *)
Lemma assemble_fields :
  slice file 0 6 = Some MAGIC /\
  slice file 6 4 = Some (store32 host iters) /\
  slice file 10 16 = Some (firstn 16 salt) /\
  slice file 26 12 = Some (firstn 12 nonce) /\
  slice file 38 4 = Some (store32 host ct_len) /\
  slice file 42 ct_len = Some (firstn (Z.to_nat ct_len) ct) /\
  slice file (42 + ct_len) 16 = Some (firstn 16 tag).
Proof.
  unfold file, assemble.
  assert (L0 : length (memcpy (MAGIC ++ [NUL]) MAGIC_LEN) = 6%nat) by reflexivity.
  assert (L1 : forall v, length (memcpy (store32 host v) 4) = 4%nat)
    by (intros v; destruct host; reflexivity).
  assert (L2 : length (memcpy salt SALT_LEN) = 16%nat)
    by (rewrite memcpy_length; [reflexivity | exact Hsalt]).
  assert (L3 : length (memcpy nonce NONCE_LEN) = 12%nat)
    by (rewrite memcpy_length; [reflexivity | exact Hnonce]).
  assert (L5 : length (memcpy ct ct_len) = Z.to_nat ct_len)
    by (apply memcpy_length; exact Hct).
  assert (L6 : length (memcpy tag TAG_LEN) = 16%nat)
    by (rewrite memcpy_length; [reflexivity | exact Htag]).
  assert (S1 : forall v, memcpy (store32 host v) 4 = store32 host v)
    by (intros v; destruct host; reflexivity).
  repeat split.
  - rewrite slice_app_l; [reflexivity | rewrite L0; reflexivity].
  - rewrite (slice_app_r _ _ 6 0) by (rewrite ?L0; lia).
    rewrite slice_app_l by (rewrite L1; reflexivity). now rewrite S1.
  - rewrite (slice_app_r _ _ 10 4) by (rewrite ?L0; lia).
    rewrite (slice_app_r _ _ 4 0) by (rewrite ?L1; lia).
    rewrite slice_app_l by (rewrite L2; reflexivity). reflexivity.
  - rewrite (slice_app_r _ _ 26 20) by (rewrite ?L0; lia).
    rewrite (slice_app_r _ _ 20 16) by (rewrite ?L1; lia).
    rewrite (slice_app_r _ _ 16 0) by (rewrite ?L2; lia).
    rewrite slice_app_l by (rewrite L3; reflexivity). reflexivity.
  - rewrite (slice_app_r _ _ 38 32) by (rewrite ?L0; lia).
    rewrite (slice_app_r _ _ 32 28) by (rewrite ?L1; lia).
    rewrite (slice_app_r _ _ 28 12) by (rewrite ?L2; lia).
    rewrite (slice_app_r _ _ 12 0) by (rewrite ?L3; lia).
    rewrite slice_app_l by (rewrite L1; reflexivity). now rewrite S1.
  - rewrite (slice_app_r _ _ 42 36) by (rewrite ?L0; lia).
    rewrite (slice_app_r _ _ 36 32) by (rewrite ?L1; lia).
    rewrite (slice_app_r _ _ 32 16) by (rewrite ?L2; lia).
    rewrite (slice_app_r _ _ 16 4) by (rewrite ?L3; lia).
    rewrite (slice_app_r _ _ 4 0) by (rewrite ?L1; lia).
    rewrite slice_app_l by (rewrite L5; lia). reflexivity.
  - rewrite (slice_app_r _ _ (42 + ct_len) (36 + ct_len)) by (rewrite ?L0; lia).
    rewrite (slice_app_r _ _ (36 + ct_len) (32 + ct_len)) by (rewrite ?L1; lia).
    rewrite (slice_app_r _ _ (32 + ct_len) (16 + ct_len)) by (rewrite ?L2; lia).
    rewrite (slice_app_r _ _ (16 + ct_len) (4 + ct_len)) by (rewrite ?L3; lia).
    rewrite (slice_app_r _ _ (4 + ct_len) ct_len) by (rewrite ?L1; lia).
    rewrite (slice_app_r _ _ ct_len 0) by (rewrite ?L5; lia).
    rewrite <- (app_nil_r (memcpy tag TAG_LEN)).
    rewrite slice_app_l by (rewrite L6; reflexivity). reflexivity.
Qed.

End Layout.

(** ** C6: old file or new file *)

Lemma tmp_is_not_vault : tmp_path VAULT_FILE <> VAULT_FILE.
Proof. vm_compute. discriminate. Qed.

(** The assembled file, field by field. *)
Lemma assemble_layout (host : endianness) (salt nonce ct tag : bytes)
    (iters ct_len : Z) :
  assemble host salt nonce ct tag iters ct_len
  = MAGIC ++ store32 host iters ++ firstn 16 salt ++ firstn 12 nonce
    ++ store32 host ct_len ++ firstn (Z.to_nat ct_len) ct ++ firstn 16 tag.
Proof.
  unfold assemble, memcpy.
  change (firstn (Z.to_nat MAGIC_LEN) (MAGIC ++ [NUL])) with MAGIC.
  rewrite !(firstn_all2 (store32 host _))
    by (rewrite store32_length; change (Z.to_nat 4) with 4%nat; lia).
  reflexivity.
Qed.

(** C6. Every save computes the whole container, magic, iterations, salt,
    nonce, length, ciphertext and tag, 58 bytes more than the ciphertext,
    before it writes anything. When one of the OpenSSL calls fails it
    exits with status 1 and no file is touched. Otherwise the outcome is
    decided by the write sequence: with no fault the save returns, the
    vault file holds exactly the whole container, the temporary file is
    gone and every other file is as it was; with a fault at fopen, fwrite,
    fclose or rename it exits with status 1 and every file other than the
    temporary one, the previous container among them, is as it was; a
    failed rename leaves the whole container in the temporary file. *)
Theorem save_old_or_new {ssl : OpenSSL} (host : endianness)
    (uninit : nat -> bytes) (L : Lines) (password : bytes) (w : World) :
  let tmp := tmp_path VAULT_FILE in
  let plain := serialize L in
  let plen := wrap_size (Z.of_nat (length plain)) in
  let '(rc1, salt, g1) :=
    crypto_rand (alloc uninit SALT_LEN) SALT_LEN (rng w) in
  let '(rc2, nonce, g2) :=
    crypto_rand (alloc uninit NONCE_LEN) NONCE_LEN g1 in
  let '(rc3, key) :=
    kdf_pbkdf2_sha256 (Some password) (Some salt) SALT_LEN PBKDF2_ITERS
      (alloc uninit KEY_LEN) KEY_LEN in
  let '(rc4, (ct, tag)) :=
    aes256gcm_encrypt key nonce NONCE_LEN plain plen None 0
      (alloc uninit plen) (alloc uninit TAG_LEN) TAG_LEN in
  let container :=
    MAGIC ++ store32 host (to_uint32 PBKDF2_ITERS) ++ firstn 16 salt
    ++ firstn 12 nonce ++ store32 host (to_uint32 plen)
    ++ firstn (Z.to_nat (to_uint32 plen)) ct ++ firstn 16 tag in
  let '(r, w') := save_vault host uninit L password w in
  Z.of_nat (length container) = 58 + to_uint32 plen /\
  if (rc1 =? 0) && (rc2 =? 0) && (rc3 =? 0) && (rc4 =? 0) then
    match fault w with
    | No_fault =>
        r = Ret tt /\
        fs w' !! VAULT_FILE = Some container /\
        fs w' !! tmp = None /\
        forall p, p <> VAULT_FILE -> p <> tmp -> fs w' !! p = fs w !! p
    | Rename_fails =>
        r = Exit 1 /\
        fs w' !! VAULT_FILE = fs w !! VAULT_FILE /\
        fs w' !! tmp = Some container /\
        forall p, p <> tmp -> fs w' !! p = fs w !! p
    | _ =>
        r = Exit 1 /\
        fs w' !! VAULT_FILE = fs w !! VAULT_FILE /\
        forall p, p <> tmp -> fs w' !! p = fs w !! p
    end
  else r = Exit 1 /\ fs w' = fs w.
Proof.
  intros tmp plain plen.
  pose proof tmp_is_not_vault as Htmp. fold tmp in Htmp.
  pose proof (crypto_rand_length (alloc uninit SALT_LEN) SALT_LEN (rng w)) as Hs.
  destruct (crypto_rand (alloc uninit SALT_LEN) SALT_LEN (rng w))
    as [[rc1 salt] g1] eqn:E1.
  pose proof (crypto_rand_length (alloc uninit NONCE_LEN) NONCE_LEN g1) as Hn.
  destruct (crypto_rand (alloc uninit NONCE_LEN) NONCE_LEN g1)
    as [[rc2 nonce] g2] eqn:E2.
  destruct (kdf_pbkdf2_sha256 (Some password) (Some salt) SALT_LEN PBKDF2_ITERS
              (alloc uninit KEY_LEN) KEY_LEN) as [rc3 key] eqn:E3.
  pose proof (aes256gcm_encrypt_buffers key nonce plain NONCE_LEN plen None 0
                (alloc uninit plen) (alloc uninit TAG_LEN) TAG_LEN) as Hb.
  destruct (aes256gcm_encrypt key nonce NONCE_LEN plain plen None 0
              (alloc uninit plen) (alloc uninit TAG_LEN) TAG_LEN)
    as [rc4 [ct tag]] eqn:E4.
  cbn [fst snd] in Hs, Hn, Hb. rewrite alloc_length in Hs, Hn.
  rewrite !alloc_length in Hb. destruct Hb as [Hc Ht].
  change (Z.to_nat SALT_LEN) with 16%nat in Hs.
  change (Z.to_nat NONCE_LEN) with 12%nat in Hn.
  change (Z.to_nat TAG_LEN) with 16%nat in Ht.
  assert (Hplen : 0 <= plen < 2 ^ 64).
  { unfold plen, wrap_size, SIZE_BITS. apply Z.mod_pos_bound. lia. }
  assert (Hu : 0 <= to_uint32 plen < 2 ^ 32).
  { unfold to_uint32. apply Z.mod_pos_bound. lia. }
  assert (Hule : to_uint32 plen <= plen).
  { unfold to_uint32. apply Z.mod_le; lia. }
  rewrite <- (assemble_layout host salt nonce ct tag).
  assert (Hlen : length (assemble host salt nonce ct tag
                           (to_uint32 PBKDF2_ITERS) (to_uint32 plen))
                 = (58 + Z.to_nat (to_uint32 plen))%nat)
    by (apply assemble_length; lia).
  unfold save_vault, bind, rand. fold plain. fold plen. rewrite E1.
  destruct (rc1 =? 0); cbn [negb andb];
    [|unfold die, fail_exit; cbv beta iota; cbn [fs eprint set_rng];
      split; [lia | auto]].
  cbn [rng set_rng]. rewrite E2.
  destruct (rc2 =? 0); cbn [negb andb];
    [|unfold die, fail_exit; cbv beta iota; cbn [fs eprint set_rng];
      split; [lia | auto]].
  rewrite E3.
  destruct (rc3 =? 0); cbn [negb andb];
    [|unfold die, fail_exit; cbv beta iota; cbn [fs eprint set_rng];
      split; [lia | auto]].
  rewrite E4.
  destruct (rc4 =? 0); cbn [negb andb];
    [|unfold die, fail_exit; cbv beta iota; cbn [fs eprint set_rng];
      split; [lia | auto]].
  rewrite write_all_atomic_vault. fold tmp.
  rewrite (firstn_all2 (assemble host salt nonce ct tag _ _))
    by (rewrite Hlen, wrap_size_small;
        unfold MAGIC_LEN, SALT_LEN, NONCE_LEN, TAG_LEN; lia).
  cbn [fault set_rng].
  destruct (fault w); unfold free, ret; cbv beta iota;
    cbn [fs set_fs set_rng eprint release]; (split; [lia|]).
  - split; [reflexivity|]. split; [apply lookup_insert_eq|]. split.
    + rewrite lookup_insert_ne by congruence. apply lookup_delete_eq.
    + intros p H1 H2.
      rewrite lookup_insert_ne, lookup_delete_ne, !lookup_insert_ne
        by congruence. reflexivity.
  - split; [reflexivity|]. split; [reflexivity|]. intros p Hp. reflexivity.
  - split; [reflexivity|]. split.
    + rewrite !lookup_insert_ne by congruence. reflexivity.
    + intros p Hp. rewrite !lookup_insert_ne by congruence. reflexivity.
  - split; [reflexivity|]. split.
    + rewrite !lookup_insert_ne by congruence. reflexivity.
    + intros p Hp. rewrite !lookup_insert_ne by congruence. reflexivity.
  - split; [reflexivity|]. split.
    + rewrite !lookup_insert_ne by congruence. reflexivity.
    + split; [apply lookup_insert_eq|].
      intros p Hp. rewrite !lookup_insert_ne by congruence. reflexivity.
Qed.

(** ** C8: byte order of the 32-bit fields *)

(** C8. The layout comment of the source gives both 32-bit fields as
    little-endian, and [save_vault] and [load_vault] copy them with
    [memcpy] in the order of the host. Saving the empty vault under the
    password pw on a big-endian host writes the iterations field as
    00 03 0D 40 and the length field as 00 00 00 1C, not the little-endian
    40 0D 03 00 and 1C 00 00 00; and the container a little-endian host
    writes for the same input, which that host loads, is refused on the
    big-endian host, which reads its length field as 0x1C000000. *)
Lemma big_endian_host_writes_big_endian :
  let w := Toy.start ∅ [] No_fault in
  let saved_be := save_vault BigEndian Toy.uninit [] (lit "pw") w in
  let saved_le := save_vault LittleEndian Toy.uninit [] (lit "pw") w in
  fst saved_be = Ret tt /\ fst saved_le = Ret tt /\
  (exists c, fs (snd saved_be) !! VAULT_FILE = Some c /\
     slice c 6 4 = Some ["000"; "003"; "013"; "064"]%char /\
     slice c 38 4 = Some ["000"; "000"; "000"; "028"]%char /\
     le32 PBKDF2_ITERS = ["064"; "013"; "003"; "000"]%char /\
     le32 28 = ["028"; "000"; "000"; "000"]%char /\
     slice c 6 4 <> Some (le32 PBKDF2_ITERS) /\
     slice c 38 4 <> Some (le32 28)) /\
  (exists c, fs (snd saved_le) !! VAULT_FILE = Some c /\
     slice c 6 4 = Some (le32 PBKDF2_ITERS) /\
     slice c 38 4 = Some (le32 28)) /\
  fst (load_vault LittleEndian Toy.uninit (lit "pw") (snd saved_le)) = Ret [] /\
  load_vault BigEndian Toy.uninit (lit "pw") (snd saved_le)
  = (Exit 1, eprint Msg_ct_overrun (snd saved_le)).
Proof.
  vm_compute. split; [reflexivity|]. split; [reflexivity|]. split.
  - eexists. split; [reflexivity|]. repeat split; discriminate.
  - split; [eexists; repeat split|]. split; reflexivity.
Qed.

(** ** Decoding a container *)

Lemma wrap_size_le (z : Z) : 0 <= z -> 0 <= wrap_size z <= z.
Proof.
  intros H. unfold wrap_size, SIZE_BITS. split.
  - apply Z.mod_pos_bound. lia.
  - apply Z.mod_le; lia.
Qed.

Section LoadFacts.
Context {ssl : OpenSSL}.
Variable host : endianness.
Variable uninit : nat -> bytes.

(** No run of [load_vault] reads outside the file buffer. *)
Lemma load_vault_in_bounds (password : bytes) (w : World) :
  fst (load_vault host uninit password w) <> OutOfBounds.
Proof.
  unfold load_vault, bind, read_all, read_slice, fail_exit.
  destruct (fs w !! VAULT_FILE) as [buf|]; [|discriminate].
  pose proof (wrap_size_le (Z.of_nat (length buf)) ltac:(lia)) as Hsz.
  set (sz := wrap_size (Z.of_nat (length buf))) in *.
  unfold MAGIC_LEN, SALT_LEN, NONCE_LEN, TAG_LEN.
  destruct (Z.ltb_spec sz 6); [discriminate|].
  destruct (slice buf 0 6) as [m|] eqn:S0;
    [|apply slice_none in S0; lia].
  destruct (bool_decide (m = MAGIC)); cbn [negb]; [|discriminate].
  change (wrap_size (6 + 4 + 16 + 12 + 4 + 16)) with 58.
  destruct (Z.ltb_spec sz 58); [discriminate|].
  destruct (slice buf 6 4) as [b1|] eqn:S1;
    [|apply slice_none in S1; lia].
  change (wrap_size (6 + 4)) with 10.
  destruct (slice buf 10 16) as [salt|] eqn:S2;
    [|apply slice_none in S2; lia].
  change (wrap_size (10 + 16)) with 26.
  destruct (slice buf 26 12) as [nonce|] eqn:S3;
    [|apply slice_none in S3; lia].
  change (wrap_size (26 + 12)) with 38.
  destruct (slice buf 38 4) as [b2|] eqn:S4;
    [|apply slice_none in S4; lia].
  change (wrap_size (38 + 4)) with 42.
  pose proof (load32_range host b2) as Hc.
  set (ct_len := load32 host b2) in *.
  rewrite (wrap_size_small (42 + ct_len + 16)) by lia.
  rewrite (wrap_size_small (42 + ct_len)) by lia.
  destruct (Z.ltb_spec sz (42 + ct_len + 16)); [discriminate|].
  destruct (slice buf 42 ct_len) as [ct|] eqn:S5;
    [|apply slice_none in S5; lia].
  destruct (slice buf (42 + ct_len) 16) as [tag|] eqn:S6;
    [|apply slice_none in S6; lia].
  destruct (kdf_pbkdf2_sha256 _ _ _ _ _ _) as [rc key].
  destruct (rc =? 0); cbn [negb]; [|discriminate].
  destruct (aes256gcm_decrypt _ _ _ _ _ _ _ _ _ _) as [rc' plain].
  destruct (rc' =? 0); cbn [negb]; [|discriminate].
  destruct (parse_lines _); discriminate.
Qed.

(** The magic is looked at first: without it nothing else is read. *)
Lemma load_vault_bad_magic (password buf : bytes) (w : World) :
  fs w !! VAULT_FILE = Some buf ->
  firstn 6 buf <> MAGIC ->
  load_vault host uninit password w = (Exit 1, eprint Msg_bad_magic w).
Proof.
  intros Hf Hm. unfold load_vault, bind, read_all, read_slice, fail_exit.
  rewrite Hf.
  pose proof (wrap_size_le (Z.of_nat (length buf)) ltac:(lia)) as Hsz.
  set (sz := wrap_size (Z.of_nat (length buf))) in *.
  unfold MAGIC_LEN. destruct (Z.ltb_spec sz 6); [reflexivity|].
  rewrite slice_some by lia.
  change (Z.to_nat 0) with 0%nat. change (Z.to_nat 6) with 6%nat.
  rewrite skipn_O, bool_decide_eq_false_2 by assumption. reflexivity.
Qed.

Lemma slice_firstn (k : nat) (c : bytes) (off m : Z) :
  0 <= off -> 0 <= m -> off + m <= Z.of_nat k -> (k <= length c)%nat ->
  slice (firstn k c) off m = slice c off m.
Proof.
  intros H1 H2 H3 H4.
  rewrite !slice_some; rewrite ?length_firstn; try lia.
  f_equal. rewrite skipn_firstn_comm, firstn_firstn. f_equal. lia.
Qed.

(** Half of an assembled file is reported as too small or as overrun by
    its ciphertext, whatever the password. *)
Lemma load_vault_truncated (salt nonce ct tag : bytes) (iters ct_len : Z)
    (password : bytes) (w : World) :
  (16 <= length salt)%nat -> (12 <= length nonce)%nat ->
  (Z.to_nat ct_len <= length ct)%nat -> (16 <= length tag)%nat ->
  0 <= ct_len < 2 ^ 32 ->
  let c := assemble host salt nonce ct tag iters ct_len in
  fs w !! VAULT_FILE = Some (firstn (length c / 2) c) ->
  load_vault host uninit password w = (Exit 1, eprint Msg_too_small w) \/
  load_vault host uninit password w = (Exit 1, eprint Msg_ct_overrun w).
Proof.
  intros Hs Hn Hc Ht Hl c Hf.
  destruct (assemble_fields host salt nonce ct tag iters ct_len Hs Hn Hc Ht
              ltac:(lia)) as (F0 & F1 & F2 & F3 & F4 & _).
  pose proof (assemble_length host salt nonce ct tag iters ct_len Hs Hn Hc Ht)
    as Hlen.
  fold c in F0, F1, F2, F3, F4, Hlen.
  set (k := (length c / 2)%nat) in *.
  assert (Hk : (2 * k <= length c < 2 * k + 2)%nat).
  { unfold k. pose proof (Nat.div_mod_eq (length c) 2).
    pose proof (Nat.mod_upper_bound (length c) 2). lia. }
  unfold load_vault, bind, read_all, read_slice, fail_exit. rewrite Hf.
  assert (Hlk : length (firstn k c) = k) by (rewrite length_firstn; lia).
  rewrite Hlk. rewrite (wrap_size_small (Z.of_nat k)) by lia.
  unfold MAGIC_LEN, SALT_LEN, NONCE_LEN, TAG_LEN.
  destruct (Z.ltb_spec (Z.of_nat k) 6); [lia|].
  rewrite slice_firstn, F0 by lia.
  rewrite bool_decide_eq_true_2 by reflexivity. cbn [negb].
  change (wrap_size (6 + 4 + 16 + 12 + 4 + 16)) with 58.
  destruct (Z.ltb_spec (Z.of_nat k) 58); [left; reflexivity|].
  rewrite slice_firstn, F1 by lia.
  change (wrap_size (6 + 4)) with 10.
  rewrite slice_firstn, F2 by lia.
  change (wrap_size (10 + 16)) with 26.
  rewrite slice_firstn, F3 by lia.
  change (wrap_size (26 + 12)) with 38.
  rewrite slice_firstn, F4 by lia.
  change (wrap_size (38 + 4)) with 42.
  rewrite load32_store32, to_uint32_small by lia.
  rewrite (wrap_size_small (42 + ct_len + 16)) by lia.
  destruct (Z.ltb_spec (Z.of_nat k) (42 + ct_len + 16)); [right; reflexivity|].
  lia.
Qed.

(** [aes256gcm_decrypt] returns 0 or -1; it returns 0 only after the
    final step accepted the tag that was set, and otherwise leaves in the
    buffer whatever the update step stored. *)
Lemma aes256gcm_decrypt_cases (key nonce : bytes) (nonce_len : Z)
    (ct : bytes) (ct_len : Z) (aad : option bytes) (aad_len : Z)
    (tag : bytes) (tag_len : Z) (out_pt : bytes) :
  let '(rc, buf) := aes256gcm_decrypt key nonce nonce_len ct ct_len
                      aad aad_len tag tag_len out_pt in
  (rc = 0 /\ exists c0 c c' o,
      EVP_CTRL_GCM_SET_TAG c0 (to_int tag_len) tag = Some c /\
      EVP_DecryptFinal_ex c = Some (c', o)) \/
  (rc = -1 /\
   (buf = out_pt \/
    exists c0 c o1, EVP_DecryptUpdate c0 ct (to_int ct_len) = Some (c, o1) /\
                    buf = write_at out_pt 0 o1)).
Proof.
  unfold aes256gcm_decrypt.
  destruct EVP_CIPHER_CTX_new as [c0|]; [|right; split; [reflexivity | left; reflexivity]].
  destruct (EVP_DecryptInit_ex c0 true None None) as [c1|]; [|right; split; [reflexivity | left; reflexivity]].
  destruct (EVP_CTRL_GCM_SET_IVLEN c1 (to_int nonce_len)) as [c2|];
    [|right; split; [reflexivity | left; reflexivity]].
  destruct (EVP_DecryptInit_ex c2 false (Some key) (Some nonce)) as [c3|];
    [|right; split; [reflexivity | left; reflexivity]].
  destruct (match aad with
            | Some a => if aad_len =? 0 then Some c3
                        else EVP_DecryptUpdate_aad c3 a (to_int aad_len)
            | None => Some c3
            end) as [c4|]; [|right; split; [reflexivity | left; reflexivity]].
  destruct (EVP_DecryptUpdate c4 ct (to_int ct_len)) as [[c5 o1]|] eqn:EU;
    [|right; split; [reflexivity | left; reflexivity]].
  destruct (EVP_CTRL_GCM_SET_TAG c5 (to_int tag_len) tag) as [c6|] eqn:ET;
    [|right; split; [reflexivity | right; exists c4, c5, o1; split; [assumption | reflexivity]]].
  destruct (EVP_DecryptFinal_ex c6) as [[c7 o2]|] eqn:EF;
    [|right; split; [reflexivity | right; exists c4, c5, o1; split; [assumption | reflexivity]]].
  left. split; [reflexivity|]. exists c5, c6, c7, o2. split; assumption.
Qed.

(** Every way [load_vault] can end. It returns rows only when
    [aes256gcm_decrypt] returned 0 on the fields of the file; when that
    call fails it frees the zeroed buffers, reports once and exits with
    status 1; it never reads out of bounds and never runs out of budget. *)
Lemma load_vault_outcome (password : bytes) (w : World) :
  let '(r, w') := load_vault host uninit password w in
  fs w' = fs w /\ prompts w' = prompts w /\ stdout w' = stdout w /\
  fault w' = fault w /\ rng w' = rng w /\
  match r with
  | Ret L =>
      stderr w' = stderr w /\
      exists key nonce ct ct_len tag plain,
        aes256gcm_decrypt key nonce NONCE_LEN ct ct_len None 0 tag TAG_LEN
          (alloc uninit (wrap_size (ct_len + 1))) = (0, plain) /\
        parse_lines (write_at plain (Z.to_nat ct_len) [NUL]) = Some L
  | Exit code =>
      code = 1 /\
      exists m, stderr w' = stderr w ++ [m] /\
        (m = Msg_no_vault \/ FormatError m \/ m = Msg_kdf_failed \/
         (m = Msg_wrong_password_or_tampered /\
          exists key nonce ct ct_len tag plain kb fb,
            aes256gcm_decrypt key nonce NONCE_LEN ct ct_len None 0 tag TAG_LEN
              (alloc uninit (wrap_size (ct_len + 1))) = (-1, plain) /\
            freed w' = freed w ++ [kb; secure_bzero plain (Z.to_nat ct_len); fb]))
  | OutOfBounds => False
  | NoTermination => False
  end.
Proof.
  unfold load_vault, bind, read_all, read_slice, fail_exit, FormatError.
  destruct (fs w !! VAULT_FILE) as [buf|];
    [|repeat split; eexists; split; [reflexivity | auto 10]].
  pose proof (wrap_size_le (Z.of_nat (length buf)) ltac:(lia)) as Hsz.
  set (sz := wrap_size (Z.of_nat (length buf))) in *.
  unfold MAGIC_LEN, SALT_LEN, NONCE_LEN, TAG_LEN.
  destruct (Z.ltb_spec sz 6);
    [repeat split; eexists; split; [reflexivity | auto 10]|].
  destruct (slice buf 0 6) as [m|] eqn:S0;
    [|apply slice_none in S0; lia].
  destruct (bool_decide (m = MAGIC)); cbn [negb];
    [|repeat split; eexists; split; [reflexivity | auto 10]].
  change (wrap_size (6 + 4 + 16 + 12 + 4 + 16)) with 58.
  destruct (Z.ltb_spec sz 58);
    [repeat split; eexists; split; [reflexivity | auto 10]|].
  destruct (slice buf 6 4) as [b1|] eqn:S1;
    [|apply slice_none in S1; lia].
  change (wrap_size (6 + 4)) with 10.
  destruct (slice buf 10 16) as [salt|] eqn:S2;
    [|apply slice_none in S2; lia].
  change (wrap_size (10 + 16)) with 26.
  destruct (slice buf 26 12) as [nonce|] eqn:S3;
    [|apply slice_none in S3; lia].
  change (wrap_size (26 + 12)) with 38.
  destruct (slice buf 38 4) as [b2|] eqn:S4;
    [|apply slice_none in S4; lia].
  change (wrap_size (38 + 4)) with 42.
  pose proof (load32_range host b2) as Hc.
  set (ct_len := load32 host b2) in *.
  rewrite (wrap_size_small (42 + ct_len + 16)) by lia.
  rewrite (wrap_size_small (42 + ct_len)) by lia.
  destruct (Z.ltb_spec sz (42 + ct_len + 16));
    [repeat split; eexists; split; [reflexivity | auto 10]|].
  destruct (slice buf 42 ct_len) as [ct|] eqn:S5;
    [|apply slice_none in S5; lia].
  destruct (slice buf (42 + ct_len) 16) as [tag|] eqn:S6;
    [|apply slice_none in S6; lia].
  destruct (kdf_pbkdf2_sha256 _ _ _ _ _ _) as [rc key].
  destruct (rc =? 0); cbn [negb];
    [|repeat split; eexists; split; [reflexivity | auto 10]].
  pose proof (aes256gcm_decrypt_cases key nonce 12 ct ct_len None 0 tag 16
                (alloc uninit (wrap_size (ct_len + 1)))) as Hd.
  destruct (aes256gcm_decrypt key nonce 12 ct ct_len None 0 tag 16
              (alloc uninit (wrap_size (ct_len + 1)))) as [rc' plain] eqn:ED.
  destruct Hd as [[-> _] | [-> _]]; cbn [Z.eqb negb].
  - rewrite parse_lines_lines. cbn.
    repeat split. exists key, nonce, ct, ct_len, tag, plain.
    split; [exact ED | apply parse_lines_lines].
  - cbn. repeat split. eexists. split; [reflexivity|].
    right. right. right. split; [reflexivity|].
    exists key, nonce, ct, ct_len, tag, plain. eexists _, _.
    split; [exact ED|]. rewrite <- !app_assoc. reflexivity.
Qed.

End LoadFacts.

(** ** C3: decoding never leaves the buffer *)

(** C3. For every file content, [load_vault] never reads outside the
    buffer: each field is read only after the size check that covers it.
    A file that does not start with the magic is rejected as such before
    anything else is read, and a saved container cut to half its length is
    rejected with a format error (too small, or ciphertext overrun). *)
Theorem container_decoding_safe {ssl : OpenSSL} (host : endianness)
    (uninit : nat -> bytes) :
  (forall (password : bytes) (w : World),
     fst (load_vault host uninit password w) <> OutOfBounds) /\
  (forall (password buf : bytes) (w : World),
     fs w !! VAULT_FILE = Some buf -> firstn 6 buf <> MAGIC ->
     load_vault host uninit password w = (Exit 1, eprint Msg_bad_magic w)) /\
  (forall (L : Lines) (pw0 : bytes) (w0 w1 : World) (c password : bytes)
          (w : World),
     save_vault host uninit L pw0 w0 = (Ret tt, w1) ->
     fs w1 !! VAULT_FILE = Some c ->
     fs w !! VAULT_FILE = Some (firstn (length c / 2) c) ->
     exists m, FormatError m /\
       load_vault host uninit password w = (Exit 1, eprint m w)).
Proof.
  split; [|split].
  - apply load_vault_in_bounds.
  - apply load_vault_bad_magic.
  - intros L pw0 w0 w1 c password w Hs Hc Hw.
    pose proof (save_vault_cases host uninit L pw0 w0) as H.
    rewrite Hs in H.
    destruct H as [(_ & _ & salt & nonce & ct & tag & H) | (H & _)];
      [|discriminate].
    cbv zeta in H. destruct H as (H1 & H2 & H3 & H4 & Hf).
    rewrite Hc in Hf. inversion Hf; subst c.
    assert (Hu : 0 <= to_uint32 (wrap_size (Z.of_nat (length (serialize L))))
                 < 2 ^ 32).
    { unfold to_uint32. apply Z.mod_pos_bound. lia. }
    destruct (load_vault_truncated host uninit salt nonce ct tag _ _ password w
                H1 H2 H3 H4 Hu Hw) as [E | E].
    + exists Msg_too_small. split; [right; left; reflexivity | exact E].
    + exists Msg_ct_overrun. split; [right; right; reflexivity | exact E].
Qed.

Lemma container_decoding_safe_witness :
  let L := [lit "github" ++ [TAB] ++ lit "alice" ++ [TAB] ++ lit "hunter2"] in
  let w1 := snd (save_vault LittleEndian Toy.uninit L (lit "Secret1")
                   (Toy.start ∅ [] No_fault)) in
  let c := default [] (fs w1 !! VAULT_FILE) in
  let w := Toy.start {[ VAULT_FILE := firstn (length c / 2) c ]} [] No_fault in
  exists m, FormatError m /\
    load_vault LittleEndian Toy.uninit (lit "Secret1") w = (Exit 1, eprint m w).
Proof.
  intros L w1 c w.
  apply (proj2 (proj2 (container_decoding_safe LittleEndian Toy.uninit))
           L (lit "Secret1") (Toy.start ∅ [] No_fault) w1 c (lit "Secret1") w).
  - vm_compute. reflexivity.
  - vm_compute. reflexivity.
  - vm_compute. reflexivity.
Defined.

(** ** C2: what a failed decryption leaves behind *)





(** ** C5: what parse keeps and what show skips *)

Lemma strtok_tokens (d : ascii) (cur : bytes) :
  fst (strtok cur [d]) = hd_error (tokens d cur) /\
  tokens d (snd (strtok cur [d])) = tl (tokens d cur).
Proof.
  unfold strtok. pose proof (strtok_r_tokens d cur) as H.
  destruct (strtok_r cur [d]) as [[t save]|]; cbn [fst snd].
  - destruct H as (-> & _). split; reflexivity.
  - rewrite H. split; reflexivity.
Qed.

(** One iteration of the loop of [cmd_show], by the tokens of the row. *)
Lemma show_loop_cons (r : bytes) (rows : Lines) (q : bytes) :
  show_loop (r :: rows) q =
  match tokens TAB (strncpy_row r MAX_LINE) with
  | s :: u :: p :: _ =>
      if strcmp_eq s q then Some (s, u, p) else show_loop rows q
  | _ => show_loop rows q
  end.
Proof.
  cbn [show_loop].
  set (buf := strncpy_row r MAX_LINE).
  destruct (strtok_tokens TAB buf) as [H1 T1].
  destruct (strtok buf [TAB]) as [svc c1]. cbn [fst snd] in H1, T1.
  destruct (strtok_tokens TAB c1) as [H2 T2].
  destruct (strtok c1 [TAB]) as [usr c2]. cbn [fst snd] in H2, T2.
  destruct (strtok_tokens TAB c2) as [H3 _].
  destruct (strtok c2 [TAB]) as [pwd c3]. cbn [fst snd] in H3.
  rewrite T2, T1 in H3. rewrite T1 in H2. subst svc usr pwd.
  destruct (tokens TAB buf) as [|s [|u [|p rest]]]; reflexivity.
Qed.

(** A blob with a one-field line: parse keeps the line and reports
    nothing, show then passes over it, and list prints it. *)
Lemma malformed_line_not_reported :
  let row := lit "github" in
  let blob := hdr ++ row ++ [LF; NUL] in
  let w1 := snd (save_vault LittleEndian Toy.uninit [row] (lit "Secret1")
                   (Toy.start ∅ [] No_fault)) in
  let w := set_prompts [Some (lit "Secret1")] w1 in
  length (split_on TAB row) = 1%nat /\
  parse_lines blob = Some [row] /\
  show_loop [row] row = None /\
  load_vault LittleEndian Toy.uninit (lit "Secret1") w1
    = (Ret [row], snd (load_vault LittleEndian Toy.uninit (lit "Secret1") w1)) /\
  stderr (snd (load_vault LittleEndian Toy.uninit (lit "Secret1") w1)) = [] /\
  fst (cmd_show LittleEndian Toy.uninit (Some row) w) = Ret 1 /\
  stderr (snd (cmd_show LittleEndian Toy.uninit (Some row) w))
    = [Msg_no_entry_found row] /\
  fst (cmd_list LittleEndian Toy.uninit w) = Ret 0 /\
  stdout (snd (cmd_list LittleEndian Toy.uninit w)) = row ++ [LF].
Proof. vm_compute. repeat split. Qed.

(** C5, as the code has it. For every decrypted blob, parse returns, in
    order, the lines of its C string (split on newline) that are not empty
    and do not begin with the comment marker, the header among the dropped
    ones; each kept line is one row, whole, whatever its fields; no line is
    reported as corrupt. A row with fewer than three non-empty tab-separated
    fields is passed over by the loop of show. *)
Theorem parse_keeps_lines_whole (plain : bytes) :
  parse_lines plain
    = Some (List.filter keep_line (split_on LF (c_str plain))) /\
  forall (row : bytes) (rows : Lines) (q : bytes),
    (length (tokens TAB (strncpy_row row MAX_LINE)) < 3)%nat ->
    show_loop (row :: rows) q = show_loop rows q.
Proof.
  split; [apply parse_lines_lines|].
  intros row rows q H. rewrite show_loop_cons.
  destruct (tokens TAB (strncpy_row row MAX_LINE)) as [|s [|u [|p rest]]];
    try reflexivity.
  cbn [length] in H. lia.
Qed.

Lemma parse_keeps_lines_whole_witness :
  let plain := hdr ++ lit "github" ++ [LF; LF] ++ lit "# note" ++ [LF; NUL] in
  parse_lines plain = Some [lit "github"] /\
  show_loop [lit "github"] (lit "github") = show_loop [] (lit "github").
Proof.
  pose proof (parse_keeps_lines_whole
                (hdr ++ lit "github" ++ [LF; LF] ++ lit "# note" ++ [LF; NUL]))
    as [H1 H2].
  split.
  - rewrite H1. vm_compute. reflexivity.
  - apply H2. vm_compute. lia.
Defined.

(** ** Salt and nonce of a save *)

(** A completed save took its salt and its nonce from two successive calls
    of the generator, and left the generator advanced past both. *)
Lemma save_vault_draws {ssl : OpenSSL} (host : endianness)
    (uninit : nat -> bytes) (L : Lines) (password : bytes) (w w' : World) :
  save_vault host uninit L password w = (Ret tt, w') ->
  let '(rc1, salt, g1) := crypto_rand (alloc uninit SALT_LEN) SALT_LEN (rng w) in
  let '(rc2, nonce, g2) := crypto_rand (alloc uninit NONCE_LEN) NONCE_LEN g1 in
  rc1 = 0 /\ rc2 = 0 /\ rng w' = g2 /\
  exists c, fs w' !! VAULT_FILE = Some c /\
    slice c 10 16 = Some (firstn 16 salt) /\
    slice c 26 12 = Some (firstn 12 nonce).
Proof.
  unfold save_vault, bind, rand.
  pose proof (crypto_rand_length (alloc uninit SALT_LEN) SALT_LEN (rng w)) as Hs.
  destruct (crypto_rand (alloc uninit SALT_LEN) SALT_LEN (rng w))
    as [[rc1 salt] g1].
  destruct (Z.eqb_spec rc1 0) as [-> |]; cbn [negb]; [|discriminate].
  cbn [rng set_rng].
  pose proof (crypto_rand_length (alloc uninit NONCE_LEN) NONCE_LEN g1) as Hn.
  destruct (crypto_rand (alloc uninit NONCE_LEN) NONCE_LEN g1)
    as [[rc2 nonce] g2].
  destruct (Z.eqb_spec rc2 0) as [-> |]; cbn [negb]; [|discriminate].
  destruct (kdf_pbkdf2_sha256 _ _ _ _ _ _) as [rc3 key].
  destruct (rc3 =? 0); cbn [negb]; [|discriminate].
  match goal with
  | |- context [aes256gcm_encrypt ?k ?n ?nl ?p ?pl ?a ?al ?c ?t ?tl] =>
      pose proof (aes256gcm_encrypt_buffers k n p nl pl a al c t tl) as Hb;
      destruct (aes256gcm_encrypt k n nl p pl a al c t tl) as [rc4 [ct tag]]
  end.
  destruct (rc4 =? 0); cbn [negb]; [|discriminate].
  cbn [fst snd] in Hs, Hn, Hb. rewrite alloc_length in Hs, Hn.
  rewrite !alloc_length in Hb. destruct Hb as [Hc Ht].
  change (Z.to_nat SALT_LEN) with 16%nat in Hs.
  change (Z.to_nat NONCE_LEN) with 12%nat in Hn.
  change (Z.to_nat TAG_LEN) with 16%nat in Ht.
  set (plen := wrap_size (Z.of_nat (length (serialize L)))) in *.
  assert (Hplen : 0 <= plen < 2 ^ 64).
  { unfold plen, wrap_size, SIZE_BITS. apply Z.mod_pos_bound. lia. }
  assert (Hu : 0 <= to_uint32 plen < 2 ^ 32).
  { unfold to_uint32. apply Z.mod_pos_bound. lia. }
  assert (Hule : to_uint32 plen <= plen).
  { unfold to_uint32. apply Z.mod_le; lia. }
  rewrite write_all_atomic_vault. cbn [fault set_rng].
  destruct (fault w); try discriminate.
  unfold free, ret. intros E. apply (f_equal snd) in E. cbn [snd] in E.
  subst w'.
  cbn [fs rng set_fs set_rng release].
  repeat split.
  eexists. split; [apply lookup_insert_eq|].
  rewrite firstn_all2.
  - destruct (assemble_fields host salt nonce ct tag (to_uint32 PBKDF2_ITERS)
                (to_uint32 plen) Hs Hn ltac:(lia) Ht ltac:(lia))
      as (_ & _ & F2 & F3 & _).
    split; assumption.
  - rewrite assemble_length by lia.
    rewrite wrap_size_small; unfold MAGIC_LEN, SALT_LEN, NONCE_LEN, TAG_LEN; lia.
Qed.

(** ** C10: a record longer than the line buffer *)

Ltac world_simpl :=
  cbn [fs rng prompts fault stdout stderr freed set_fs set_rng set_prompts
       print eprint release] in *.

Section Pipeline.
Context {ssl : OpenSSL}.
Variable host : endianness.
Variable uninit : nat -> bytes.
Hypothesis gcm : gcm_contract ssl.
Hypothesis kdf : kdf_contract ssl.
Hypothesis rnd : rand_contract ssl.

Lemma write_at_fill (buf r : bytes) :
  length r = length buf -> write_at buf 0 r = r.
Proof.
  intros H. rewrite write_at_0, skipn_all2 by lia. apply app_nil_r.
Qed.

Lemma rand_run (n : Z) (w : World) :
  0 <= n < 2 ^ 31 ->
  exists r g, rand (alloc uninit n) n w = (Ret (0, r), set_rng g w) /\
              length r = Z.to_nat n.
Proof.
  intros Hn. destruct (rnd (rng w) n Hn) as (r & g & E & Hl).
  exists r, g. unfold rand, crypto_rand. rewrite to_int_small by assumption.
  rewrite E, write_at_fill by (rewrite alloc_length; assumption).
  split; [reflexivity | assumption].
Qed.

Lemma strlen_le (s : bytes) : (strlen s <= length s)%nat.
Proof.
  induction s as [|c s IH]; cbn [strlen length]; [lia|].
  destruct (Ascii.eqb c NUL); lia.
Qed.

Lemma kdf_run (pw salt : bytes) (iters : Z) :
  length salt = 16%nat ->
  Z.of_nat (length pw) < 2 ^ 31 -> 0 < iters < 2 ^ 31 ->
  exists key, kdf_pbkdf2_sha256 (Some pw) (Some salt) SALT_LEN iters
                (alloc uninit KEY_LEN) KEY_LEN = (0, key) /\
              length key = 32%nat.
Proof.
  intros Hs Hp Hi. destruct (kdf pw salt iters Hs Hp Hi) as (k & E & Hk).
  exists k. unfold kdf_pbkdf2_sha256.
  change (KEY_LEN =? 0) with false. cbv iota.
  pose proof (strlen_le pw).
  rewrite (to_int_small (Z.of_nat (strlen pw))) by lia.
  rewrite (to_int_small iters) by lia.
  change (to_int SALT_LEN) with 16. change (to_int KEY_LEN) with 32.
  rewrite E, write_at_fill by (rewrite alloc_length; assumption).
  split; [reflexivity | assumption].
Qed.

(** A save without an injected fault completes and the file holds [L]. *)
Lemma save_vault_run (L : Lines) (pw : bytes) (w : World) :
  fault w = No_fault ->
  Z.of_nat (length (serialize L)) < 2 ^ 31 ->
  Z.of_nat (length pw) < 2 ^ 31 ->
  exists w', save_vault host uninit L pw w = (Ret tt, w') /\
    holds_vault host uninit w' pw L /\
    prompts w' = prompts w /\ stdout w' = stdout w /\
    stderr w' = stderr w /\ fault w' = No_fault.
Proof.
  intros Hf Hlen Hpw. unfold save_vault, bind.
  destruct (rand_run SALT_LEN w ltac:(cbv; split; [discriminate | reflexivity]))
    as (salt & g1 & -> & Hs).
  cbn [Z.eqb negb].
  destruct (rand_run NONCE_LEN (set_rng g1 w)
              ltac:(cbv; split; [discriminate | reflexivity]))
    as (nonce & g2 & -> & Hn).
  cbn [Z.eqb negb].
  set (plain := serialize L) in *.
  rewrite (wrap_size_small (Z.of_nat (length plain))) by lia.
  destruct (kdf_run pw salt PBKDF2_ITERS Hs Hpw
              ltac:(cbv; split; reflexivity)) as (key & Ekdf & Hk).
  rewrite Ekdf.
  cbn [Z.eqb negb].
  destruct (aes256gcm_roundtrip gcm key nonce plain
              (alloc uninit (Z.of_nat (length plain))) (alloc uninit TAG_LEN)
              (alloc uninit (Z.of_nat (length plain) + 1)))
    as (ct & tag & x & -> & Hc & Ht & Hd).
  { exact Hk. }
  { exact Hn. }
  { assumption. }
  { rewrite alloc_length. apply Nat2Z.id. }
  { apply alloc_length. }
  { rewrite alloc_length. lia. }
  cbn [Z.eqb negb].
  rewrite (to_uint32_small (Z.of_nat (length plain))) by lia.
  rewrite write_all_atomic_vault. cbn [fault set_rng]. rewrite Hf.
  unfold free, ret. eexists. split; [reflexivity|].
  change (Z.to_nat SALT_LEN) with 16%nat in Hs.
  change (Z.to_nat NONCE_LEN) with 12%nat in Hn.
  unfold holds_vault. world_simpl. fold plain.
  repeat split; try assumption.
  exists salt, nonce, ct, tag, key, x.
  rewrite lookup_insert_eq. repeat split; try assumption.
  f_equal. apply firstn_all2.
  rewrite assemble_length by (rewrite ?Nat2Z.id; lia).
  rewrite wrap_size_small; unfold MAGIC_LEN, SALT_LEN, NONCE_LEN, TAG_LEN; lia.
Qed.

(** Loading a container that holds [L] returns [L] and changes nothing
    but the record of freed blocks. *)
Lemma load_vault_run (L : Lines) (pw : bytes) (w : World) :
  holds_vault host uninit w pw L ->
  forallb row_ok L = true ->
  exists w', load_vault host uninit pw w = (Ret L, w') /\
    fs w' = fs w /\ prompts w' = prompts w /\ stdout w' = stdout w /\
    stderr w' = stderr w /\ fault w' = fault w.
Proof.
  intros (Hlen & salt & nonce & ct & tag & key & x & Hfile & Hs & Hn & Hc
          & Ht & Ekdf & Edec) Hok.
  set (plain := serialize L) in *.
  set (plen := Z.of_nat (length plain)) in *.
  assert (Hp : 0 <= plen) by (unfold plen; lia).
  assert (E : fst (load_vault host uninit pw w) = Ret L).
  { destruct (assemble_fields host salt nonce ct tag (to_uint32 PBKDF2_ITERS)
                plen ltac:(lia) ltac:(lia) ltac:(unfold plen; lia) ltac:(lia) Hp)
      as (F0 & F1 & F2 & F3 & F4 & F5 & F6).
    unfold load_vault, bind, read_all, read_slice. rewrite Hfile.
    rewrite assemble_length by (unfold plen; lia).
    replace (Z.of_nat (58 + Z.to_nat plen)) with (58 + plen) by lia.
    rewrite (wrap_size_small (58 + plen)) by lia.
    unfold MAGIC_LEN, SALT_LEN, NONCE_LEN, TAG_LEN.
    destruct (Z.ltb_spec (58 + plen) 6); [lia|].
    rewrite F0, bool_decide_eq_true_2 by reflexivity. cbn [negb].
    change (wrap_size (6 + 4 + 16 + 12 + 4 + 16)) with 58.
    destruct (Z.ltb_spec (58 + plen) 58); [lia|].
    rewrite F1. change (wrap_size (6 + 4)) with 10.
    rewrite F2. change (wrap_size (10 + 16)) with 26.
    rewrite F3. change (wrap_size (26 + 12)) with 38.
    rewrite F4. change (wrap_size (38 + 4)) with 42.
    rewrite !load32_store32.
    rewrite (to_uint32_small plen) by lia.
    replace (to_uint32 (to_uint32 PBKDF2_ITERS)) with PBKDF2_ITERS by reflexivity.
    rewrite (wrap_size_small (42 + plen + 16)) by lia.
    rewrite (wrap_size_small (42 + plen)) by lia.
    rewrite (wrap_size_small (plen + 1)) by lia.
    destruct (Z.ltb_spec (58 + plen) (42 + plen + 16)); [lia|].
    rewrite F5, F6.
    rewrite (firstn_all2 salt), (firstn_all2 nonce), (firstn_all2 tag) by lia.
    rewrite (firstn_all2 ct) by (unfold plen; lia).
    unfold SALT_LEN, NONCE_LEN, TAG_LEN in Ekdf, Edec.
    rewrite Ekdf. cbn [Z.eqb negb]. rewrite Edec. cbn [Z.eqb negb].
    unfold plen at 1. rewrite Nat2Z.id, write_at_end by reflexivity.
    unfold plain at 1. rewrite (parse_serialize L []) by assumption.
    reflexivity. }
  pose proof (load_vault_outcome host uninit pw w) as H.
  destruct (load_vault host uninit pw w) as [r w']. cbn [fst] in E. subst r.
  destruct H as (H1 & H2 & H3 & H4 & _ & H5 & _).
  exists w'. repeat split; assumption.
Qed.

Lemma holds_vault_fs (w w' : World) (pw : bytes) (L : Lines) :
  fs w' = fs w -> holds_vault host uninit w pw L -> holds_vault host uninit w' pw L.
Proof. unfold holds_vault. intros ->. auto. Qed.

Lemma chomp_bound (line : bytes) : Z.of_nat (length (chomp line)) < 2 ^ 31.
Proof.
  unfold chomp. rewrite !length_firstn.
  assert (2 ^ 31 = 2147483648) by reflexivity. lia.
Qed.

Lemma chomp_no_nul (line : bytes) : mem_byte NUL (chomp line) = false.
Proof. unfold chomp. apply mem_byte_firstn, mem_byte_firstn, c_str_no_nul. Qed.

Lemma xstrdup_chomp (line : bytes) : xstrdup (chomp line) = chomp line.
Proof. apply c_str_nul_free, chomp_no_nul. Qed.

(** Freeing the rows changes nothing but the record of freed blocks. *)
Lemma lines_free_run (L : Lines) (w : World) :
  exists w', lines_free L w = (Ret tt, w') /\
    fs w' = fs w /\ prompts w' = prompts w /\ stdout w' = stdout w /\
    stderr w' = stderr w /\ fault w' = fault w.
Proof.
  revert w. induction L as [|r L IH]; intros w; cbn [lines_free].
  - exists w. repeat split.
  - unfold bind, free. destruct (IH (release (r ++ [NUL]) w))
      as (w' & -> & H1 & H2 & H3 & H4 & H5).
    exists w'. world_simpl. repeat split; assumption.
Qed.

(** [cmd_init] on a fresh directory leaves an empty vault. *)
Lemma cmd_init_run (pw : bytes) (rest : list (option bytes)) (w : World) :
  fs w !! VAULT_FILE = None ->
  prompts w = Some pw :: Some pw :: rest ->
  fault w = No_fault ->
  exists w', cmd_init host uninit w = (Ret 0, w') /\
    holds_vault host uninit w' (chomp pw) [] /\
    prompts w' = rest /\ fault w' = No_fault.
Proof.
  intros Hfs Hp Hf. unfold cmd_init, bind, file_exists, prompt_hidden.
  rewrite Hfs, bool_decide_eq_false_2 by (intros [? ?]; discriminate).
  rewrite Hp. world_simpl. rewrite !xstrdup_chomp.
  unfold strcmp_eq. rewrite bool_decide_eq_true_2 by reflexivity. cbn [negb].
  destruct (save_vault_run [] (chomp pw)
              (set_prompts rest (set_prompts (Some pw :: rest) w)))
    as (w' & -> & Hv & Hpr & _ & _ & Hfl).
  { exact Hf. }
  { vm_compute. reflexivity. }
  { apply chomp_bound. }
  unfold scrub_free, free, put, ret. cbn [lines_free]. unfold ret.
  eexists. split; [reflexivity|].
  split; [apply (holds_vault_fs w'); [reflexivity | exact Hv]|].
  world_simpl. split; assumption.
Qed.

(** [cmd_add] of accepted fields appends their row to the vault. *)
Lemma cmd_add_run (L : Lines) (svc usr pwd pw : bytes)
    (rest : list (option bytes)) (w : World) :
  holds_vault host uninit w (chomp pw) L ->
  forallb row_ok L = true ->
  prompts w = Some pw :: rest ->
  fault w = No_fault ->
  record_ok (svc, usr, pwd) = true ->
  let row := snprintf_row MAX_LINE svc usr pwd in
  Z.of_nat (length (serialize (L ++ [row]))) < 2 ^ 31 ->
  exists w', cmd_add host uninit (Some svc) (Some usr) (Some pwd) w = (Ret 0, w') /\
    holds_vault host uninit w' (chomp pw) (L ++ [row]) /\
    prompts w' = rest /\ fault w' = No_fault /\
    stdout w' = stdout w ++ lit "Added entry for service: " ++ c_str svc ++ [LF] /\
    stderr w' = stderr w.
Proof.
  intros Hv Hok Hp Hf Hrec row Hlen.
  pose proof (row_of_ok (svc, usr, pwd) Hrec) as Hrow.
  cbn [row_of] in Hrow. fold row in Hrow.
  unfold record_ok in Hrec. apply andb_true_iff in Hrec as [Hd _].
  apply negb_true_iff in Hd. unfold fields_have_delims in Hd.
  unfold cmd_add, bind, prompt_hidden. rewrite Hd, Hp, xstrdup_chomp.
  destruct (load_vault_run L (chomp pw) (set_prompts rest w)) as (w1 & -> & H1).
  { exact Hv. }
  { exact Hok. }
  destruct H1 as (Hfs1 & Hp1 & Ho1 & He1 & Hf1).
  fold row. unfold lines_push, xstrdup.
  assert (Hc : c_str row = row).
  { apply c_str_nul_free. unfold row_ok in Hrow.
    apply andb_true_iff in Hrow as [Hrow _].
    apply andb_true_iff in Hrow as [Hrow _].
    now apply negb_true_iff in Hrow. }
  rewrite Hc.
  destruct (save_vault_run (L ++ [row]) (chomp pw) w1)
    as (w2 & -> & Hv2 & Hp2 & Ho2 & He2 & Hf2).
  { rewrite Hf1. exact Hf. }
  { exact Hlen. }
  { apply chomp_bound. }
  unfold scrub_free, free at 1.
  destruct (lines_free_run (L ++ [row])
              (release (secure_bzero (chomp pw ++ [NUL]) (strlen (chomp pw))) w2))
    as (w3 & -> & Hfs3 & Hp3 & Ho3 & He3 & Hf3).
  unfold put, ret. eexists. split; [reflexivity|].
  split; [apply (holds_vault_fs w2); [exact Hfs3 | exact Hv2]|].
  world_simpl. split; [congruence|]. split; [congruence|].
  split; [rewrite Ho3, Ho2, Ho1; reflexivity | congruence].
Qed.

(** [cmd_show] prints the fields [show_loop] finds in the vault. *)
Lemma cmd_show_run (L : Lines) (q pw : bytes) (rest : list (option bytes))
    (w : World) (s u p : bytes) :
  holds_vault host uninit w (chomp pw) L ->
  forallb row_ok L = true ->
  prompts w = Some pw :: rest ->
  show_loop L q = Some (s, u, p) ->
  exists w', cmd_show host uninit (Some q) w = (Ret 0, w') /\
    stdout w' = stdout w ++ show_text s u p.
Proof.
  intros Hv Hok Hp Hshow. unfold cmd_show, bind, prompt_hidden.
  rewrite Hp, xstrdup_chomp.
  destruct (load_vault_run L (chomp pw) (set_prompts rest w)) as (w1 & -> & H1).
  { exact Hv. }
  { exact Hok. }
  destruct H1 as (Hfs1 & Hp1 & Ho1 & He1 & Hf1).
  rewrite Hshow. unfold scrub_free, put, free at 1.
  destruct (lines_free_run L
              (release (secure_bzero (chomp pw ++ [NUL]) (strlen (chomp pw)))
                 (print (show_text s u p) w1)))
    as (w3 & -> & Hfs3 & Hp3 & Ho3 & He3 & Hf3).
  unfold ret. eexists. split; [reflexivity|].
  rewrite Ho3. world_simpl. now rewrite Ho1.
Qed.

End Pipeline.

(** C10. In every environment where OpenSSL meets its contracts, there are
    fields free of tabs and newlines whose joined record is longer than
    1023 bytes, here a service, a user and a password of 1100 bytes, for
    which, on a fresh vault, add returns 0 and reports nothing, yet the row
    it stored, the one the next load returns, is the joined record cut to
    its first 1023 bytes; show then prints a password of 1019 bytes instead
    of the one given. *)
Theorem add_truncates_long_record {ssl : OpenSSL} (host : endianness)
    (uninit : nat -> bytes) (gcm : gcm_contract ssl) (kdf : kdf_contract ssl)
    (rnd : rand_contract ssl) (w : World) (pw : bytes) :
  fs w !! VAULT_FILE = None ->
  fault w = No_fault ->
  let svc := lit "s" in
  let usr := lit "u" in
  let pwd := repeat "a"%char 1100 in
  let joined := svc ++ [TAB] ++ usr ++ [TAB] ++ pwd in
  let stored := svc ++ [TAB] ++ usr ++ [TAB] ++ repeat "a"%char 1019 in
  fields_have_delims svc usr pwd = false /\
  MAX_LINE - 1 < Z.of_nat (length joined) /\
  stored = firstn 1023 joined /\ stored <> joined /\
  exists w1 w2 w3 w4,
    cmd_init host uninit (set_prompts [Some pw; Some pw] w) = (Ret 0, w1) /\
    cmd_add host uninit (Some svc) (Some usr) (Some pwd)
      (set_prompts [Some pw] w1) = (Ret 0, w2) /\
    stderr w2 = stderr w1 /\
    load_vault host uninit (chomp pw) w2 = (Ret [stored], w4) /\
    cmd_show host uninit (Some svc) (set_prompts [Some pw] w2) = (Ret 0, w3) /\
    stdout w3 = stdout w2 ++ show_text svc usr (repeat "a"%char 1019) /\
    repeat "a"%char 1019 <> pwd.
Proof.
  intros Hfs Hf svc usr pwd joined stored.
  split; [vm_compute; reflexivity|]. split; [vm_compute; reflexivity|].
  split; [vm_compute; reflexivity|].
  split.
  { intros H. apply (f_equal (@length ascii)) in H. vm_compute in H.
    discriminate H. }
  destruct (cmd_init_run host uninit gcm kdf rnd pw []
              (set_prompts [Some pw; Some pw] w) Hfs eq_refl Hf)
    as (w1 & E1 & Hv1 & _ & Hf1).
  destruct (cmd_add_run host uninit gcm kdf rnd [] svc usr pwd pw []
              (set_prompts [Some pw] w1)) as (w2 & E2 & Hv2 & _ & Hf2 & _ & He2).
  { apply (holds_vault_fs host uninit w1); [reflexivity | exact Hv1]. }
  { reflexivity. }
  { reflexivity. }
  { exact Hf1. }
  { vm_compute. reflexivity. }
  { vm_compute. reflexivity. }
  assert (Hrow : [] ++ [snprintf_row MAX_LINE svc usr pwd] = [stored])
    by (vm_compute; reflexivity).
  rewrite Hrow in Hv2.
  destruct (load_vault_run host uninit [stored] (chomp pw) w2 Hv2)
    as (w4 & E4 & _).
  { vm_compute. reflexivity. }
  destruct (cmd_show_run host uninit [stored] svc pw []
              (set_prompts [Some pw] w2) svc usr (repeat "a"%char 1019))
    as (w3 & E3 & Ho3).
  { apply (holds_vault_fs host uninit w2); [reflexivity | exact Hv2]. }
  { vm_compute. reflexivity. }
  { reflexivity. }
  { vm_compute. reflexivity. }
  exists w1, w2, w3, w4. repeat split; try assumption.
  intros H. apply (f_equal (@length ascii)) in H. rewrite !repeat_length in H.
  discriminate H.
Qed.

Lemma add_truncates_long_record_witness :
  let w := Toy.start ∅ [] No_fault in
  let pw := lit "Secret1" in
  let svc := lit "s" in
  let usr := lit "u" in
  let pwd := repeat "a"%char 1100 in
  let joined := svc ++ [TAB] ++ usr ++ [TAB] ++ pwd in
  let stored := svc ++ [TAB] ++ usr ++ [TAB] ++ repeat "a"%char 1019 in
  fields_have_delims svc usr pwd = false /\
  MAX_LINE - 1 < Z.of_nat (length joined) /\
  stored = firstn 1023 joined /\ stored <> joined /\
  exists w1 w2 w3 w4,
    cmd_init LittleEndian Toy.uninit (set_prompts [Some pw; Some pw] w)
      = (Ret 0, w1) /\
    cmd_add LittleEndian Toy.uninit (Some svc) (Some usr) (Some pwd)
      (set_prompts [Some pw] w1) = (Ret 0, w2) /\
    stderr w2 = stderr w1 /\
    load_vault LittleEndian Toy.uninit (chomp pw) w2 = (Ret [stored], w4) /\
    cmd_show LittleEndian Toy.uninit (Some svc) (set_prompts [Some pw] w2)
      = (Ret 0, w3) /\
    stdout w3 = stdout w2 ++ show_text svc usr (repeat "a"%char 1019) /\
    repeat "a"%char 1019 <> pwd.
Proof.
  apply (add_truncates_long_record LittleEndian Toy.uninit ToyFacts.gcm_ok
           ToyFacts.kdf_ok ToyFacts.rand_ok (Toy.start ∅ [] No_fault)
           (lit "Secret1")).
  - reflexivity.
  - reflexivity.
Defined.

(** * Further properties of the commands and of the log scanner *)

(** ** Rows that parse returns *)

Lemma split_on_elems_no_sep (d : ascii) (s : bytes) :
  Forall (fun t => mem_byte d t = false) (split_on d s).
Proof.
  induction s as [|c s IH]; cbn [split_on].
  - repeat constructor.
  - destruct (Ascii.eqb c d) eqn:E.
    + constructor; [reflexivity | exact IH].
    + destruct (split_on d s) as [|l ls]; [repeat constructor|].
      * rewrite mem_byte_cons, Ascii.eqb_sym, E. reflexivity.
      * inversion IH; subst. constructor; [|assumption].
        rewrite mem_byte_cons, Ascii.eqb_sym, E. assumption.
Qed.

Lemma kept_lines_ok (s : bytes) :
  mem_byte NUL s = false ->
  forallb row_ok (List.filter keep_line (split_on LF s)) = true.
Proof.
  intros Hn. pose proof (split_on_mem NUL LF s Hn) as H1.
  pose proof (split_on_elems_no_sep LF s) as H2.
  induction (split_on LF s) as [|t l IH]; cbn [List.filter forallb]; auto.
  inversion H1; subst. inversion H2; subst.
  destruct (keep_line t) eqn:K; cbn [forallb]; [|auto].
  rewrite IH by assumption. unfold row_ok.
  rewrite K. repeat match goal with H : mem_byte _ t = false |- _ => rewrite H end.
  reflexivity.
Qed.

(** X1. Whatever parse returns is made of rows that are not empty, hold no
    NUL and no newline and are not comments, and serializing those rows
    and parsing again gives them back. *)
Theorem parsed_rows_are_stable (plain : bytes) (L : Lines) :
  parse_lines plain = Some L ->
  forallb row_ok L = true /\
  forall rest, parse_lines (serialize L ++ NUL :: rest) = Some L.
Proof.
  intros H. rewrite parse_lines_lines in H. inversion H as [HL].
  assert (Hok : forallb row_ok
                  (List.filter keep_line (split_on LF (c_str plain))) = true)
    by apply kept_lines_ok, c_str_no_nul.
  split; [exact Hok|]. intros rest. apply parse_serialize. exact Hok.
Qed.

Lemma parsed_rows_are_stable_witness :
  let plain := lit "junk" ++ [LF; LF] ++ lit "#c" ++ [LF] ++ lit "a" ++ [TAB]
               ++ lit "b" ++ [NUL] ++ lit "tail" in
  let L := [lit "junk"; lit "a" ++ [TAB] ++ lit "b"] in
  forallb row_ok L = true /\
  forall rest, parse_lines (serialize L ++ NUL :: rest) = Some L.
Proof.
  apply (parsed_rows_are_stable
           (lit "junk" ++ [LF; LF] ++ lit "#c" ++ [LF] ++ lit "a" ++ [TAB]
            ++ lit "b" ++ [NUL] ++ lit "tail")).
  vm_compute. reflexivity.
Defined.

(** ** Save, then load *)

(** X2. With OpenSSL meeting its contracts and no injected fault, saving
    rows and loading the file with the same password returns the rows. *)
Theorem save_then_load {ssl : OpenSSL} (host : endianness)
    (uninit : nat -> bytes) (gcm : gcm_contract ssl) (kdf : kdf_contract ssl)
    (rnd : rand_contract ssl) (L : Lines) (pw : bytes) (w : World) :
  fault w = No_fault ->
  forallb row_ok L = true ->
  Z.of_nat (length (serialize L)) < 2 ^ 31 ->
  Z.of_nat (length pw) < 2 ^ 31 ->
  exists w1 w2,
    save_vault host uninit L pw w = (Ret tt, w1) /\
    load_vault host uninit pw w1 = (Ret L, w2) /\
    fs w2 = fs w1 /\ stderr w2 = stderr w.
Proof.
  intros Hf Hok Hlen Hpw.
  destruct (save_vault_run host uninit gcm kdf rnd L pw w Hf Hlen Hpw)
    as (w1 & E1 & Hv & _ & _ & He & _).
  destruct (load_vault_run host uninit L pw w1 Hv Hok)
    as (w2 & E2 & Hfs & _ & _ & He2 & _).
  exists w1, w2. repeat split; try assumption. congruence.
Qed.

Lemma save_then_load_witness :
  let L := [lit "github" ++ [TAB] ++ lit "alice" ++ [TAB] ++ lit "hunter2"] in
  let w := Toy.start ∅ [] No_fault in
  exists w1 w2,
    save_vault LittleEndian Toy.uninit L (lit "Secret1") w = (Ret tt, w1) /\
    load_vault LittleEndian Toy.uninit (lit "Secret1") w1 = (Ret L, w2) /\
    fs w2 = fs w1 /\ stderr w2 = stderr w.
Proof.
  apply (save_then_load LittleEndian Toy.uninit ToyFacts.gcm_ok ToyFacts.kdf_ok
           ToyFacts.rand_ok).
  - reflexivity.
  - vm_compute. reflexivity.
  - vm_compute. reflexivity.
  - vm_compute. reflexivity.
Defined.

(** ** Size of a saved container *)

(** X3. A saved container is 58 bytes longer than its ciphertext, which
    takes as many bytes as the serialized rows (modulo 2^32), and its
    length field, read on the same host, says so. *)
Theorem saved_container_size {ssl : OpenSSL} (host : endianness)
    (uninit : nat -> bytes) (L : Lines) (password : bytes) (w w' : World) :
  save_vault host uninit L password w = (Ret tt, w') ->
  exists c b,
    fs w' !! VAULT_FILE = Some c /\
    Z.of_nat (length c)
      = 58 + to_uint32 (wrap_size (Z.of_nat (length (serialize L)))) /\
    slice c 0 6 = Some MAGIC /\
    slice c 38 4 = Some b /\
    Z.of_nat (length c) = 58 + load32 host b.
Proof.
  intros Hs.
  pose proof (save_vault_cases host uninit L password w) as H.
  rewrite Hs in H.
  destruct H as [(_ & _ & salt & nonce & ct & tag & H) | (H & _)];
    [|discriminate].
  cbv zeta in H. destruct H as (H1 & H2 & H3 & H4 & Hc).
  set (n := to_uint32 (wrap_size (Z.of_nat (length (serialize L))))) in *.
  assert (Hn : 0 <= n < 2 ^ 32).
  { unfold n, to_uint32. apply Z.mod_pos_bound. lia. }
  destruct (assemble_fields host salt nonce ct tag (to_uint32 PBKDF2_ITERS)
              n H1 H2 H3 H4 ltac:(lia)) as (F0 & _ & _ & _ & F4 & _).
  exists (assemble host salt nonce ct tag (to_uint32 PBKDF2_ITERS) n),
    (store32 host n).
  split; [exact Hc|].
  rewrite assemble_length by assumption.
  rewrite load32_store32, (to_uint32_small n) by assumption.
  repeat split; try assumption; lia.
Qed.

Lemma saved_container_size_witness :
  let L := [lit "github" ++ [TAB] ++ lit "alice" ++ [TAB] ++ lit "hunter2"] in
  let w := Toy.start ∅ [] No_fault in
  let w' := snd (save_vault BigEndian Toy.uninit L (lit "pw") w) in
  exists c b,
    fs w' !! VAULT_FILE = Some c /\
    Z.of_nat (length c)
      = 58 + to_uint32 (wrap_size (Z.of_nat (length (serialize L)))) /\
    slice c 0 6 = Some MAGIC /\
    slice c 38 4 = Some b /\
    Z.of_nat (length c) = 58 + load32 BigEndian b.
Proof.
  apply (saved_container_size BigEndian Toy.uninit
           [lit "github" ++ [TAB] ++ lit "alice" ++ [TAB] ++ lit "hunter2"]
           (lit "pw") (Toy.start ∅ [] No_fault)).
  vm_compute. reflexivity.
Defined.

(** ** What show finds and what list prints *)

Lemma show_loop_first_match (L : Lines) (q : bytes) :
  match show_loop L q with
  | Some (s, u, p) =>
      exists L1 r L2 more,
        L = L1 ++ r :: L2 /\
        forallb (fun r' => negb (row_matches q r')) L1 = true /\
        row_fields r = s :: u :: p :: more /\ strcmp_eq s q = true
  | None => forallb (fun r => negb (row_matches q r)) L = true
  end.
Proof.
  induction L as [|r L IH]; [reflexivity|].
  rewrite show_loop_cons. fold (row_fields r).
  assert (Hskip : row_matches q r = false ->
    match show_loop L q with
    | Some (s, u, p) =>
        exists L1 r0 L2 more,
          r :: L = L1 ++ r0 :: L2 /\
          forallb (fun r' => negb (row_matches q r')) L1 = true /\
          row_fields r0 = s :: u :: p :: more /\ strcmp_eq s q = true
    | None => forallb (fun r0 => negb (row_matches q r0)) (r :: L) = true
    end).
  { intros Hm. destruct (show_loop L q) as [[[s u] p]|].
    - destruct IH as (L1 & r0 & L2 & more & -> & H1 & H2 & H3).
      exists (r :: L1), r0, L2, more. cbn [forallb app]. rewrite Hm, H1.
      repeat split; assumption.
    - cbn [forallb]. rewrite Hm, IH. reflexivity. }
  unfold row_matches in Hskip.
  destruct (row_fields r) as [|s [|u [|p more]]] eqn:E; try (apply Hskip; reflexivity).
  destruct (strcmp_eq s q) eqn:Es; [|apply Hskip; reflexivity].
  exists [], r, L, more. repeat split; assumption.
Qed.

Lemma print_print (a b : bytes) {ssl : OpenSSL} (w : World) :
  print b (print a w) = print (a ++ b) w.
Proof. unfold print. cbn. now rewrite app_assoc. Qed.

Lemma print_nil {ssl : OpenSSL} (w : World) : print [] w = w.
Proof. destruct w. unfold print. cbn. now rewrite app_nil_r. Qed.

Lemma list_loop_prints {ssl : OpenSSL} (L : Lines) (w : World) :
  list_loop L w = (Ret tt, print (concat (map list_line L)) w).
Proof.
  revert w. induction L as [|r L IH]; intros w; cbn [list_loop map concat].
  - unfold ret. now rewrite print_nil.
  - unfold list_line at 1, row_fields.
    destruct (strtok_tokens TAB (strncpy_row r MAX_LINE)) as [H _].
    rewrite H.
    destruct (tokens TAB (strncpy_row r MAX_LINE)) as [|t ts]; cbn [hd_error].
    + apply IH.
    + unfold bind, put. rewrite IH, print_print. reflexivity.
Qed.

Section Commands.
Context {ssl : OpenSSL}.
Variable host : endianness.
Variable uninit : nat -> bytes.

(** X4. Given what the load returns, [cmd_show] prints the fields of the
    first row, in insertion order, that has three fields and whose first
    field is the service asked for, and returns 0; when there is none it
    prints nothing, reports it and returns 1. *)
Theorem show_prints_first_match (q pw : bytes) (rest : list (option bytes))
    (w w1 : World) (L : Lines) :
  prompts w = Some pw :: rest ->
  load_vault host uninit (chomp pw) (set_prompts rest w) = (Ret L, w1) ->
  exists w',
    (exists L1 r L2 s u p more,
       L = L1 ++ r :: L2 /\
       forallb (fun r' => negb (row_matches q r')) L1 = true /\
       row_fields r = s :: u :: p :: more /\ strcmp_eq s q = true /\
       cmd_show host uninit (Some q) w = (Ret 0, w') /\
       stdout w' = stdout w ++ show_text s u p /\ stderr w' = stderr w) \/
    (forallb (fun r => negb (row_matches q r)) L = true /\
     cmd_show host uninit (Some q) w = (Ret 1, w') /\
     stdout w' = stdout w /\
     stderr w' = stderr w ++ [Msg_no_entry_found (c_str q)]).
Proof.
  intros Hp Hl.
  pose proof (load_vault_outcome host uninit (chomp pw) (set_prompts rest w)) as Ho.
  rewrite Hl in Ho. destruct Ho as (_ & _ & Hout & _ & _ & Herr & _).
  world_simpl.
  pose proof (show_loop_first_match L q) as Hs.
  unfold cmd_show, bind, prompt_hidden. rewrite Hp, xstrdup_chomp, Hl.
  destruct (show_loop L q) as [[[s u] p]|].
  - destruct Hs as (L1 & r & L2 & more & HL & H1 & H2 & H3).
    unfold scrub_free, put, free at 1.
    destruct (lines_free_run L
                (release (secure_bzero (chomp pw ++ [NUL]) (strlen (chomp pw)))
                   (print (show_text s u p) w1)))
      as (w3 & -> & _ & _ & Ho3 & He3 & _).
    exists w3. left. exists L1, r, L2, s, u, p, more. unfold ret.
    world_simpl.
    repeat split;
      first [assumption | reflexivity
            | rewrite Ho3, Hout; reflexivity | rewrite He3, Herr; reflexivity].
  - unfold scrub_free, say, free.
    destruct (lines_free_run L
                (release (secure_bzero (chomp pw ++ [NUL]) (strlen (chomp pw)))
                   (eprint (Msg_no_entry_found (c_str q)) w1)))
      as (w3 & -> & _ & _ & Ho3 & He3 & _).
    exists w3. right. unfold ret. world_simpl.
    repeat split;
      first [assumption | reflexivity
            | rewrite Ho3, Hout; reflexivity | rewrite He3, Herr; reflexivity].
Qed.

(** X5. Given what the load returns, [cmd_list] returns 0 and prints, in
    insertion order, the first field of every row that has one, each on
    its own line. *)
Theorem list_prints_first_fields (pw : bytes) (rest : list (option bytes))
    (w w1 : World) (L : Lines) :
  prompts w = Some pw :: rest ->
  load_vault host uninit (chomp pw) (set_prompts rest w) = (Ret L, w1) ->
  exists w', cmd_list host uninit w = (Ret 0, w') /\
    stdout w' = stdout w ++ concat (map list_line L) /\
    stderr w' = stderr w.
Proof.
  intros Hp Hl.
  pose proof (load_vault_outcome host uninit (chomp pw) (set_prompts rest w)) as Ho.
  rewrite Hl in Ho. destruct Ho as (_ & _ & Hout & _ & _ & Herr & _).
  world_simpl.
  unfold cmd_list, bind, prompt_hidden. rewrite Hp, xstrdup_chomp, Hl.
  rewrite list_loop_prints. unfold scrub_free, free at 1.
  destruct (lines_free_run L
              (release (secure_bzero (chomp pw ++ [NUL]) (strlen (chomp pw)))
                 (print (concat (map list_line L)) w1)))
    as (w3 & -> & _ & _ & Ho3 & He3 & _).
  exists w3. unfold ret. world_simpl.
  repeat split;
    first [rewrite Ho3, Hout; reflexivity | rewrite He3, Herr; reflexivity].
Qed.

End Commands.

Lemma show_prints_first_match_witness :
  let L := [lit "mail" ++ [TAB] ++ lit "bob";
            lit "github" ++ [TAB] ++ lit "alice" ++ [TAB] ++ lit "hunter2";
            lit "github" ++ [TAB] ++ lit "carol" ++ [TAB] ++ lit "other"] in
  let w0 := snd (save_vault LittleEndian Toy.uninit L (lit "Secret1")
                   (Toy.start ∅ [] No_fault)) in
  let w := set_prompts [Some (lit "Secret1" ++ [LF])] w0 in
  let q := lit "github" in
  exists w',
    (exists L1 r L2 s u p more,
       L = L1 ++ r :: L2 /\
       forallb (fun r' => negb (row_matches q r')) L1 = true /\
       row_fields r = s :: u :: p :: more /\ strcmp_eq s q = true /\
       cmd_show LittleEndian Toy.uninit (Some q) w = (Ret 0, w') /\
       stdout w' = stdout w ++ show_text s u p /\ stderr w' = stderr w) \/
    (forallb (fun r => negb (row_matches q r)) L = true /\
     cmd_show LittleEndian Toy.uninit (Some q) w = (Ret 1, w') /\
     stdout w' = stdout w /\
     stderr w' = stderr w ++ [Msg_no_entry_found (c_str q)]).
Proof.
  cbv zeta.
  apply (show_prints_first_match LittleEndian Toy.uninit (lit "github")
           (lit "Secret1" ++ [LF]) []
           (set_prompts [Some (lit "Secret1" ++ [LF])]
              (snd (save_vault LittleEndian Toy.uninit
                 [lit "mail" ++ [TAB] ++ lit "bob";
                  lit "github" ++ [TAB] ++ lit "alice" ++ [TAB] ++ lit "hunter2";
                  lit "github" ++ [TAB] ++ lit "carol" ++ [TAB] ++ lit "other"]
                 (lit "Secret1") (Toy.start ∅ [] No_fault))))
           (snd (load_vault LittleEndian Toy.uninit (chomp (lit "Secret1" ++ [LF]))
              (set_prompts []
                (set_prompts [Some (lit "Secret1" ++ [LF])]
                  (snd (save_vault LittleEndian Toy.uninit
                     [lit "mail" ++ [TAB] ++ lit "bob";
                      lit "github" ++ [TAB] ++ lit "alice" ++ [TAB] ++ lit "hunter2";
                      lit "github" ++ [TAB] ++ lit "carol" ++ [TAB] ++ lit "other"]
                     (lit "Secret1") (Toy.start ∅ [] No_fault)))))))).
  - reflexivity.
  - vm_compute. reflexivity.
Defined.

Lemma list_prints_first_fields_witness :
  let L := [lit "mail" ++ [TAB] ++ lit "bob";
            lit "github" ++ [TAB] ++ lit "alice" ++ [TAB] ++ lit "hunter2"] in
  let w0 := snd (save_vault LittleEndian Toy.uninit L (lit "Secret1")
                   (Toy.start ∅ [] No_fault)) in
  let w := set_prompts [Some (lit "Secret1" ++ [LF])] w0 in
  exists w', cmd_list LittleEndian Toy.uninit w = (Ret 0, w') /\
    stdout w' = stdout w ++ concat (map list_line L) /\
    stderr w' = stderr w.
Proof.
  cbv zeta.
  apply (list_prints_first_fields LittleEndian Toy.uninit
           (lit "Secret1" ++ [LF]) []
           (set_prompts [Some (lit "Secret1" ++ [LF])]
              (snd (save_vault LittleEndian Toy.uninit
                 [lit "mail" ++ [TAB] ++ lit "bob";
                  lit "github" ++ [TAB] ++ lit "alice" ++ [TAB] ++ lit "hunter2"]
                 (lit "Secret1") (Toy.start ∅ [] No_fault))))
           (snd (load_vault LittleEndian Toy.uninit (chomp (lit "Secret1" ++ [LF]))
              (set_prompts []
                (set_prompts [Some (lit "Secret1" ++ [LF])]
                  (snd (save_vault LittleEndian Toy.uninit
                     [lit "mail" ++ [TAB] ++ lit "bob";
                      lit "github" ++ [TAB] ++ lit "alice" ++ [TAB] ++ lit "hunter2"]
                     (lit "Secret1") (Toy.start ∅ [] No_fault)))))))).
  - reflexivity.
  - vm_compute. reflexivity.
Defined.

(** ** Commands that fail, and commands that only read *)

Lemma lines_free_frees {ssl : OpenSSL} (L : Lines) (w : World) :
  lines_free L w
  = (Ret tt, mkWorld _ (fs w) (rng w) (prompts w) (fault w) (stdout w)
               (stderr w) (freed w ++ map (fun r => r ++ [NUL]) L)).
Proof.
  revert w. induction L as [|r L IH]; intros w; cbn [lines_free map].
  - unfold ret. rewrite app_nil_r. destruct w; reflexivity.
  - unfold bind, free. rewrite IH. world_simpl.
    rewrite <- app_assoc. reflexivity.
Qed.

Lemma scrubbed_password (pw : bytes) :
  mem_byte NUL pw = false ->
  secure_bzero (pw ++ [NUL]) (strlen pw) = repeat NUL (S (length pw)).
Proof.
  intros H. unfold secure_bzero.
  rewrite strlen_nul_free by assumption.
  rewrite length_app, Nat.min_l by lia.
  rewrite write_at_0, repeat_length, skipn_app, Nat.sub_diag, skipn_all.
  cbn [skipn app]. replace (S (length pw)) with (length pw + 1)%nat by lia.
  rewrite repeat_app. reflexivity.
Qed.

Section Failures.
Context {ssl : OpenSSL}.
Variable host : endianness.
Variable uninit : nat -> bytes.

(** X6. [cmd_list] and [cmd_show] leave every file as it was, whatever the
    vault holds, whatever is typed and whatever OpenSSL answers. *)
Theorem readers_change_no_file (svc_q : option bytes) (w : World) :
  fs (snd (cmd_list host uninit w)) = fs w /\
  fs (snd (cmd_show host uninit svc_q w)) = fs w.
Proof.
  assert (Hload : forall pw rest,
    let '(r, w') := load_vault host uninit pw (set_prompts rest w) in
    fs w' = fs w /\ r <> OutOfBounds /\ r <> NoTermination).
  { intros pw rest.
    pose proof (load_vault_outcome host uninit pw (set_prompts rest w)) as H.
    destruct (load_vault host uninit pw (set_prompts rest w)) as [r w'].
    destruct H as (H & _ & _ & _ & _ & Hr). split; [exact H|].
    destruct r; try contradiction; split; discriminate. }
  split.
  - unfold cmd_list, bind, prompt_hidden.
    destruct (prompts w) as [|[pw|] rest]; try reflexivity.
    specialize (Hload (xstrdup (chomp pw)) rest).
    destruct (load_vault host uninit (xstrdup (chomp pw)) (set_prompts rest w))
      as [[L| | |] w1]; destruct Hload as (H & ? & ?); try congruence;
      try exact H.
    rewrite list_loop_prints. unfold scrub_free, free.
    rewrite lines_free_frees. exact H.
  - destruct svc_q as [q|]; [|reflexivity].
    unfold cmd_show, bind, prompt_hidden.
    destruct (prompts w) as [|[pw|] rest]; try reflexivity.
    specialize (Hload (xstrdup (chomp pw)) rest).
    destruct (load_vault host uninit (xstrdup (chomp pw)) (set_prompts rest w))
      as [[L| | |] w1]; destruct Hload as (H & ? & ?); try congruence;
      try exact H.
    destruct (show_loop L q) as [[[s u] p]|];
      unfold scrub_free, free, put, say; rewrite lines_free_frees; exact H.
Qed.

(** X7. When the two passwords typed at [cmd_init] differ, no file is
    created, the mismatch is reported, both copies are zeroed before they
    are freed, and the command returns 1. *)
Theorem init_mismatch_writes_nothing (p1 p2 : bytes)
    (rest : list (option bytes)) (w : World) :
  fs w !! VAULT_FILE = None ->
  prompts w = Some p1 :: Some p2 :: rest ->
  chomp p1 <> chomp p2 ->
  exists w', cmd_init host uninit w = (Ret 1, w') /\
    fs w' = fs w /\ rng w' = rng w /\ stdout w' = stdout w /\
    stderr w' = stderr w ++ [Msg_passwords_do_not_match] /\
    freed w' = freed w ++ [repeat NUL (S (length (chomp p1)));
                           repeat NUL (S (length (chomp p2)))].
Proof.
  intros Hfs Hp Hne. unfold cmd_init, bind, file_exists, prompt_hidden.
  rewrite Hfs, bool_decide_eq_false_2 by (intros [? ?]; discriminate).
  rewrite Hp. world_simpl. rewrite !xstrdup_chomp.
  unfold strcmp_eq. rewrite !(c_str_nul_free (chomp _)) by apply chomp_no_nul.
  rewrite bool_decide_eq_false_2 by assumption. cbn [negb].
  unfold say, scrub_free, free, ret.
  rewrite !scrubbed_password by apply chomp_no_nul.
  eexists. split; [reflexivity|]. world_simpl.
  rewrite <- app_assoc. repeat split.
Qed.

(** X8. When a password prompt of [cmd_init] fails, no file is created and
    the command returns 1; a first password already read is neither
    zeroed nor freed. *)
Theorem init_prompt_failure (a b : option bytes)
    (rest : list (option bytes)) (w : World) :
  fs w !! VAULT_FILE = None ->
  prompts w = a :: b :: rest ->
  a = None \/ b = None ->
  cmd_init host uninit w
  = (Ret 1, eprint Msg_password_input_failed (set_prompts rest w)).
Proof.
  intros Hfs Hp Hab. unfold cmd_init, bind, file_exists, prompt_hidden.
  rewrite Hfs, bool_decide_eq_false_2 by (intros [? ?]; discriminate).
  rewrite Hp. world_simpl.
  destruct a as [a|], b as [b|]; world_simpl;
    try (destruct Hab; discriminate); reflexivity.
Qed.

(** X9. Without a vault file, [cmd_list], [cmd_show] and [cmd_add] (on
    fields it accepts) ask for the master password first, then report the
    missing vault and exit with status 1; nothing is created. *)
Theorem no_vault_commands_exit (svc usr pwd q pw : bytes)
    (rest : list (option bytes)) (w : World) :
  fs w !! VAULT_FILE = None ->
  prompts w = Some pw :: rest ->
  fields_have_delims svc usr pwd = false ->
  let w' := eprint Msg_no_vault (set_prompts rest w) in
  cmd_list host uninit w = (Exit 1, w') /\
  cmd_show host uninit (Some q) w = (Exit 1, w') /\
  cmd_add host uninit (Some svc) (Some usr) (Some pwd) w = (Exit 1, w').
Proof.
  intros Hfs Hp Hd w'.
  assert (Hl : load_vault host uninit (xstrdup (chomp pw)) (set_prompts rest w)
               = (Exit 1, w')).
  { unfold load_vault, bind, read_all. world_simpl. rewrite Hfs. reflexivity. }
  repeat split.
  - unfold cmd_list, bind, prompt_hidden. rewrite Hp, Hl. reflexivity.
  - unfold cmd_show, bind, prompt_hidden. rewrite Hp, Hl. reflexivity.
  - unfold cmd_add, bind, prompt_hidden. unfold fields_have_delims in Hd.
    rewrite Hd, Hp, Hl. reflexivity.
Qed.

End Failures.

Lemma init_mismatch_writes_nothing_witness :
  let w := Toy.start ∅ [Some (lit "Secret1" ++ [LF]); Some (lit "Secret2" ++ [LF])]
             No_fault in
  exists w', cmd_init LittleEndian Toy.uninit w = (Ret 1, w') /\
    fs w' = fs w /\ rng w' = rng w /\ stdout w' = stdout w /\
    stderr w' = stderr w ++ [Msg_passwords_do_not_match] /\
    freed w' = freed w ++ [repeat NUL 8; repeat NUL 8].
Proof.
  apply (init_mismatch_writes_nothing LittleEndian Toy.uninit
           (lit "Secret1" ++ [LF]) (lit "Secret2" ++ [LF]) []
           (Toy.start ∅ [Some (lit "Secret1" ++ [LF]); Some (lit "Secret2" ++ [LF])]
              No_fault)).
  - reflexivity.
  - reflexivity.
  - vm_compute. discriminate.
Defined.

Lemma init_prompt_failure_witness :
  let w := Toy.start ∅ [Some (lit "Secret1" ++ [LF]); None] No_fault in
  cmd_init LittleEndian Toy.uninit w
  = (Ret 1, eprint Msg_password_input_failed (set_prompts [] w)).
Proof.
  apply (init_prompt_failure LittleEndian Toy.uninit
           (Some (lit "Secret1" ++ [LF])) None []
           (Toy.start ∅ [Some (lit "Secret1" ++ [LF]); None] No_fault)).
  - reflexivity.
  - reflexivity.
  - right. reflexivity.
Defined.

Lemma no_vault_commands_exit_witness :
  let w := Toy.start ∅ [Some (lit "Secret1" ++ [LF])] No_fault in
  let w' := eprint Msg_no_vault (set_prompts [] w) in
  cmd_list LittleEndian Toy.uninit w = (Exit 1, w') /\
  cmd_show LittleEndian Toy.uninit (Some (lit "github")) w = (Exit 1, w') /\
  cmd_add LittleEndian Toy.uninit (Some (lit "github")) (Some (lit "alice"))
    (Some (lit "hunter2")) w = (Exit 1, w').
Proof.
  apply (no_vault_commands_exit LittleEndian Toy.uninit (lit "github")
           (lit "alice") (lit "hunter2") (lit "github") (lit "Secret1" ++ [LF]) []
           (Toy.start ∅ [Some (lit "Secret1" ++ [LF])] No_fault)).
  - reflexivity.
  - reflexivity.
  - vm_compute. reflexivity.
Defined.

(** ** Adding, then reading back *)

(** Rows without NUL and newline: what [serialize] writes as one line each. *)
Lemma serialize_rows_lines (L : Lines) :
  forallb (fun r => negb (mem_byte NUL r) && negb (mem_byte LF r)) L = true ->
  mem_byte NUL (serialize_rows L) = false /\
  split_on LF (serialize_rows L) = L ++ [[]].
Proof.
  induction L as [|r L IH]; cbn [forallb serialize_rows]; intros H.
  - split; reflexivity.
  - apply andb_true_iff in H as [Hr HL]. destruct (IH HL) as [IH1 IH2].
    apply andb_true_iff in Hr as [Hn Hl].
    apply negb_true_iff in Hn, Hl.
    rewrite strlen_nul_free, firstn_all by assumption. split.
    + rewrite !mem_byte_app, Hn, IH1. reflexivity.
    + cbn [app]. rewrite split_on_app_sep by assumption. now rewrite IH2.
Qed.

Lemma parse_serialize_kept (L : Lines) (rest : bytes) :
  forallb (fun r => negb (mem_byte NUL r) && negb (mem_byte LF r)) L = true ->
  parse_lines (serialize L ++ NUL :: rest) = Some (List.filter keep_line L).
Proof.
  intros H. rewrite parse_lines_lines.
  destruct (serialize_rows_lines L H) as [Hn Hs].
  rewrite c_str_app_nul
    by (unfold serialize; rewrite mem_byte_app, Hn; reflexivity).
  unfold serialize, hdr. rewrite <- app_assoc. cbn [app].
  rewrite split_on_app_sep by reflexivity.
  rewrite Hs.
  cbn [List.filter]. change (keep_line (lit "# AES_VAULT (authenticated)")) with false.
  cbv iota. f_equal. rewrite List.filter_app. cbn [List.filter keep_line nonempty andb].
  apply app_nil_r.
Qed.

Lemma row_ok_clean (L : Lines) :
  forallb row_ok L = true ->
  forallb (fun r => negb (mem_byte NUL r) && negb (mem_byte LF r)) L = true.
Proof.
  induction L as [|r L IH]; cbn [forallb]; [reflexivity|].
  intros H. apply andb_true_iff in H as [Hr HL]. rewrite (IH HL).
  unfold row_ok in Hr. apply andb_true_iff in Hr as [-> _]. reflexivity.
Qed.

Lemma snprintf_row_clean (svc usr pwd : bytes) :
  fields_have_delims svc usr pwd = false ->
  let row := snprintf_row MAX_LINE svc usr pwd in
  mem_byte NUL row = false /\ mem_byte LF row = false /\
  keep_line row = negb (is_comment (c_str svc)).
Proof.
  intros Hd row. destruct (fields_ok_split _ _ _ Hd) as (L1 & L2 & L3).
  unfold row, snprintf_row. repeat split.
  - apply mem_byte_firstn. rewrite !mem_byte_app, !c_str_no_nul. reflexivity.
  - apply mem_byte_firstn. rewrite !mem_byte_app, L1, L2, L3. reflexivity.
  - change (Z.to_nat (MAX_LINE - 1)) with (S 1022).
    destruct (c_str svc) as [|c s']; cbn [app firstn]; reflexivity.
Qed.

Lemma show_loop_app (L1 L2 : Lines) (q : bytes) :
  forallb (fun r => negb (row_matches q r)) L1 = true ->
  show_loop (L1 ++ L2) q = show_loop L2 q.
Proof.
  induction L1 as [|r L1 IH]; cbn [forallb app]; [reflexivity|].
  intros H. apply andb_true_iff in H as [Hr HL].
  rewrite show_loop_cons, (IH HL).
  apply negb_true_iff in Hr. unfold row_matches, row_fields in Hr.
  destruct (tokens TAB (strncpy_row r MAX_LINE)) as [|s [|u [|p more]]];
    try reflexivity.
  rewrite Hr. reflexivity.
Qed.

Lemma tokens_three (d : ascii) (s u p : bytes) :
  mem_byte d s = false -> mem_byte d u = false -> mem_byte d p = false ->
  tokens d (s ++ [d] ++ u ++ [d] ++ p)
  = List.filter nonempty [s; u; p].
Proof.
  intros Hs Hu Hp. unfold tokens. cbn [app].
  rewrite split_on_app_sep, split_on_app_sep, split_on_no_sep by assumption.
  reflexivity.
Qed.

(** Truncation adds no field. *)
Lemma tokens_firstn_length (d : ascii) (s : bytes) (k : nat) :
  (length (tokens d (firstn k s)) <= length (tokens d s))%nat.
Proof.
  unfold tokens.
  enough (H : forall k,
    (length (List.filter nonempty (split_on d (firstn k s)))
       <= length (List.filter nonempty (split_on d s)))%nat /\
    (length (List.filter nonempty (tl (split_on d (firstn k s))))
       <= length (List.filter nonempty (tl (split_on d s))))%nat)
    by apply H.
  clear k. induction s as [|c s IH]; intros k.
  - rewrite firstn_nil. split; reflexivity.
  - destruct k as [|k]; cbn [firstn split_on].
    + cbn [List.filter nonempty tl length]. split; lia.
    + destruct (IH k) as [A B]. destruct (Ascii.eqb c d).
      * cbn [List.filter nonempty tl]. split; exact A.
      * destruct (split_on d (firstn k s)) as [|l ls],
                 (split_on d s) as [|l' ls'];
          cbn [List.filter nonempty tl length] in *; split; lia.
Qed.

Section Compose.
Context {ssl : OpenSSL}.
Variable host : endianness.
Variable uninit : nat -> bytes.
Hypothesis gcm : gcm_contract ssl.
Hypothesis kdf : kdf_contract ssl.
Hypothesis rnd : rand_contract ssl.

Lemma load_vault_kept (L : Lines) (pw : bytes) (w : World) :
  holds_vault host uninit w pw L ->
  forallb (fun r => negb (mem_byte NUL r) && negb (mem_byte LF r)) L = true ->
  exists w', load_vault host uninit pw w = (Ret (List.filter keep_line L), w') /\
    fs w' = fs w /\ prompts w' = prompts w /\ stdout w' = stdout w /\
    stderr w' = stderr w /\ fault w' = fault w.
Proof.
  intros (Hlen & salt & nonce & ct & tag & key & x & Hfile & Hs & Hn & Hc
          & Ht & Ekdf & Edec) Hok.
  set (plain := serialize L) in *.
  set (plen := Z.of_nat (length plain)) in *.
  assert (Hp : 0 <= plen) by (unfold plen; lia).
  assert (E : fst (load_vault host uninit pw w) = Ret (List.filter keep_line L)).
  { destruct (assemble_fields host salt nonce ct tag (to_uint32 PBKDF2_ITERS)
                plen ltac:(lia) ltac:(lia) ltac:(unfold plen; lia) ltac:(lia) Hp)
      as (F0 & F1 & F2 & F3 & F4 & F5 & F6).
    unfold load_vault, bind, read_all, read_slice. rewrite Hfile.
    rewrite assemble_length by (unfold plen; lia).
    replace (Z.of_nat (58 + Z.to_nat plen)) with (58 + plen) by lia.
    rewrite (wrap_size_small (58 + plen)) by lia.
    unfold MAGIC_LEN, SALT_LEN, NONCE_LEN, TAG_LEN.
    destruct (Z.ltb_spec (58 + plen) 6); [lia|].
    rewrite F0, bool_decide_eq_true_2 by reflexivity. cbn [negb].
    change (wrap_size (6 + 4 + 16 + 12 + 4 + 16)) with 58.
    destruct (Z.ltb_spec (58 + plen) 58); [lia|].
    rewrite F1. change (wrap_size (6 + 4)) with 10.
    rewrite F2. change (wrap_size (10 + 16)) with 26.
    rewrite F3. change (wrap_size (26 + 12)) with 38.
    rewrite F4. change (wrap_size (38 + 4)) with 42.
    rewrite !load32_store32.
    rewrite (to_uint32_small plen) by lia.
    replace (to_uint32 (to_uint32 PBKDF2_ITERS)) with PBKDF2_ITERS by reflexivity.
    rewrite (wrap_size_small (42 + plen + 16)) by lia.
    rewrite (wrap_size_small (42 + plen)) by lia.
    rewrite (wrap_size_small (plen + 1)) by lia.
    destruct (Z.ltb_spec (58 + plen) (42 + plen + 16)); [lia|].
    rewrite F5, F6.
    rewrite (firstn_all2 salt), (firstn_all2 nonce), (firstn_all2 tag) by lia.
    rewrite (firstn_all2 ct) by (unfold plen; lia).
    unfold SALT_LEN, NONCE_LEN, TAG_LEN in Ekdf, Edec.
    rewrite Ekdf. cbn [Z.eqb negb]. rewrite Edec. cbn [Z.eqb negb].
    unfold plen at 1. rewrite Nat2Z.id, write_at_end by reflexivity.
    unfold plain at 1. rewrite (parse_serialize_kept L []) by assumption.
    reflexivity. }
  pose proof (load_vault_outcome host uninit pw w) as H.
  destruct (load_vault host uninit pw w) as [r w']. cbn [fst] in E. subst r.
  destruct H as (H1 & H2 & H3 & H4 & _ & H5 & _).
  exists w'. repeat split; assumption.
Qed.

Lemma loaded_rows_ok (pw : bytes) (w w1 : World) (L : Lines) :
  load_vault host uninit pw w = (Ret L, w1) -> forallb row_ok L = true.
Proof.
  intros Hl. pose proof (load_vault_outcome host uninit pw w) as H.
  rewrite Hl in H.
  destruct H as (_ & _ & _ & _ & _ & _ & k & n & c & cl & t & p & _ & Hp).
  rewrite parse_lines_lines in Hp. inversion Hp.
  apply kept_lines_ok, c_str_no_nul.
Qed.

Lemma cmd_add_from_load (L : Lines) (svc usr pwd pw : bytes)
    (rest : list (option bytes)) (w w1 : World) :
  prompts w = Some pw :: rest ->
  fault w = No_fault ->
  load_vault host uninit (chomp pw) (set_prompts rest w) = (Ret L, w1) ->
  fields_have_delims svc usr pwd = false ->
  let row := snprintf_row MAX_LINE svc usr pwd in
  Z.of_nat (length (serialize (L ++ [row]))) < 2 ^ 31 ->
  exists w', cmd_add host uninit (Some svc) (Some usr) (Some pwd) w = (Ret 0, w') /\
    holds_vault host uninit w' (chomp pw) (L ++ [row]) /\
    prompts w' = rest /\ fault w' = No_fault /\
    stdout w' = stdout w ++ lit "Added entry for service: " ++ c_str svc ++ [LF] /\
    stderr w' = stderr w.
Proof.
  intros Hp Hf Hl Hd row Hlen.
  destruct (snprintf_row_clean svc usr pwd Hd) as (Hn & _ & _). fold row in Hn.
  pose proof (load_vault_outcome host uninit (chomp pw) (set_prompts rest w)) as Ho.
  rewrite Hl in Ho. destruct Ho as (Hfs1 & Hp1 & Ho1 & Hf1 & _ & He1 & _).
  world_simpl.
  unfold fields_have_delims in Hd.
  unfold cmd_add, bind, prompt_hidden. rewrite Hd, Hp, xstrdup_chomp, Hl.
  fold row. unfold lines_push, xstrdup.
  rewrite (c_str_nul_free row) by assumption.
  destruct (save_vault_run host uninit gcm kdf rnd (L ++ [row]) (chomp pw) w1)
    as (w2 & -> & Hv2 & Hp2 & Ho2 & He2 & Hf2).
  { rewrite Hf1. exact Hf. }
  { exact Hlen. }
  { apply chomp_bound. }
  unfold scrub_free, free at 1. rewrite lines_free_frees.
  unfold put, ret. eexists. split; [reflexivity|].
  split; [apply (holds_vault_fs host uninit w2); [reflexivity | exact Hv2]|].
  world_simpl. split; [congruence|]. split; [congruence|].
  split; [rewrite Ho2, Ho1; reflexivity | congruence].
Qed.

(** X10. After a successful load of the rows [L], [cmd_add] on fields it
    accepts returns 0, and the next load with the same password returns
    [L] followed by the new row; when the service begins with [#] the
    stored row is read as a comment and the load returns [L] alone. *)
Theorem add_then_load (L : Lines) (svc usr pwd pw : bytes)
    (rest : list (option bytes)) (w w1 : World) :
  prompts w = Some pw :: rest ->
  fault w = No_fault ->
  load_vault host uninit (chomp pw) (set_prompts rest w) = (Ret L, w1) ->
  fields_have_delims svc usr pwd = false ->
  let row := snprintf_row MAX_LINE svc usr pwd in
  Z.of_nat (length (serialize (L ++ [row]))) < 2 ^ 31 ->
  exists w2 w3,
    cmd_add host uninit (Some svc) (Some usr) (Some pwd) w = (Ret 0, w2) /\
    load_vault host uninit (chomp pw) w2
    = (Ret (if is_comment (c_str svc) then L else L ++ [row]), w3).
Proof.
  intros Hp Hf Hl Hd row Hlen.
  destruct (cmd_add_from_load L svc usr pwd pw rest w w1 Hp Hf Hl Hd Hlen)
    as (w2 & E2 & Hv & _).
  pose proof (loaded_rows_ok _ _ _ _ Hl) as Hok.
  destruct (snprintf_row_clean svc usr pwd Hd) as (Hn & Hlf & Hk).
  fold row in Hv, Hn, Hlf, Hk.
  destruct (load_vault_kept (L ++ [row]) (chomp pw) w2 Hv) as (w3 & E3 & _).
  { rewrite forallb_app, (row_ok_clean L Hok). cbn [forallb].
    rewrite Hn, Hlf. reflexivity. }
  exists w2, w3. split; [exact E2|]. rewrite E3. do 2 f_equal.
  rewrite List.filter_app. cbn [List.filter]. rewrite Hk.
  pose proof (filter_keep_rows L Hok) as HL.
  rewrite List.filter_app in HL. cbn [List.filter keep_line nonempty andb] in HL.
  rewrite app_nil_r in HL. rewrite HL.
  destruct (is_comment (c_str svc)); cbn [negb]; [apply app_nil_r | reflexivity].
Qed.

(** X11. An entry added with three non-empty fields that fit the line
    buffer, under a service no earlier row answers to and that does not
    begin with [#], is what [cmd_show] prints for that service. *)
Theorem add_then_show (L : Lines) (svc usr pwd pw : bytes)
    (rest : list (option bytes)) (w w1 : World) :
  prompts w = Some pw :: Some pw :: rest ->
  fault w = No_fault ->
  load_vault host uninit (chomp pw) (set_prompts (Some pw :: rest) w)
    = (Ret L, w1) ->
  fields_have_delims svc usr pwd = false ->
  is_comment (c_str svc) = false ->
  c_str svc <> [] -> c_str usr <> [] -> c_str pwd <> [] ->
  (length (c_str svc) + length (c_str usr) + length (c_str pwd) + 2
     <= 1023)%nat ->
  forallb (fun r => negb (row_matches svc r)) L = true ->
  Z.of_nat (length (serialize (L ++ [snprintf_row MAX_LINE svc usr pwd])))
    < 2 ^ 31 ->
  exists w2 w3,
    cmd_add host uninit (Some svc) (Some usr) (Some pwd) w = (Ret 0, w2) /\
    cmd_show host uninit (Some svc) w2 = (Ret 0, w3) /\
    stdout w3 = stdout w2 ++ show_text (c_str svc) (c_str usr) (c_str pwd).
Proof.
  intros Hp Hf Hl Hd Hc Hs Hu Hpw Hfit Hno Hlen.
  destruct (cmd_add_from_load L svc usr pwd pw (Some pw :: rest) w w1
              Hp Hf Hl Hd Hlen) as (w2 & E2 & Hv & Hp2 & _).
  pose proof (loaded_rows_ok _ _ _ _ Hl) as Hok.
  destruct (snprintf_row_clean svc usr pwd Hd) as (Hn & Hlf & Hk).
  set (row := snprintf_row MAX_LINE svc usr pwd) in *.
  assert (Hrow : row = c_str svc ++ [TAB] ++ c_str usr ++ [TAB] ++ c_str pwd).
  { unfold row, snprintf_row. apply firstn_all2.
    rewrite !length_app. cbn [length].
    change (Z.to_nat (MAX_LINE - 1)) with 1023%nat. lia. }
  assert (Hshow : show_loop (L ++ [row]) svc
                  = Some (c_str svc, c_str usr, c_str pwd)).
  { rewrite (show_loop_app L [row] svc Hno), show_loop_cons.
    unfold strncpy_row. rewrite (c_str_nul_free row) by assumption.
    rewrite Hrow at 1. rewrite firstn_all2
      by (rewrite !length_app; cbn [length];
          change (Z.to_nat (MAX_LINE - 1)) with 1023%nat; lia).
    unfold fields_have_delims, strchr in Hd.
    repeat (apply orb_false_iff in Hd as [Hd ?]).
    rewrite tokens_three by assumption.
    destruct (c_str svc) as [|a s'] eqn:Es; [contradiction|].
    destruct (c_str usr) as [|b u'] eqn:Eu; [contradiction|].
    destruct (c_str pwd) as [|c p'] eqn:Ep; [contradiction|].
    cbn [List.filter nonempty]. unfold strcmp_eq.
    rewrite bool_decide_eq_true_2; [reflexivity|].
    rewrite <- Es. apply c_str_nul_free, c_str_no_nul. }
  destruct (cmd_show_run host uninit (L ++ [row]) svc pw rest w2
              (c_str svc) (c_str usr) (c_str pwd)) as (w3 & E3 & Ho3).
  { exact Hv. }
  { rewrite forallb_app, Hok. cbn [forallb]. unfold row_ok.
    rewrite Hn, Hlf, Hk, Hc. reflexivity. }
  { exact Hp2. }
  { exact Hshow. }
  exists w2, w3. repeat split; assumption.
Qed.

End Compose.

(** X12. An entry added with an empty service, user or password is stored
    but never shown: the loop of [cmd_show] passes over its row whatever
    the service asked for. *)
Theorem add_empty_field_not_shown (svc usr pwd : bytes) (rows : Lines)
    (q : bytes) :
  fields_have_delims svc usr pwd = false ->
  c_str svc = [] \/ c_str usr = [] \/ c_str pwd = [] ->
  show_loop (snprintf_row MAX_LINE svc usr pwd :: rows) q = show_loop rows q.
Proof.
  intros Hd He. rewrite show_loop_cons.
  destruct (snprintf_row_clean svc usr pwd Hd) as (Hn & _ & _).
  unfold strncpy_row. rewrite c_str_nul_free by assumption.
  unfold snprintf_row.
  pose proof (tokens_firstn_length TAB
    (firstn (Z.to_nat (MAX_LINE - 1))
       (c_str svc ++ [TAB] ++ c_str usr ++ [TAB] ++ c_str pwd))
    (Z.to_nat (MAX_LINE - 1))) as H1.
  pose proof (tokens_firstn_length TAB
    (c_str svc ++ [TAB] ++ c_str usr ++ [TAB] ++ c_str pwd)
    (Z.to_nat (MAX_LINE - 1))) as H2.
  unfold fields_have_delims, strchr in Hd.
  repeat (apply orb_false_iff in Hd as [Hd ?]).
  rewrite tokens_three in H2 by assumption.
  assert (Hle : (length (List.filter nonempty [c_str svc; c_str usr; c_str pwd])
                <= 2)%nat).
  { destruct He as [-> | [-> | ->]]; cbn [List.filter nonempty];
      repeat match goal with
             | |- context [nonempty ?x] => destruct (nonempty x)
             end; cbn [length]; lia. }
  destruct (tokens TAB _) as [|s [|u [|p more]]]; try reflexivity.
  cbn [length] in H1. lia.
Qed.

Lemma add_then_load_witness :
  let L := [lit "mail" ++ [TAB] ++ lit "bob" ++ [TAB] ++ lit "pw1"] in
  let pw := lit "Secret1" ++ [LF] in
  let w := set_prompts [Some pw]
             (snd (save_vault LittleEndian Toy.uninit L (lit "Secret1")
                     (Toy.start ∅ [] No_fault))) in
  let svc := lit "#work" in
  let row := snprintf_row MAX_LINE svc (lit "alice") (lit "hunter2") in
  exists w2 w3,
    cmd_add LittleEndian Toy.uninit (Some svc) (Some (lit "alice"))
      (Some (lit "hunter2")) w = (Ret 0, w2) /\
    load_vault LittleEndian Toy.uninit (chomp pw) w2
    = (Ret (if is_comment (c_str svc) then L else L ++ [row]), w3).
Proof.
  cbv zeta.
  apply (add_then_load LittleEndian Toy.uninit ToyFacts.gcm_ok ToyFacts.kdf_ok
           ToyFacts.rand_ok
           [lit "mail" ++ [TAB] ++ lit "bob" ++ [TAB] ++ lit "pw1"]
           (lit "#work") (lit "alice") (lit "hunter2") (lit "Secret1" ++ [LF]) []
           (set_prompts [Some (lit "Secret1" ++ [LF])]
              (snd (save_vault LittleEndian Toy.uninit
                      [lit "mail" ++ [TAB] ++ lit "bob" ++ [TAB] ++ lit "pw1"]
                      (lit "Secret1") (Toy.start ∅ [] No_fault))))
           (snd (load_vault LittleEndian Toy.uninit
                   (chomp (lit "Secret1" ++ [LF]))
                   (set_prompts []
                      (set_prompts [Some (lit "Secret1" ++ [LF])]
                         (snd (save_vault LittleEndian Toy.uninit
                                 [lit "mail" ++ [TAB] ++ lit "bob" ++ [TAB]
                                  ++ lit "pw1"]
                                 (lit "Secret1") (Toy.start ∅ [] No_fault)))))))).
  - reflexivity.
  - vm_compute. reflexivity.
  - vm_compute. reflexivity.
  - vm_compute. reflexivity.
  - vm_compute. reflexivity.
Defined.

Lemma add_then_show_witness :
  let L := [lit "mail" ++ [TAB] ++ lit "bob" ++ [TAB] ++ lit "pw1"] in
  let pw := lit "Secret1" ++ [LF] in
  let w := set_prompts [Some pw; Some pw]
             (snd (save_vault LittleEndian Toy.uninit L (lit "Secret1")
                     (Toy.start ∅ [] No_fault))) in
  exists w2 w3,
    cmd_add LittleEndian Toy.uninit (Some (lit "github")) (Some (lit "alice"))
      (Some (lit "hunter2")) w = (Ret 0, w2) /\
    cmd_show LittleEndian Toy.uninit (Some (lit "github")) w2 = (Ret 0, w3) /\
    stdout w3 = stdout w2 ++ show_text (c_str (lit "github"))
                               (c_str (lit "alice")) (c_str (lit "hunter2")).
Proof.
  cbv zeta.
  apply (add_then_show LittleEndian Toy.uninit ToyFacts.gcm_ok ToyFacts.kdf_ok
           ToyFacts.rand_ok
           [lit "mail" ++ [TAB] ++ lit "bob" ++ [TAB] ++ lit "pw1"]
           (lit "github") (lit "alice") (lit "hunter2") (lit "Secret1" ++ [LF]) []
           (set_prompts [Some (lit "Secret1" ++ [LF]); Some (lit "Secret1" ++ [LF])]
              (snd (save_vault LittleEndian Toy.uninit
                      [lit "mail" ++ [TAB] ++ lit "bob" ++ [TAB] ++ lit "pw1"]
                      (lit "Secret1") (Toy.start ∅ [] No_fault))))
           (snd (load_vault LittleEndian Toy.uninit
                   (chomp (lit "Secret1" ++ [LF]))
                   (set_prompts [Some (lit "Secret1" ++ [LF])]
                      (set_prompts [Some (lit "Secret1" ++ [LF]);
                                    Some (lit "Secret1" ++ [LF])]
                         (snd (save_vault LittleEndian Toy.uninit
                                 [lit "mail" ++ [TAB] ++ lit "bob" ++ [TAB]
                                  ++ lit "pw1"]
                                 (lit "Secret1") (Toy.start ∅ [] No_fault)))))))).
  - reflexivity.
  - vm_compute. reflexivity.
  - vm_compute. reflexivity.
  - vm_compute. reflexivity.
  - vm_compute. reflexivity.
  - vm_compute. discriminate.
  - vm_compute. discriminate.
  - vm_compute. discriminate.
  - vm_compute. lia.
  - vm_compute. reflexivity.
  - vm_compute. reflexivity.
Defined.

Lemma add_empty_field_not_shown_witness :
  show_loop (snprintf_row MAX_LINE (lit "github") [] (lit "hunter2") :: [])
            (lit "github")
  = show_loop [] (lit "github").
Proof.
  apply (add_empty_field_not_shown (lit "github") [] (lit "hunter2") []
           (lit "github")).
  - vm_compute. reflexivity.
  - right. left. reflexivity.
Defined.

(** ** The password prompt *)

Lemma strcspn_none (s rej : bytes) :
  forallb (fun c => negb (mem_byte c rej)) s = true ->
  strcspn s rej = length s.
Proof.
  induction s as [|c s IH]; cbn [forallb strcspn length]; [reflexivity|].
  intros H. apply andb_true_iff in H as [Hc Hs].
  apply negb_true_iff in Hc. rewrite Hc, (IH Hs). reflexivity.
Qed.

Lemma strcspn_stop (s rej t : bytes) (c : ascii) :
  forallb (fun c => negb (mem_byte c rej)) s = true ->
  mem_byte c rej = true ->
  strcspn (s ++ c :: t) rej = length s.
Proof.
  induction s as [|x s IH]; cbn [forallb strcspn length app]; intros H Hc.
  - rewrite Hc. reflexivity.
  - apply andb_true_iff in H as [Hx Hs].
    apply negb_true_iff in Hx. rewrite Hx, (IH Hs Hc). reflexivity.
Qed.

Lemma strcspn_prefix_clean (s rej : bytes) :
  forallb (fun c => negb (mem_byte c rej)) (firstn (strcspn s rej) s) = true.
Proof.
  induction s as [|c s IH]; cbn [strcspn]; [reflexivity|].
  destruct (mem_byte c rej) eqn:E; cbn [firstn forallb]; [reflexivity|].
  rewrite E, IH. reflexivity.
Qed.

Lemma chomp_clean (line : bytes) :
  (length (chomp line) <= 255)%nat /\
  mem_byte NUL (chomp line) = false /\
  mem_byte CR (chomp line) = false /\ mem_byte LF (chomp line) = false.
Proof.
  split; [unfold chomp; rewrite !length_firstn; lia|].
  split; [apply chomp_no_nul|].
  unfold chomp.
  pose proof (strcspn_prefix_clean (firstn 255 (c_str line)) [CR; LF]) as H.
  induction (firstn (strcspn (firstn 255 (c_str line)) [CR; LF])
               (firstn 255 (c_str line))) as [|c l IH].
  - split; reflexivity.
  - cbn [forallb] in H. apply andb_true_iff in H as [Hc Hl].
    destruct (IH Hl) as [I1 I2]. rewrite !mem_byte_cons, I1, I2.
    apply negb_true_iff in Hc. cbn [mem_byte existsb] in Hc.
    rewrite !orb_false_iff in Hc. destruct Hc as (H1 & H2 & _).
    rewrite Ascii.eqb_sym, H1, (Ascii.eqb_sym LF), H2. split; reflexivity.
Qed.

Lemma clean_forallb (p : bytes) :
  mem_byte CR p = false -> mem_byte LF p = false ->
  forallb (fun c => negb (mem_byte c [CR; LF])) p = true.
Proof.
  induction p as [|c p IH]; cbn [forallb]; [reflexivity|].
  rewrite !mem_byte_cons. intros H1 H2.
  apply orb_false_iff in H1 as [A1 B1]. apply orb_false_iff in H2 as [A2 B2].
  rewrite (IH B1 B2). cbn [mem_byte existsb].
  rewrite Ascii.eqb_sym, A1, (Ascii.eqb_sym c LF), A2. reflexivity.
Qed.

(** X13. The password prompt returns the line that was read without its
    line end: at most 255 bytes, with no NUL, carriage return or newline;
    a typed run of such bytes followed by a newline, or by a carriage
    return and a newline, comes back as typed when the whole line fits
    the 255 bytes one read takes. *)
Theorem prompt_returns_typed_line {ssl : OpenSSL} (line : bytes)
    (rest : list (option bytes)) (w : World) :
  prompts w = Some line :: rest ->
  exists p, prompt_hidden w = (Ret (Some p), set_prompts rest w) /\
    (length p <= 255)%nat /\
    mem_byte NUL p = false /\ mem_byte CR p = false /\ mem_byte LF p = false /\
    forall typed,
      mem_byte NUL typed = false -> mem_byte CR typed = false ->
      mem_byte LF typed = false -> (length line <= 255)%nat ->
      line = typed ++ [LF] \/ line = typed ++ [CR; LF] -> p = typed.
Proof.
  intros Hp. exists (chomp line). unfold prompt_hidden.
  rewrite Hp, xstrdup_chomp.
  destruct (chomp_clean line) as (H1 & H2 & H3 & H4).
  repeat split; try assumption.
  intros typed Tn Tc Tl Tlen Hline. unfold chomp.
  assert (Hcs : c_str line = line).
  { apply c_str_nul_free. destruct Hline as [-> | ->];
      rewrite mem_byte_app, Tn; reflexivity. }
  rewrite Hcs.
  assert (Hf : firstn 255 line = line).
  { apply firstn_all2. exact Tlen. }
  rewrite Hf.
  destruct Hline as [-> | ->];
    rewrite (strcspn_stop typed [CR; LF]) by (auto using clean_forallb);
    rewrite firstn_app, Nat.sub_diag, firstn_all; cbn [firstn];
    apply app_nil_r.
Qed.

Lemma prompt_returns_typed_line_witness :
  let w := Toy.start ∅ [Some (lit "Secret1" ++ [CR; LF])] No_fault in
  exists p, prompt_hidden w = (Ret (Some p), set_prompts [] w) /\
    (length p <= 255)%nat /\
    mem_byte NUL p = false /\ mem_byte CR p = false /\ mem_byte LF p = false /\
    forall typed,
      mem_byte NUL typed = false -> mem_byte CR typed = false ->
      mem_byte LF typed = false ->
      (length (lit "Secret1" ++ [CR; LF]) <= 255)%nat ->
      lit "Secret1" ++ [CR; LF] = typed ++ [LF] \/
      lit "Secret1" ++ [CR; LF] = typed ++ [CR; LF] -> p = typed.
Proof.
  apply (prompt_returns_typed_line (lit "Secret1" ++ [CR; LF]) []
           (Toy.start ∅ [Some (lit "Secret1" ++ [CR; LF])] No_fault)).
  reflexivity.
Defined.

(** ** The command line *)

Lemma strcmp_flag (a b : add_option) :
  strcmp_eq (flag a) (flag b) = same_option a b.
Proof. destruct a, b; vm_compute; reflexivity. Qed.

Lemma add_args_pairs (ps : list (add_option * bytes))
    (svc usr pwd : option bytes) :
  add_args (pairs_args ps) svc usr pwd
  = (last_value Opt_service ps svc, last_value Opt_user ps usr,
     last_value Opt_pass ps pwd).
Proof.
  revert svc usr pwd. induction ps as [|[o v] ps IH]; intros svc usr pwd.
  - reflexivity.
  - unfold pairs_args, last_value in *. cbn [map concat app fst snd fold_left].
    cbn [add_args].
    change (lit "--service") with (flag Opt_service).
    change (lit "--user") with (flag Opt_user).
    change (lit "--pass") with (flag Opt_pass).
    rewrite !strcmp_flag.
    destruct o; cbn [same_option]; apply IH.
Qed.

Lemma show_args_pairs (ps : list (add_option * bytes)) (svc : option bytes) :
  forallb (fun p => same_option (fst p) Opt_service
                    || negb (strcmp_eq (snd p) (lit "--service"))) ps = true ->
  show_args (pairs_args ps) svc = last_value Opt_service ps svc.
Proof.
  revert svc. induction ps as [|[o v] ps IH]; intros svc H.
  - reflexivity.
  - cbn [forallb fst snd] in H. apply andb_true_iff in H as [Hv Hps].
    specialize (IH (if same_option o Opt_service then Some v else svc) Hps)
      as IH1.
    specialize (IH svc Hps) as IH2.
    unfold pairs_args, last_value in *. cbn [map concat app fst snd fold_left].
    cbn [show_args].
    change (lit "--service") with (flag Opt_service) at 1.
    rewrite strcmp_flag.
    destruct (same_option o Opt_service) eqn:Eo; [exact IH1|].
    cbn [orb] in Hv. apply negb_true_iff in Hv.
    destruct ps as [|[o' v'] ps']; [reflexivity|].
    cbn [map concat app fst snd] in *.
    change (show_args (v :: flag o' :: v' :: concat (map (fun p => [flag (fst p); snd p]) ps')) svc)
      with (if strcmp_eq v (lit "--service")
            then show_args (v' :: concat (map (fun p => [flag (fst p); snd p]) ps')) (Some (flag o'))
            else show_args (flag o' :: v' :: concat (map (fun p => [flag (fst p); snd p]) ps')) svc).
    rewrite Hv. exact IH1.
Qed.

Section MainFacts.
Context {ssl : OpenSSL}.
Variable host : endianness.
Variable uninit : nat -> bytes.

(** X15. When the arguments of [add] are flag and value pairs, in any order
    and with repetitions, [main] runs [cmd_add] on the value of the last
    pair of each option, and on NULL for an option that has none. *)
Theorem main_add_last_value_wins (prog : bytes)
    (ps : list (add_option * bytes)) (w : World) :
  main host uninit (prog :: lit "add" :: pairs_args ps) w
  = (cmd_add host uninit (last_value Opt_service ps None)
       (last_value Opt_user ps None) (last_value Opt_pass ps None) w, []).
Proof.
  unfold main.
  change (strcmp_eq (lit "add") (lit "init")) with false.
  change (strcmp_eq (lit "add") (lit "add")) with true.
  cbv iota. rewrite add_args_pairs. reflexivity.
Qed.

(** X16. When the arguments of [show] are flag and value pairs and no value
    of [--user] or [--pass] spells [--service], [main] runs [cmd_show] on
    the value of the last [--service] pair, and on NULL when there is
    none. *)
Theorem main_show_last_service (prog : bytes)
    (ps : list (add_option * bytes)) (w : World) :
  forallb (fun p => same_option (fst p) Opt_service
                    || negb (strcmp_eq (snd p) (lit "--service"))) ps = true ->
  main host uninit (prog :: lit "show" :: pairs_args ps) w
  = (cmd_show host uninit (last_value Opt_service ps None) w, []).
Proof.
  intros H. unfold main.
  change (strcmp_eq (lit "show") (lit "init")) with false.
  change (strcmp_eq (lit "show") (lit "add")) with false.
  change (strcmp_eq (lit "show") (lit "list")) with false.
  change (strcmp_eq (lit "show") (lit "show")) with true.
  cbv iota. rewrite show_args_pairs by assumption. reflexivity.
Qed.

End MainFacts.

Lemma main_show_last_service_witness :
  let ps := [(Opt_user, lit "alice"); (Opt_service, lit "mail");
             (Opt_service, lit "github")] in
  let w := Toy.start ∅ [] No_fault in
  main LittleEndian Toy.uninit (lit "vault_aes" :: lit "show" :: pairs_args ps) w
  = (cmd_show LittleEndian Toy.uninit (last_value Opt_service ps None) w, []).
Proof.
  apply (main_show_last_service LittleEndian Toy.uninit (lit "vault_aes")
           [(Opt_user, lit "alice"); (Opt_service, lit "mail");
            (Opt_service, lit "github")] (Toy.start ∅ [] No_fault)).
  vm_compute. reflexivity.
Defined.

(** ** What is scrubbed before it is freed *)

Section Scrubbing.
Context {ssl : OpenSSL}.
Variable host : endianness.
Variable uninit : nat -> bytes.

(** X17. After a successful load [cmd_list] zeroes its copy of the master
    password before freeing it, but frees the decrypted rows as they
    are: each row is released with its bytes intact. *)
Theorem list_scrubs_password_not_rows (pw : bytes)
    (rest : list (option bytes)) (w w1 : World) (L : Lines) :
  prompts w = Some pw :: rest ->
  load_vault host uninit (chomp pw) (set_prompts rest w) = (Ret L, w1) ->
  freed (snd (cmd_list host uninit w))
  = freed w1 ++ repeat NUL (S (length (chomp pw)))
             :: map (fun r => r ++ [NUL]) L.
Proof.
  intros Hp Hl. unfold cmd_list, bind, prompt_hidden.
  rewrite Hp, xstrdup_chomp, Hl, list_loop_prints.
  unfold scrub_free, free. rewrite lines_free_frees.
  rewrite scrubbed_password by apply chomp_no_nul.
  unfold ret. cbn [snd]. world_simpl. rewrite <- app_assoc. reflexivity.
Qed.

End Scrubbing.

Lemma list_scrubs_password_not_rows_witness :
  let L := [lit "github" ++ [TAB] ++ lit "alice" ++ [TAB] ++ lit "hunter2"] in
  let pw := lit "Secret1" ++ [LF] in
  let w := set_prompts [Some pw]
             (snd (save_vault LittleEndian Toy.uninit L (lit "Secret1")
                     (Toy.start ∅ [] No_fault))) in
  let w1 := snd (load_vault LittleEndian Toy.uninit (chomp pw)
                   (set_prompts [] w)) in
  freed (snd (cmd_list LittleEndian Toy.uninit w))
  = freed w1 ++ repeat NUL (S (length (chomp pw)))
             :: map (fun r => r ++ [NUL]) L.
Proof.
  cbv zeta.
  apply (list_scrubs_password_not_rows LittleEndian Toy.uninit
           (lit "Secret1" ++ [LF]) []).
  - reflexivity.
  - vm_compute. reflexivity.
Defined.

Lemma secure_bzero_whole (p : bytes) (n : nat) :
  (length p <= n)%nat -> secure_bzero p n = repeat NUL (length p).
Proof.
  intros H. unfold secure_bzero. rewrite Nat.min_r by assumption.
  rewrite write_at_0, repeat_length, skipn_all. apply app_nil_r.
Qed.

Section SaveScrubbing.
Context {ssl : OpenSSL}.
Variable host : endianness.
Variable uninit : nat -> bytes.
Hypothesis gcm : gcm_contract ssl.
Hypothesis kdf : kdf_contract ssl.
Hypothesis rnd : rand_contract ssl.

(** X18. With OpenSSL meeting its contracts and no injected fault, the four
    buffers [save_vault] frees, the key, the serialized plaintext, the
    ciphertext and the assembled file image, hold only zero bytes when
    they are freed. *)
Theorem save_frees_zeroed_buffers (L : Lines) (pw : bytes) (w : World) :
  fault w = No_fault ->
  Z.of_nat (length (serialize L)) < 2 ^ 31 ->
  Z.of_nat (length pw) < 2 ^ 31 ->
  exists w',
    save_vault host uninit L pw w = (Ret tt, w') /\
    freed w'
    = freed w ++ [repeat NUL 32;
                  repeat NUL (S (length (serialize L)));
                  repeat NUL (length (serialize L));
                  repeat NUL (58 + length (serialize L))].
Proof.
  intros Hf Hlen Hpw. unfold save_vault, bind.
  destruct (rand_run uninit rnd SALT_LEN w
              ltac:(cbv; split; [discriminate | reflexivity]))
    as (salt & g1 & -> & Hs).
  cbn [Z.eqb negb].
  destruct (rand_run uninit rnd NONCE_LEN (set_rng g1 w)
              ltac:(cbv; split; [discriminate | reflexivity]))
    as (nonce & g2 & -> & Hn).
  cbn [Z.eqb negb].
  set (plain := serialize L) in *.
  rewrite (wrap_size_small (Z.of_nat (length plain))) by lia.
  destruct (kdf_run uninit kdf pw salt PBKDF2_ITERS Hs Hpw
              ltac:(cbv; split; reflexivity)) as (key & Ekdf & Hk).
  rewrite Ekdf.
  cbn [Z.eqb negb].
  destruct (aes256gcm_roundtrip gcm key nonce plain
              (alloc uninit (Z.of_nat (length plain))) (alloc uninit TAG_LEN)
              (alloc uninit (Z.of_nat (length plain) + 1)))
    as (ct & tag & x & -> & Hc & Ht & Hd).
  { exact Hk. }
  { exact Hn. }
  { assumption. }
  { rewrite alloc_length. apply Nat2Z.id. }
  { apply alloc_length. }
  { rewrite alloc_length. lia. }
  cbn [Z.eqb negb].
  rewrite (to_uint32_small (Z.of_nat (length plain))) by lia.
  rewrite write_all_atomic_vault. cbn [fault set_rng]. rewrite Hf.
  unfold free, ret. eexists. split; [reflexivity|].
  change (Z.to_nat SALT_LEN) with 16%nat in Hs.
  change (Z.to_nat NONCE_LEN) with 12%nat in Hn.
  world_simpl. rewrite <- !app_assoc. cbn [app]. do 2 f_equal.
  - rewrite secure_bzero_whole, Hk by (rewrite Hk; reflexivity).
    reflexivity.
  - f_equal.
    + rewrite Nat2Z.id. unfold secure_bzero.
      rewrite length_app, Nat.min_l by lia.
      rewrite write_at_0, repeat_length, skipn_app, Nat.sub_diag, skipn_all.
      cbn [skipn app].
      replace (S (length plain)) with (length plain + 1)%nat by lia.
      rewrite repeat_app. reflexivity.
    + f_equal.
      * rewrite Nat2Z.id, secure_bzero_whole by lia. now rewrite Hc.
      * f_equal.
        assert (Hasm : length (assemble host salt nonce ct tag
                                 (to_uint32 PBKDF2_ITERS)
                                 (Z.of_nat (length plain)))
                       = (58 + length plain)%nat).
        { rewrite assemble_length by (rewrite ?Nat2Z.id; lia).
          now rewrite Nat2Z.id. }
        rewrite secure_bzero_whole; [now rewrite Hasm|].
        rewrite Hasm, wrap_size_small;
          unfold MAGIC_LEN, SALT_LEN, NONCE_LEN, TAG_LEN; lia.
Qed.

End SaveScrubbing.

Lemma save_frees_zeroed_buffers_witness :
  let L := [lit "github" ++ [TAB] ++ lit "alice" ++ [TAB] ++ lit "hunter2"] in
  let w := Toy.start ∅ [] No_fault in
  exists w',
    save_vault LittleEndian Toy.uninit L (lit "Secret1") w = (Ret tt, w') /\
    freed w'
    = freed w ++ [repeat NUL 32;
                  repeat NUL (S (length (serialize L)));
                  repeat NUL (length (serialize L));
                  repeat NUL (58 + length (serialize L))].
Proof.
  apply (save_frees_zeroed_buffers LittleEndian Toy.uninit ToyFacts.gcm_ok
           ToyFacts.kdf_ok ToyFacts.rand_ok).
  - reflexivity.
  - vm_compute. reflexivity.
  - vm_compute. reflexivity.
Defined.

(** ** SecLog Scan *)

Section ScanFacts.
Import SecLog.

(** *** The vector *)

Lemma grow_spec (fuel : nat) (c need : Z) :
  1 <= c <= SIZE_MAX -> 2 ^ 64 <= c * 2 ^ Z.of_nat fuel ->
  match grow fuel c need with
  | Ret c' => need <= c' /\ c <= c' <= SIZE_MAX /\ (c' = c \/ c' < 2 * need)
  | Exit e => e = 1 /\ 2 ^ 63 < need
  | _ => False
  end.
Proof.
  assert (HS : SIZE_MAX = 2 ^ 64 - 1) by reflexivity.
  assert (HS2 : SIZE_MAX / 2 = 2 ^ 63 - 1) by reflexivity.
  assert (H64 : 2 ^ 64 = 2 * 2 ^ 63) by reflexivity.
  revert c. induction fuel as [|fuel IH]; intros c Hc Hf.
  - change (2 ^ Z.of_nat 0) with 1 in Hf. lia.
  - cbn [grow]. destruct (Z.ltb_spec c need) as [Hlt|Hge].
    + rewrite HS2. destruct (Z.gtb_spec c (2 ^ 63 - 1)) as [Hbig|Hsmall].
      * split; [reflexivity | lia].
      * rewrite Nat2Z.inj_succ, Z.pow_succ_r in Hf by lia.
        rewrite wrap_size_small by lia.
        specialize (IH (c * 2) ltac:(lia) ltac:(lia)).
        destruct (grow fuel (c * 2) need); try exact IH.
        lia.
    + lia.
Qed.

Lemma xrealloc_grants (held : bool) (n : Z) :
  0 < n <= PTRDIFF_MAX -> xrealloc held n = Ret tt.
Proof.
  intros H. unfold xrealloc.
  destruct (Z.eqb_spec n 0); [lia|]. rewrite andb_false_r.
  destruct (Z.gtb_spec n PTRDIFF_MAX); [lia | reflexivity].
Qed.




(** *** The comparator *)

(** X20. For counters below 2^31 the comparator of the report is defined
    and orders by suspicious, then failed, then total requests, each
    descending: it is negative exactly when [x] goes before [y] and zero
    exactly when the three counters agree. *)
Theorem cmp_orders_descending (x y : IPStat) :
  0 <= suspicious x < 2 ^ 31 -> 0 <= suspicious y < 2 ^ 31 ->
  0 <= failed x < 2 ^ 31 -> 0 <= failed y < 2 ^ 31 ->
  0 <= total x < 2 ^ 31 -> 0 <= total y < 2 ^ 31 ->
  exists d, cmp x y = Some d /\
    (d < 0 <->
     suspicious y < suspicious x \/
     (suspicious y = suspicious x /\
      (failed y < failed x \/ (failed y = failed x /\ total y < total x)))) /\
    (d = 0 <->
     suspicious y = suspicious x /\ failed y = failed x /\ total y = total x).
Proof.
  intros A1 A2 B1 B2 C1 C2. unfold cmp, int_sub.
  rewrite !to_int_small by lia.
  assert (P : 2 ^ 31 = 2147483648) by reflexivity.
  destruct (Z.eqb_spec (suspicious y) (suspicious x)) as [E1|E1]; cbn [negb].
  - destruct (Z.eqb_spec (failed y) (failed x)) as [E2|E2]; cbn [negb].
    + destruct (Z.leb_spec (- 2 ^ 31) (total y - total x)); [|lia].
      destruct (Z.ltb_spec (total y - total x) (2 ^ 31)); [|lia].
      eexists. split; [reflexivity|]. lia.
    + destruct (Z.leb_spec (- 2 ^ 31) (failed y - failed x)); [|lia].
      destruct (Z.ltb_spec (failed y - failed x) (2 ^ 31)); [|lia].
      eexists. split; [reflexivity|]. lia.
  - destruct (Z.leb_spec (- 2 ^ 31) (suspicious y - suspicious x)); [|lia].
    destruct (Z.ltb_spec (suspicious y - suspicious x) (2 ^ 31)); [|lia].
    eexists. split; [reflexivity|]. lia.
Qed.

Lemma cmp_orders_descending_witness :
  let x := mkIPStat (lit "1.2.3.4") 7 2 1 in
  let y := mkIPStat (lit "5.6.7.8") 9 2 0 in
  exists d, cmp x y = Some d /\
    (d < 0 <->
     suspicious y < suspicious x \/
     (suspicious y = suspicious x /\
      (failed y < failed x \/ (failed y = failed x /\ total y < total x)))) /\
    (d = 0 <->
     suspicious y = suspicious x /\ failed y = failed x /\ total y = total x).
Proof.
  apply (cmp_orders_descending (mkIPStat (lit "1.2.3.4") 7 2 1)
           (mkIPStat (lit "5.6.7.8") 9 2 0));
    vm_compute; split; discriminate || reflexivity.
Defined.

(** *** The parsers *)

Lemma c_str_app (pre x : bytes) :
  mem_byte NUL pre = false -> c_str (pre ++ x) = pre ++ c_str x.
Proof.
  unfold c_str. induction pre as [|c pre IH]; intros H; [reflexivity|].
  rewrite mem_byte_cons in H. apply orb_false_iff in H as [Hc Hp].
  cbn [app strlen]. rewrite Ascii.eqb_sym, Hc. cbn [firstn].
  f_equal. apply IH, Hp.
Qed.

Lemma skip_space_app (pre x : bytes) :
  forallb isspace pre = true -> skip_space (pre ++ x) = skip_space x.
Proof.
  induction pre as [|c pre IH]; cbn [forallb app skip_space]; [reflexivity|].
  intros H. apply andb_true_iff in H as [-> Hp]. apply IH, Hp.
Qed.

Lemma after_first_app (c : ascii) (pre x : bytes) :
  mem_byte c pre = false -> after_first c (pre ++ c :: x) = Some x.
Proof.
  induction pre as [|a pre IH]; cbn [app after_first]; intros H.
  - now rewrite Ascii.eqb_refl.
  - rewrite mem_byte_cons in H. apply orb_false_iff in H as [Ha Hp].
    rewrite Ascii.eqb_sym, Ha. apply IH, Hp.
Qed.

Lemma after_last_none (c : ascii) (x : bytes) :
  mem_byte c x = false -> after_last c x = None.
Proof.
  induction x as [|a x IH]; cbn [after_last]; intros H; [reflexivity|].
  rewrite mem_byte_cons in H. apply orb_false_iff in H as [Ha Hp].
  rewrite (IH Hp), Ascii.eqb_sym, Ha. reflexivity.
Qed.

Lemma after_last_app (c : ascii) (pre x : bytes) :
  mem_byte c x = false -> after_last c (pre ++ c :: x) = Some x.
Proof.
  intros H. induction pre as [|a pre IH]; cbn [app after_last].
  - now rewrite (after_last_none c x H), Ascii.eqb_refl.
  - now rewrite IH.
Qed.

Lemma copy_until_word (stop : ascii -> bool) (w rest out : bytes)
    (i outsz : Z) :
  forallb (fun c => negb (stop c)) w = true ->
  rest = [] \/ (exists c r, rest = c :: r /\ stop c = true) ->
  0 <= i < SIZE_MAX -> outsz <= SIZE_MAX ->
  copy_until stop (w ++ rest) i outsz out
  = match w with
    | [] => Some out
    | _ :: _ =>
        if i + Z.of_nat (length w) <? outsz then Some (out ++ w) else None
    end.
Proof.
  assert (HS : SIZE_MAX = 2 ^ 64 - 1) by reflexivity.
  intros Hw Hrest. revert i out.
  induction w as [|a w IH]; intros i out Hi Ho.
  - destruct Hrest as [-> | (c & r & -> & Hc)]; cbn [app copy_until].
    + reflexivity.
    + now rewrite Hc.
  - cbn [forallb] in Hw. apply andb_true_iff in Hw as [Ha Hw].
    apply negb_true_iff in Ha. cbn [app copy_until]. rewrite Ha.
    rewrite wrap_size_small by lia.
    destruct (Z.geb_spec (i + 1) outsz) as [Hge|Hlt].
    + destruct (Z.ltb_spec (i + Z.of_nat (length (a :: w))) outsz);
        [cbn [length] in *; lia | reflexivity].
    + rewrite (IH Hw (i + 1) (out ++ [a])) by lia.
      destruct w as [|b w].
      * cbn [length]. destruct (Z.ltb_spec (i + Z.of_nat 1) outsz); [|lia].
        reflexivity.
      * replace (i + 1 + Z.of_nat (length (b :: w)))
          with (i + Z.of_nat (length (a :: b :: w)))
          by (cbn [length]; lia).
        rewrite <- app_assoc. reflexivity.
Qed.

(** X21. [extract_ip] returns the first word of the line, the run of bytes
    between the leading white space and the next white space or the end,
    exactly when that word is not empty and fits the buffer with its
    terminating NUL; otherwise it fails. *)
Theorem extract_ip_first_word (line pre w rest : bytes) (outsz : Z) :
  c_str line = pre ++ w ++ rest ->
  forallb isspace pre = true ->
  forallb (fun c => negb (isspace c)) w = true ->
  rest = [] \/ (exists c r, rest = c :: r /\ isspace c = true) ->
  (w = [] -> rest = []) ->
  0 <= outsz <= SIZE_MAX ->
  extract_ip line outsz
  = if (0 <? Z.of_nat (length w)) && (Z.of_nat (length w) <? outsz)
    then Some w else None.
Proof.
  intros Hl Hpre Hw Hrest Hempty Hsz. unfold extract_ip.
  rewrite Hl, skip_space_app by assumption.
  assert (HS : 0 < SIZE_MAX) by reflexivity.
  destruct w as [|a w].
  - rewrite (Hempty eq_refl). reflexivity.
  - assert (Hk : skip_space ((a :: w) ++ rest) = (a :: w) ++ rest).
    { cbn [forallb] in Hw. apply andb_true_iff in Hw as [Ha _].
      apply negb_true_iff in Ha. cbn [app skip_space]. now rewrite Ha. }
    rewrite Hk, (copy_until_word isspace (a :: w) rest [] 0 outsz)
      by (assumption || lia).
    cbn [length app]. rewrite Z.add_0_l.
    destruct (Z.ltb_spec 0 (Z.of_nat (S (length w)))); [|lia].
    destruct (Z.of_nat (S (length w)) <? outsz); reflexivity.
Qed.

Lemma extract_ip_first_word_witness :
  let line := lit "  10.0.0.7 - - [d] rest" ++ [LF] in
  extract_ip line 64
  = if (0 <? Z.of_nat (length (lit "10.0.0.7")))
       && (Z.of_nat (length (lit "10.0.0.7")) <? 64)
    then Some (lit "10.0.0.7") else None.
Proof.
  apply (extract_ip_first_word (lit "  10.0.0.7 - - [d] rest" ++ [LF])
           (lit "  ") (lit "10.0.0.7") (lit " - - [d] rest" ++ [LF]) 64).
  - reflexivity.
  - reflexivity.
  - reflexivity.
  - right. eexists _, _. split; reflexivity.
  - discriminate.
  - vm_compute. split; discriminate.
Defined.

Lemma extract_path_word (line pre method path rest : bytes) (outsz : Z) :
  c_str line = pre ++ DQUOTE :: method ++ SPACE :: path ++ rest ->
  mem_byte DQUOTE pre = false ->
  mem_byte SPACE method = false ->
  forallb (fun c => negb (Ascii.eqb c SPACE || Ascii.eqb c DQUOTE)) path
    = true ->
  rest = [] \/ (exists c r, rest = c :: r /\
                            (Ascii.eqb c SPACE || Ascii.eqb c DQUOTE) = true) ->
  0 <= outsz <= SIZE_MAX ->
  extract_path line outsz
  = if (0 <? Z.of_nat (length path)) && (Z.of_nat (length path) <? outsz)
    then Some path else None.
Proof.
  intros Hl Hpre Hm Hp Hrest Hsz. unfold extract_path.
  rewrite Hl, after_first_app by assumption.
  rewrite after_first_app by assumption.
  assert (HS : 0 < SIZE_MAX) by reflexivity.
  rewrite (copy_until_word _ path rest [] 0 outsz) by (assumption || lia).
  destruct path as [|a p]; [reflexivity|].
  cbn [length app]. rewrite Z.add_0_l.
  destruct (Z.ltb_spec 0 (Z.of_nat (S (length p)))); [|lia].
  destruct (Z.of_nat (S (length p)) <? outsz); reflexivity.
Qed.

(** X22. The suspicious flag of a line is decided by the request path, the
    word after the method inside the first quoted field: the line counts
    as suspicious exactly when that path is not empty, is shorter than
    512 bytes and matches a signature; a path of 512 bytes or more is
    never flagged, whatever it holds. *)
Theorem susp_flag_of_request_path (line pre method path rest : bytes) :
  c_str line = pre ++ DQUOTE :: method ++ SPACE :: path ++ rest ->
  mem_byte DQUOTE pre = false ->
  mem_byte SPACE method = false ->
  forallb (fun c => negb (Ascii.eqb c SPACE || Ascii.eqb c DQUOTE)) path
    = true ->
  rest = [] \/ (exists c r, rest = c :: r /\
                            (Ascii.eqb c SPACE || Ascii.eqb c DQUOTE) = true) ->
  susp_flag line
  = if (0 <? Z.of_nat (length path)) && (Z.of_nat (length path) <? 512)
       && is_suspicious_path path
    then 1 else 0.
Proof.
  intros Hl Hpre Hm Hp Hrest. unfold susp_flag.
  rewrite (extract_path_word line pre method path rest 512 Hl Hpre Hm Hp Hrest)
    by (vm_compute; split; discriminate).
  destruct ((0 <? Z.of_nat (length path)) && (Z.of_nat (length path) <? 512));
    reflexivity.
Qed.

Lemma susp_flag_of_request_path_witness :
  let path := lit "/a/../" ++ repeat "x"%char 600 in
  let line := lit "10.0.0.7 - - [d] " ++ [DQUOTE] ++ lit "GET " ++ path
              ++ lit " HTTP/1.1" ++ [DQUOTE] ++ lit " 200 5" ++ [LF] in
  susp_flag line
  = if (0 <? Z.of_nat (length path)) && (Z.of_nat (length path) <? 512)
       && is_suspicious_path path
    then 1 else 0.
Proof.
  apply (susp_flag_of_request_path
           (lit "10.0.0.7 - - [d] " ++ [DQUOTE] ++ lit "GET "
            ++ (lit "/a/../" ++ repeat "x"%char 600)
            ++ lit " HTTP/1.1" ++ [DQUOTE] ++ lit " 200 5" ++ [LF])
           (lit "10.0.0.7 - - [d] ") (lit "GET")
           (lit "/a/../" ++ repeat "x"%char 600)
           (lit " HTTP/1.1" ++ [DQUOTE] ++ lit " 200 5" ++ [LF])).
  - vm_compute. reflexivity.
  - vm_compute. reflexivity.
  - vm_compute. reflexivity.
  - vm_compute. reflexivity.
  - right. eexists _, _. split; reflexivity.
Defined.

(** X23. The status of a line is read after its last double quote: the
    text before that quote has no influence, the result is -1 or a value
    from 0 to 999, and it is -1, so that the request is not counted as
    failed, when only white space follows the last quote. *)
Theorem status_after_last_quote (pre post : bytes) :
  mem_byte NUL pre = false ->
  mem_byte DQUOTE (c_str post) = false ->
  extract_status (pre ++ DQUOTE :: post) = extract_status (DQUOTE :: post) /\
  -1 <= extract_status (pre ++ DQUOTE :: post) <= 999 /\
  (forallb isspace (c_str post) = true ->
   extract_status (pre ++ DQUOTE :: post) = -1 /\
   failed_flag (pre ++ DQUOTE :: post) = 0).
Proof.
  intros Hn Hq.
  assert (E : forall p, mem_byte NUL p = false ->
            extract_status (p ++ DQUOTE :: post)
            = match strtol10 (skip_space (c_str post)) with
              | None => -1
              | Some val => if (val <? 0) || (val >? 999) then -1 else to_int val
              end).
  { intros p Hp. unfold extract_status.
    rewrite (c_str_app p (DQUOTE :: post)) by assumption.
    change (c_str (DQUOTE :: post)) with (DQUOTE :: c_str post).
    rewrite after_last_app by assumption. reflexivity. }
  pose proof (E [] eq_refl) as E0. cbn [app] in E0.
  split; [rewrite (E pre Hn), E0; reflexivity|].
  split.
  - rewrite (E pre Hn).
    destruct (strtol10 (skip_space (c_str post))) as [val|]; [|lia].
    destruct (Z.ltb_spec val 0); cbn [orb]; [lia|].
    destruct (Z.gtb_spec val 999); [lia|].
    rewrite to_int_small; [lia|]. assert (2 ^ 31 = 2147483648) by reflexivity. lia.
  - intros Hs.
    assert (Hk : skip_space (c_str post) = []).
    { rewrite <- (app_nil_r (c_str post)), skip_space_app by assumption.
      reflexivity. }
    assert (Hst : extract_status (pre ++ DQUOTE :: post) = -1).
    { rewrite (E pre Hn), Hk. reflexivity. }
    split; [exact Hst|]. unfold failed_flag. rewrite Hst. reflexivity.
Qed.

Lemma status_after_last_quote_witness :
  let pre := lit "10.0.0.7 - - [d] " ++ [DQUOTE] ++ lit "GET / HTTP/1.1"
             ++ [DQUOTE] ++ lit " 404 5 " ++ [DQUOTE] ++ lit "agent" in
  let post := [LF] in
  extract_status (pre ++ DQUOTE :: post) = extract_status (DQUOTE :: post) /\
  -1 <= extract_status (pre ++ DQUOTE :: post) <= 999 /\
  (forallb isspace (c_str post) = true ->
   extract_status (pre ++ DQUOTE :: post) = -1 /\
   failed_flag (pre ++ DQUOTE :: post) = 0).
Proof.
  apply (status_after_last_quote
           (lit "10.0.0.7 - - [d] " ++ [DQUOTE] ++ lit "GET / HTTP/1.1"
            ++ [DQUOTE] ++ lit " 404 5 " ++ [DQUOTE] ++ lit "agent") [LF]).
  - vm_compute. reflexivity.
  - vm_compute. reflexivity.
Defined.

Lemma starts_with_app (n b : bytes) : starts_with n (n ++ b) = true.
Proof.
  induction n as [|c n IH]; cbn [app starts_with]; [now destruct b|].
  now rewrite Ascii.eqb_refl, IH.
Qed.

Lemma strstr_app (a n b : bytes) : strstr (a ++ n ++ b) n = true.
Proof.
  induction a as [|c a IH]; cbn [app].
  - destruct (n ++ b) eqn:E; cbn [strstr]; rewrite <- E, starts_with_app;
      reflexivity.
  - cbn [strstr]. rewrite IH. apply orb_true_r.
Qed.

(** X24. A path is suspicious whenever one of the nine signatures occurs in
    it, in any letter case, and ends within its first 511 bytes. *)
Theorem signature_found_in_any_case (path pre hit post : bytes) :
  c_str path = pre ++ hit ++ post ->
  In (map tolower hit) signatures ->
  (length pre + length hit <= 511)%nat ->
  is_suspicious_path path = true.
Proof.
  intros Hp Hin Hlen. unfold is_suspicious_path.
  apply existsb_exists. exists (map tolower hit). split; [exact Hin|].
  rewrite Hp, app_assoc, firstn_app.
  rewrite (firstn_all2 (pre ++ hit)) by (rewrite length_app; lia).
  rewrite !map_app, <- app_assoc. apply strstr_app.
Qed.

Lemma signature_found_in_any_case_witness :
  is_suspicious_path (lit "/search?q=1%20Union%20Select%20x") = true.
Proof.
  apply (signature_found_in_any_case (lit "/search?q=1%20Union%20Select%20x")
           (lit "/search?q=1%20") (lit "Union%20Select") (lit "%20x")).
  - reflexivity.
  - vm_compute. left. reflexivity.
  - vm_compute. lia.
Defined.

Lemma vec_reserve_inv (v : Vec) (need : Z) :
  0 <= cap v <= 2 ^ 33 /\ 0 <= need <= 2 ^ 32 ->
  match vec_reserve v need with
  | Ret v' => data v' = data v /\ need <= cap v' /\ 0 <= cap v' /\
              cap v' <= 2 ^ 33
  | _ => False
  end.
Proof.
  assert (P32 : 2 ^ 32 = 4294967296) by reflexivity.
  assert (P33 : 2 ^ 33 = 8589934592) by reflexivity.
  assert (P63 : 2 ^ 63 = 9223372036854775808) by reflexivity.
  assert (P64 : 2 ^ 64 = 18446744073709551616) by reflexivity.
  assert (PS : SIZE_MAX = 18446744073709551615) by reflexivity.
  assert (PP : PTRDIFF_MAX = 9223372036854775807) by reflexivity.
  intros [Hc Hn]. unfold vec_reserve.
  destruct (Z.leb_spec need (cap v)) as [Hle|Hgt].
  - repeat split; first [lia | reflexivity].
  - set (start := if cap v =? 0 then 8 else cap v).
    assert (Hstart : 1 <= start <= SIZE_MAX /\ (start = 8 \/ start = cap v)).
    { unfold start. destruct (Z.eqb_spec (cap v) 0); lia. }
    assert (H64 : 2 ^ 64 <= start * 2 ^ Z.of_nat 64).
    { change (2 ^ Z.of_nat 64) with (2 ^ 64). nia. }
    pose proof (grow_spec 64 start need ltac:(lia) H64) as H.
    destruct (grow 64 start need) as [c'|e| |]; try exact H; [|lia].
    destruct H as (H1 & H2 & H3).
    assert (Hc' : 1 <= c' <= 2 ^ 33) by lia.
    unfold sizeof_IPStat.
    rewrite wrap_size_small, xrealloc_grants by lia.
    cbn [data cap]. repeat split; first [lia | reflexivity].
Qed.

Lemma NoDup_app_snoc (l : list bytes) (a : bytes) :
  NoDup l -> ~ In a l -> NoDup (l ++ [a]).
Proof.
  intros Hl Ha. apply NoDup_app. split; [exact Hl|].
  split; [|apply NoDup_singleton].
  intros x Hx Hx'. apply list_elem_of_singleton in Hx'. subst x.
  apply Ha, list_elem_of_In, Hx.
Qed.

Lemma NoDup_middle (l1 l2 : list bytes) (a : bytes) :
  NoDup (l1 ++ a :: l2) -> ~ In a (l1 ++ l2).
Proof.
  intros H. apply NoDup_app in H as (_ & N2 & N3).
  apply NoDup_cons in N3 as [N4 _].
  intros Hin. apply in_app_or in Hin as [Hin|Hin].
  - apply (N2 a); [apply list_elem_of_In, Hin | apply list_elem_of_here].
  - apply N4, list_elem_of_In, Hin.
Qed.

Lemma alter_middle (f : IPStat -> IPStat) (d1 d2 : list IPStat) (s : IPStat) :
  alter f (length d1) (d1 ++ s :: d2) = d1 ++ f s :: d2.
Proof.
  induction d1 as [|x d1 IH]; cbn [length app]; [reflexivity|].
  cbn. f_equal. exact IH.
Qed.

(** *** The scan loop *)

Lemma copy_until_prefix (stop : ascii -> bool) (s out r : bytes) (i outsz : Z) :
  copy_until stop s i outsz out = Some r ->
  exists w rest, r = out ++ w /\ s = w ++ rest.
Proof.
  revert i out. induction s as [|c s IH]; intros i out; cbn [copy_until].
  - intros [= <-]. exists [], []. now rewrite app_nil_r.
  - destruct (stop c).
    + intros [= <-]. exists [], (c :: s). now rewrite app_nil_r.
    + destruct (wrap_size (i + 1) >=? outsz); [discriminate|].
      intros H. destruct (IH _ _ H) as (w & rest & -> & ->).
      exists (c :: w), rest. now rewrite <- app_assoc.
Qed.

Lemma skip_space_suffix (s : bytes) : exists pre, s = pre ++ skip_space s.
Proof.
  induction s as [|c s [pre IH]]; cbn [skip_space].
  - now exists [].
  - destruct (isspace c); [|now exists []].
    exists (c :: pre). cbn [app]. now f_equal.
Qed.

Lemma extract_ip_nul_free (line a : bytes) (outsz : Z) :
  extract_ip line outsz = Some a -> mem_byte NUL a = false.
Proof.
  unfold extract_ip.
  destruct (copy_until isspace (skip_space (c_str line)) 0 outsz []) as [r|] eqn:E;
    [|discriminate].
  destruct (copy_until_prefix _ _ _ _ _ _ E) as (w & rest & -> & Hs).
  destruct (skip_space_suffix (c_str line)) as [pre Hp].
  pose proof (c_str_no_nul line) as Hn.
  rewrite Hp, Hs, !mem_byte_app in Hn.
  apply orb_false_iff in Hn as [_ Hn]. apply orb_false_iff in Hn as [Hn _].
  cbn [app]. destruct w; [discriminate|]. intros [= <-]. exact Hn.
Qed.

Lemma find_from_spec (rows : list IPStat) (a : bytes) (i : Z) :
  Forall (fun s => mem_byte NUL (ip s) = false) rows ->
  mem_byte NUL a = false -> 0 <= i ->
  (find_from rows a i = -1 /\ ~ In a (map ip rows)) \/
  (exists d1 s d2, rows = d1 ++ s :: d2 /\ ip s = a /\
                   find_from rows a i = i + Z.of_nat (length d1)).
Proof.
  intros Hrows Ha. revert i. induction Hrows as [|s rows Hs Hrows IH]; intros i Hi.
  - left. split; [reflexivity | intros []].
  - cbn [find_from]. unfold strcmp_eq.
    rewrite (c_str_nul_free _ Hs), (c_str_nul_free _ Ha).
    destruct (bool_decide_reflect (ip s = a)) as [E|E].
    + right. exists [], s, rows. cbn [length app]. repeat split; [exact E | lia].
    + destruct (IH (i + 1) ltac:(lia)) as [[H1 H2] | (d1 & s' & d2 & -> & H2 & H3)].
      * left. split; [exact H1|]. cbn [map]. intros [?|?]; contradiction.
      * right. exists (s :: d1), s', d2. cbn [length app].
        repeat split; [exact H2|]. rewrite H3. lia.
Qed.

Lemma hits_snoc (a : bytes) (done : list bytes) (l : bytes) :
  hits a (done ++ [l])
  = hits a done ++ (if bool_decide (extract_ip l 64 = Some a) then [l] else []).
Proof. unfold hits. rewrite List.filter_app. reflexivity. Qed.

Lemma hits_snoc_other (a : bytes) (done : list bytes) (l : bytes) :
  extract_ip l 64 <> Some a -> hits a (done ++ [l]) = hits a done.
Proof.
  intros H. rewrite hits_snoc, bool_decide_eq_false_2 by assumption.
  apply app_nil_r.
Qed.

Lemma hits_snoc_same (a : bytes) (done : list bytes) (l : bytes) :
  extract_ip l 64 = Some a -> hits a (done ++ [l]) = hits a done ++ [l].
Proof.
  intros H. rewrite hits_snoc, bool_decide_eq_true_2 by assumption.
  reflexivity.
Qed.

Lemma count_flag_snoc (f : bytes -> Z) (ls : list bytes) (l : bytes) :
  count_flag f (ls ++ [l]) = count_flag f ls + (if f l =? 0 then 0 else 1).
Proof.
  unfold count_flag. rewrite List.filter_app, length_app. cbn [List.filter].
  destruct (f l =? 0); cbn [negb length]; lia.
Qed.

Lemma count_flag_le (f : bytes -> Z) (ls : list bytes) :
  0 <= count_flag f ls <= Z.of_nat (length ls).
Proof.
  unfold count_flag. pose proof (List.filter_length_le (fun l => negb (f l =? 0)) ls).
  lia.
Qed.

Lemma hits_le (a : bytes) (ls : list bytes) :
  (length (hits a ls) <= length ls)%nat.
Proof. apply List.filter_length_le. Qed.

Lemma counts_of_other (done : list bytes) (l : bytes) (s : IPStat) :
  extract_ip l 64 <> Some (ip s) ->
  counts_of done s -> counts_of (done ++ [l]) s.
Proof.
  intros H. unfold counts_of. now rewrite (hits_snoc_other _ _ _ H).
Qed.

Lemma scan_line_inv (done : list bytes) (l : bytes) (v : Vec) :
  scan_inv done v ->
  Z.of_nat (length (done ++ [l])) < 2 ^ 32 ->
  exists v', scan_line v l = Ret v' /\ scan_inv (done ++ [l]) v'.
Proof.
  assert (P32 : 2 ^ 32 = 4294967296) by reflexivity.
  assert (P33 : 2 ^ 33 = 8589934592) by reflexivity.
  assert (P63 : 2 ^ 63 = 9223372036854775808) by reflexivity.
  assert (P64 : 2 ^ 64 = 18446744073709551616) by reflexivity.
  assert (PS : SIZE_MAX = 18446744073709551615) by reflexivity.
  intros (Hcap & Hlen & Hnd & Hnul & Hall & Hcnt) Hbound.
  rewrite length_app in Hbound. cbn [length] in Hbound.
  unfold scan_line. destruct (extract_ip l 64) as [a|] eqn:Ea.
  - (* a counted line *)
    pose proof (extract_ip_nul_free _ _ _ Ea) as Ha.
    unfold add_or_update, find_ip.
    destruct (find_from_spec (data v) a 0 Hnul Ha ltac:(lia))
      as [[Hf Hnin] | (d1 & s & d2 & Hd & Hs & Hf)]; rewrite Hf.
    + (* a new address *)
      change (-1 <? 0) with true. cbv iota.
      unfold len. rewrite (wrap_size_small (Z.of_nat (length (data v)) + 1)) by lia.
      pose proof (vec_reserve_inv v (Z.of_nat (length (data v)) + 1)
                    ltac:(lia)) as Hr.
      destruct (vec_reserve v (Z.of_nat (length (data v)) + 1))
        as [v1| | |]; try contradiction.
      destruct Hr as (Hd1 & Hneed & Hc1 & Hc2).
      unfold sizeof_IPStat. rewrite Hd1.
      assert (Hc33 : cap v1 <= 2 ^ 33) by lia.
      rewrite (wrap_size_small (cap v1 * 24)) by lia.
      destruct (Z.leb_spec ((Z.of_nat (length (data v)) + 1) * 24) (cap v1 * 24));
        [|lia].
      eexists. split; [reflexivity|]. unfold scan_inv. cbn [data cap].
      assert (Hempty : hits a done = []).
      { destruct (hits a done) eqn:E; [reflexivity|].
        exfalso. apply Hnin, Hall. now rewrite E. }
      repeat split.
      * lia.
      * lia.
      * rewrite !length_app. cbn [length]. lia.
      * rewrite map_app. cbn [map ip]. unfold xstrdup.
        rewrite (c_str_nul_free a Ha).
        apply NoDup_app_snoc; assumption.
      * apply Forall_app. split; [exact Hnul|]. constructor; [|constructor].
        cbn [ip]. unfold xstrdup. apply c_str_no_nul.
      * intros b Hb. rewrite map_app. apply in_or_app.
        destruct (bool_decide_reflect (extract_ip l 64 = Some b)) as [E|E].
        -- right. rewrite Ea in E. injection E as <-. left.
           cbn [ip]. unfold xstrdup. apply c_str_nul_free, Ha.
        -- left. apply Hall. now rewrite (hits_snoc_other _ _ _ E) in Hb.
      * apply Forall_app. split.
        -- rewrite List.Forall_forall in Hcnt |- *. intros s Hs.
           apply counts_of_other; [|now apply Hcnt].
           rewrite Ea. intros [= E]. apply Hnin. rewrite E. now apply in_map.
        -- constructor; [|constructor]. unfold counts_of. cbn [ip total failed suspicious].
           unfold xstrdup. rewrite (c_str_nul_free a Ha).
           rewrite (hits_snoc_same _ _ _ Ea), Hempty. cbn [app length].
           unfold count_flag. cbn [List.filter].
           repeat split; try lia;
             match goal with |- context [?f l =? 0] => destruct (f l =? 0) end;
             reflexivity.
    + (* a known address *)
      destruct (Z.ltb_spec (0 + Z.of_nat (length d1)) 0); [lia|].
      rewrite Z.add_0_l, Nat2Z.id.
      eexists. split; [reflexivity|]. unfold scan_inv. cbn [data cap].
      rewrite Hd in *.
      rewrite (alter_middle _ d1 d2 s).
      apply Forall_app in Hcnt as [Hc1 Hc2]. inversion Hc2 as [|? ? Hcs Hc3]; subst.
      apply Forall_app in Hnul as [Hn1 Hn2]. inversion Hn2 as [|? ? Hns Hn3]; subst.
      rewrite map_app in Hnd. cbn [map] in Hnd.
      pose proof (NoDup_middle _ _ _ Hnd) as Hnin.
      assert (Hother : forall s', In s' (d1 ++ d2) ->
                extract_ip l 64 <> Some (ip s')).
      { intros s' Hin. rewrite Ea. intros [= E]. apply Hnin.
        rewrite <- map_app, E. now apply in_map. }
      rewrite !length_app in *. cbn [length] in *.
      repeat split.
      * lia.
      * lia.
      * lia.
      * rewrite map_app. cbn [map ip]. exact Hnd.
      * apply Forall_app. split; [exact Hn1|]. constructor; assumption.
      * intros b Hb. rewrite map_app. cbn [map ip].
        destruct (bool_decide_reflect (extract_ip l 64 = Some b)) as [E|E].
        -- rewrite Ea in E. injection E as <-.
           apply in_or_app. right. now left.
        -- rewrite (hits_snoc_other _ _ _ E) in Hb.
           specialize (Hall b Hb). rewrite map_app in Hall. exact Hall.
      * apply Forall_app. split.
        -- rewrite List.Forall_forall in Hc1 |- *. intros s' Hin.
           apply counts_of_other; [|now apply Hc1].
           apply Hother, in_or_app. now left.
        -- constructor.
           ++ destruct Hcs as (T1 & T2 & T3 & T4).
              unfold counts_of. cbn [ip total failed suspicious].
              rewrite (hits_snoc_same _ _ _ Ea), length_app. cbn [length].
              rewrite !count_flag_snoc.
              pose proof (hits_le (ip s) done).
              pose proof (count_flag_le failed_flag (hits (ip s) done)).
              pose proof (count_flag_le susp_flag (hits (ip s) done)).
              rewrite (to_uint32_small (total s + 1)) by lia.
              repeat split; try lia.
              ** destruct (failed_flag l =? 0); [lia|].
                 rewrite to_uint32_small; lia.
              ** destruct (susp_flag l =? 0); [lia|].
                 rewrite to_uint32_small; lia.
           ++ rewrite List.Forall_forall in Hc3 |- *. intros s' Hin.
              apply counts_of_other; [|now apply Hc3].
              apply Hother, in_or_app. now right.
  - (* a skipped line *)
    exists v. split; [reflexivity|]. unfold scan_inv.
    assert (Hsame : forall a, hits a (done ++ [l]) = hits a done).
    { intros a. apply hits_snoc_other. rewrite Ea. discriminate. }
    repeat split; try assumption; try lia.
    + rewrite length_app. cbn [length]. lia.
    + intros a. rewrite Hsame. apply Hall.
    + rewrite List.Forall_forall in Hcnt |- *. intros s Hs.
      apply counts_of_other; [|now apply Hcnt]. rewrite Ea. discriminate.
Qed.

Lemma scan_run (rest done : list bytes) (v : Vec) :
  scan_inv done v ->
  Z.of_nat (length (done ++ rest)) < 2 ^ 32 ->
  exists v', scan rest v = Ret v' /\ scan_inv (done ++ rest) v'.
Proof.
  revert done v. induction rest as [|l rest IH]; intros done v Hinv Hb.
  - exists v. rewrite app_nil_r. split; [reflexivity | exact Hinv].
  - cbn [scan].
    destruct (scan_line_inv done l v Hinv) as (v1 & -> & Hinv1).
    { rewrite !length_app in *. cbn [length] in *. lia. }
    destruct (IH (done ++ [l]) v1 Hinv1) as (v2 & E2 & Hinv2).
    { rewrite <- app_assoc. exact Hb. }
    exists v2. rewrite <- app_assoc in Hinv2. split; assumption.
Qed.

(** X25. Over fewer than 2^32 lines the scan loop returns, never exits and
    never writes outside its vector, and it leaves one entry per distinct
    address: an address has an entry exactly when [extract_ip] found it
    on some line, and the entry holds the number of those lines, the
    number of them with a status from 400 to 599 and the number of them
    flagged suspicious. *)
Theorem scan_counts_per_address (lines : list bytes) :
  Z.of_nat (length lines) < 2 ^ 32 ->
  exists v, scan lines (mkVec [] 0) = Ret v /\
    NoDup (map ip (data v)) /\
    (forall a, In a (map ip (data v)) <-> hits a lines <> []) /\
    Forall (fun s =>
      total s = Z.of_nat (length (hits (ip s) lines)) /\
      failed s = count_flag failed_flag (hits (ip s) lines) /\
      suspicious s = count_flag susp_flag (hits (ip s) lines)) (data v).
Proof.
  intros Hb.
  destruct (scan_run lines [] (mkVec [] 0)) as (v & E & Hinv).
  { unfold scan_inv. cbn [data cap map length].
    repeat split; try constructor; try lia; try discriminate.
    intros a Ha. now contradiction Ha. }
  { exact Hb. }
  cbn [app] in Hinv. destruct Hinv as (_ & _ & Hnd & _ & Hall & Hcnt).
  exists v. split; [exact E|]. split; [exact Hnd|]. split.
  - intros a. split; [|apply Hall].
    intros Hin. apply in_map_iff in Hin as (s & <- & Hs).
    rewrite List.Forall_forall in Hcnt.
    destruct (Hcnt s Hs) as (T1 & T2 & _).
    intros E0. rewrite E0 in T1. cbn [length] in T1. lia.
  - eapply Forall_impl; [exact Hcnt|].
    intros s (T1 & _ & T3 & T4). repeat split; assumption.
Qed.

Lemma scan_counts_per_address_witness :
  let l1 := lit "10.0.0.7 - - [d] " ++ [DQUOTE] ++ lit "GET /a/../etc HTTP/1.1"
            ++ [DQUOTE] ++ lit " 404 12" ++ [LF] in
  let l2 := lit "10.0.0.9 - - [d] " ++ [DQUOTE] ++ lit "GET /index HTTP/1.1"
            ++ [DQUOTE] ++ lit " 200 12" ++ [LF] in
  let lines := [l1; l2; [LF]; l1] in
  exists v, scan lines (mkVec [] 0) = Ret v /\
    NoDup (map ip (data v)) /\
    (forall a, In a (map ip (data v)) <-> hits a lines <> []) /\
    Forall (fun s =>
      total s = Z.of_nat (length (hits (ip s) lines)) /\
      failed s = count_flag failed_flag (hits (ip s) lines) /\
      suspicious s = count_flag susp_flag (hits (ip s) lines)) (data v).
Proof.
  apply (scan_counts_per_address
           [lit "10.0.0.7 - - [d] " ++ [DQUOTE] ++ lit "GET /a/../etc HTTP/1.1"
            ++ [DQUOTE] ++ lit " 404 12" ++ [LF];
            lit "10.0.0.9 - - [d] " ++ [DQUOTE] ++ lit "GET /index HTTP/1.1"
            ++ [DQUOTE] ++ lit " 200 12" ++ [LF];
            [LF];
            lit "10.0.0.7 - - [d] " ++ [DQUOTE] ++ lit "GET /a/../etc HTTP/1.1"
            ++ [DQUOTE] ++ lit " 404 12" ++ [LF]]).
  vm_compute. reflexivity.
Defined.

End ScanFacts.
